(** * MavLogAnalyzer: the per-vehicle data engine of [mavsystem.cpp]

    A shallow embedding of [MavSystem]: the hierarchy store (flat path
    index and group tree), the relative/absolute time bookkeeping, the
    merge loop and the postprocessing passes, followed by the properties
    that the design document states about them.

    Conventions.
    - [double] is Rocq's primitive binary64 [float]; a C++ [float] is a
      binary64 value that is representable in binary32, and every result
      that the code stores into a [float] goes through [round32].
    - [uint64_t] and [unsigned long] (LP64) are [Z] with the wrap-around
      modulo [2^64] written out where the code can overflow.
    - A [Data*] is an address [ptr]; the objects live in [heap], so the
      flat map and the tree share the unit they both point to.
    - A [DataGroup*] is the path of group names from the top-level map.
    - The logger is an output-only collaborator and is not modelled. *)

From Stdlib Require Import ZArith Floats Ascii String.
From stdpp Require Import gmap strings list fin_maps sorting.

Open Scope Z_scope.

(** ** Numbers *)

Module Num.

Definition two64 : Z := 2 ^ 64.
Definition ULONG_MAX : Z := two64 - 1.

(** unsigned 64-bit wrap-around *)
Definition wrap64 (z : Z) : Z := z mod two64.

(** integer -> double conversion (round to nearest even) *)
Definition double_of_Z (n : Z) : float :=
  SF2Prim (binary_normalize prec emax n 0 false).

(** double -> float conversion, the result kept as a binary64 value *)
Definition round32 (x : float) : float :=
  match Prim2SF x with
  | S754_finite s m e =>
      match binary_normalize 24 128 (if s then Z.neg m else Z.pos m) e s with
      | S754_finite s' m' e' =>
          SF2Prim (binary_normalize prec emax
                     (if s' then Z.neg m' else Z.pos m') e' s')
      | y => SF2Prim y
      end
  | _ => x
  end.

(** [round()] of <math.h>: nearest integer, halfway cases away from zero.
    The result of [round] is an integer-valued double; it is kept as the
    integer itself.  NaN and the infinities have no integer value and are
    mapped to 0: the code converts the result to [uint64_t], which C++
    leaves undefined for them. *)
Definition round (x : float) : Z :=
  match Prim2SF x with
  | S754_finite s m e =>
      let mag :=
        if (0 <=? e)%Z then Z.pos m * 2 ^ e
        else (Z.pos m + 2 ^ (- e - 1)) / 2 ^ (- e) in
      if s then - mag else mag
  | _ => 0
  end.

(** [(uint64_t)] applied to an integer-valued double; in range it is the
    identity, and the model wraps where C++ leaves the result undefined. *)
Definition to_u64 (z : Z) : Z := wrap64 z.

Definition INFINITY : float := infinity.

(** [a > b] on doubles *)
Definition gtb (a b : float) : bool := (b <? a)%float.

End Num.

Import Num.

(** ** Data units

    Modelled from the spec: the classes [Data], [DataTimeseries<T>],
    [DataEvent<T>] and [DataParam<T>] (data.h, data_timeseries.h,
    data_event.h, data_param.h) are not part of the sources at hand.  A
    unit has a name, units of measure, a raw/derived tag, an epoch baseline
    and a parent group; a time series or event log is the sequence of its
    [(time, value)] samples in the order they were added, and a parameter
    is the sequence of the values added to it. *)

Definition ptr := nat.
Definition grouppath := list string.

Inductive data_type := DATA_RAW | DATA_DERIVED.

Inductive samples :=
| TimeseriesFloat (l : list (float * float))   (* DataTimeseries<float> *)
| TimeseriesDouble (l : list (float * float))  (* DataTimeseries<double> *)
| TimeseriesUInt (l : list (float * Z))        (* DataTimeseries<unsigned int> *)
| EventString (l : list (float * string))      (* DataEvent<string> *)
| ParamDouble (l : list float)                 (* DataParam<double> *)
| ParamUInt (l : list Z).                      (* DataParam<unsigned int> *)

Record Data := mkData {
  get_name : string;
  get_units : string;
  get_type : data_type;
  get_epoch_datastart : Z;
  get_parent : option grouppath;
  content : samples
}.

Definition set_name (n : string) (d : Data) : Data :=
  mkData n (get_units d) (get_type d) (get_epoch_datastart d) (get_parent d) (content d).
Definition set_type (t : data_type) (d : Data) : Data :=
  mkData (get_name d) (get_units d) t (get_epoch_datastart d) (get_parent d) (content d).
Definition set_epoch_datastart (e : Z) (d : Data) : Data :=
  mkData (get_name d) (get_units d) (get_type d) e (get_parent d) (content d).
Definition set_parent (g : option grouppath) (d : Data) : Data :=
  mkData (get_name d) (get_units d) (get_type d) (get_epoch_datastart d) g (content d).
Definition set_content (c : samples) (d : Data) : Data :=
  mkData (get_name d) (get_units d) (get_type d) (get_epoch_datastart d) (get_parent d) c.

(** the group tree: [groups] and [data] are the two [std::map]s of a
    [DataGroup]; the [parent] back-reference is the position in the tree *)
#[warnings="-register-all"]
Inductive DataGroup := mkGroup {
  groupname : string;
  groups : gmap string DataGroup;
  data : gmap string ptr
}.

(** ** The system *)

Record MavSystem := mkSys {
  id : Z;
  _time : float;
  _time_min : float;
  _time_max : float;
  _time_valid : bool;
  _have_time_update : bool;
  _time_offset_usec : Z;
  _time_offset_guess_usec : Z;
  _time_offset_raw : list (Z * Z);      (* (relative, epoch) pairs, usec *)
  _time_maxfwdjump_sec : float;
  _time_maxbackjump_sec : float;
  deferredLoad : bool;
  _data_from_path : gmap string ptr;    (* data_accessmap *)
  mav_data_groups : gmap string DataGroup;
  heap : gmap ptr Data                  (* the objects behind every Data* *)
}.

Definition with_time (valid : bool) (t tmin tmax : float) (upd : bool)
    (s : MavSystem) : MavSystem :=
  mkSys (id s) t tmin tmax valid upd
        (_time_offset_usec s) (_time_offset_guess_usec s) (_time_offset_raw s)
        (_time_maxfwdjump_sec s) (_time_maxbackjump_sec s) (deferredLoad s)
        (_data_from_path s) (mav_data_groups s) (heap s).

Definition with_offsets (off guess : Z) (raw : list (Z * Z))
    (s : MavSystem) : MavSystem :=
  mkSys (id s) (_time s) (_time_min s) (_time_max s) (_time_valid s)
        (_have_time_update s) off guess raw
        (_time_maxfwdjump_sec s) (_time_maxbackjump_sec s) (deferredLoad s)
        (_data_from_path s) (mav_data_groups s) (heap s).

Definition with_store (flat : gmap string ptr) (tree : gmap string DataGroup)
    (h : gmap ptr Data) (s : MavSystem) : MavSystem :=
  mkSys (id s) (_time s) (_time_min s) (_time_max s) (_time_valid s)
        (_have_time_update s)
        (_time_offset_usec s) (_time_offset_guess_usec s) (_time_offset_raw s)
        (_time_maxfwdjump_sec s) (_time_maxbackjump_sec s) (deferredLoad s)
        flat tree h.

Definition with_heap (h : gmap ptr Data) (s : MavSystem) : MavSystem :=
  with_store (_data_from_path s) (mav_data_groups s) h s.

(** [MavSystem::MavSystem(sysid)] followed by [_defaults()] *)
Definition MavSystem_new (sysid : Z) : MavSystem :=
  mkSys sysid 0%float INFINITY (- INFINITY)%float false false
        0 0 [] 100%float 5%float false ∅ ∅ ∅.

(** ** Time synchronisation *)

(** [MavSystem::update_rel_time]: the returned pair is the status code
    and the system after the call. *)
Definition update_rel_time (nowtime_relative_usec : Z) (allowjumps : bool)
    (s : MavSystem) : Z * MavSystem :=
  let cand_time := (double_of_Z nowtime_relative_usec / 1e6)%float in
  let diff := if _time_valid s then (cand_time - _time s)%float else 0%float in
  (* the first sample is trusted *)
  let s := with_time true (_time s) (_time_min s) (_time_max s)
                     (_have_time_update s) s in
  if (diff <? - _time_maxbackjump_sec s)%float && negb allowjumps then
    (-1, s)                                    (* backward jump *)
  else if gtb diff (_time_maxfwdjump_sec s) && negb allowjumps then
    (1, s)                                     (* forward jump *)
  else
    let tmin := if (cand_time <? _time_min s)%float then cand_time
                else _time_min s in
    let tmax := if gtb cand_time (_time_max s) then cand_time
                else _time_max s in
    (0, with_time true cand_time tmin tmax true s).

(** ** Paths

    Modelled from the spec: [string_split] and [string_trim] (stringfun.h)
    and [Data::get_fullname] (data.h) are not part of the sources at hand.
    A full path is the slash-delimited sequence of the group names followed
    by the unit name; splitting cuts at every delimiter, trimming removes
    the white space at both ends. *)

Definition slash : ascii := "/"%char.

Fixpoint string_split (delim : ascii) (s : string) : list string :=
  match s with
  | EmptyString => [EmptyString]
  | String c rest =>
      if Ascii.eqb c delim then EmptyString :: string_split delim rest
      else match string_split delim rest with
           | seg :: segs => String c seg :: segs
           | [] => [String c EmptyString]
           end
  end.

Definition is_space (c : ascii) : bool :=
  (Ascii.eqb c " " || Ascii.eqb c "009" || Ascii.eqb c "010" || Ascii.eqb c "013")%char.

Fixpoint ltrim (s : string) : string :=
  match s with
  | String c rest => if is_space c then ltrim rest else s
  | EmptyString => EmptyString
  end.

Fixpoint rtrim (s : string) : string :=
  match s with
  | EmptyString => EmptyString
  | String c rest =>
      match rtrim rest with
      | EmptyString => if is_space c then EmptyString else String c EmptyString
      | r => String c r
      end
  end.

Definition string_trim (s : string) : string := rtrim (ltrim s).

Fixpoint join_path (segs : list string) : string :=
  match segs with
  | [] => EmptyString
  | [seg] => seg
  | seg :: rest => seg +:+ String slash (join_path rest)
  end.

Definition get_fullname (d : Data) : string :=
  join_path (default [] (get_parent d) ++ [get_name d]).

(** ** Hierarchy store *)

Definition groupempty (g : DataGroup) : bool :=
  bool_decide (groups g = ∅) && bool_decide (data g = ∅).

(** the group a [DataGroup*] refers to *)
Fixpoint group_at (path : grouppath) (gm : gmap string DataGroup)
    : option DataGroup :=
  match path with
  | [] => None
  | g :: rest =>
      match gm !! g with
      | None => None
      | Some grp =>
          match rest with
          | [] => Some grp
          | _ => group_at rest (groups grp)
          end
      end
  end.

Definition unit_at (path : grouppath) (name : string)
    (gm : gmap string DataGroup) : option ptr :=
  match group_at path gm with
  | Some grp => data grp !! name
  | None => None
  end.

(** the walk of [_data_register_hierarchy]: descend along [path], create
    the groups that do not exist yet, and hook the item into the last one *)
Fixpoint hook_in (path : grouppath) (name : string) (item : ptr)
    (currentGroupMap : gmap string DataGroup) : gmap string DataGroup :=
  match path with
  | [] => currentGroupMap
  | g :: rest =>
      let curgroup :=
        match currentGroupMap !! g with
        | Some grp => grp
        | None => mkGroup g ∅ ∅
        end in
      let curgroup' :=
        match rest with
        | [] => mkGroup (groupname curgroup) (groups curgroup)
                        (<[name := item]> (data curgroup))
        | _ => mkGroup (groupname curgroup)
                       (hook_in rest name item (groups curgroup))
                       (data curgroup)
        end in
      <[g := curgroup']> currentGroupMap
  end.

(** [MavSystem::_data_register_hierarchy].  [item] has to be a live object;
    the walk reads its name and sets its parent. *)
Definition _data_register_hierarchy (fullname : string) (item : ptr)
    (s : MavSystem) : MavSystem :=
  let fullpath := string_trim fullname in
  let flat := <[fullname := item]> (_data_from_path s) in
  let path := removelast (string_split slash fullpath) in
  match path, heap s !! item with
  | _ :: _, Some d =>
      with_store flat
        (hook_in path (get_name d) item (mav_data_groups s))
        (<[item := set_parent (Some path) d]> (heap s)) s
  | _, _ => with_store flat (mav_data_groups s) (heap s) s   (* !curgroup *)
  end.

(** the second half of [_data_unregister_hierarchy]: the unit is erased
    from its parent and every group of the chain that is empty afterwards
    is erased from its own parent (or from the top-level map) *)
Fixpoint erase_and_clean (path : grouppath) (name : string)
    (gm : gmap string DataGroup) : gmap string DataGroup :=
  match path with
  | [] => gm
  | g :: rest =>
      match gm !! g with
      | None => gm
      | Some curgroup =>
          let curgroup' :=
            match rest with
            | [] => mkGroup (groupname curgroup) (groups curgroup)
                            (delete name (data curgroup))
            | _ => mkGroup (groupname curgroup)
                           (erase_and_clean rest name (groups curgroup))
                           (data curgroup)
            end in
          if groupempty curgroup' then delete (groupname curgroup') gm
          else <[g := curgroup']> gm
      end
  end.

(** [MavSystem::_data_unregister_hierarchy] *)
Definition _data_unregister_hierarchy (src : ptr) (s : MavSystem) : MavSystem :=
  match heap s !! src with
  | None => s
  | Some d =>
      match get_parent d with
      | None => s                       (* every data should have a parent *)
      | Some parentgroup =>
          match unit_at parentgroup (get_name d) (mav_data_groups s) with
          | None => s                   (* notfound...weird *)
          | Some _ =>
              with_store (_data_from_path s)
                (erase_and_clean parentgroup (get_name d) (mav_data_groups s))
                (heap s) s
          end
      end
  end.

(** [MavSystem::_del_data], for a non-null [src] *)
Definition _del_data (src : ptr) (s : MavSystem) : MavSystem :=
  match heap s !! src with
  | None => s
  | Some d =>
      let fullpath := get_fullname d in
      let s1 := with_store (delete fullpath (_data_from_path s))
                           (mav_data_groups s) (heap s) s in
      let s2 := _data_unregister_hierarchy src s1 in
      with_heap (delete src (heap s2)) s2
  end.

(** [new]: a fresh address holding [d] *)
Definition alloc (d : Data) (s : MavSystem) : ptr * MavSystem :=
  let p := fresh (dom (heap s)) in
  (p, with_heap (<[p := d]> (heap s)) s).

(** [_get_data<Data>(fullname)]: the unit registered under the exact path *)
Definition _get_data (fullname : string) (s : MavSystem) : option (ptr * Data) :=
  match _data_from_path s !! fullname with
  | Some p => match heap s !! p with
              | Some d => Some (p, d)
              | None => None
              end
  | None => None
  end.

(** ** Operations of the data units

    Modelled from the spec: the member functions of the unit classes
    ([add_elem], [clear], [size], [is_present], [Clone], [merge_in]) are
    not part of the sources at hand.  [add_elem] appends, [clear] empties,
    a unit is present when it holds at least one element, [Clone] is a
    deep copy, and [merge_in] unites the samples over time (the incoming
    value wins on an exact-time duplicate) and fails on units of
    different representations. *)

Inductive data_kind :=
| KTimeseriesFloat | KTimeseriesDouble | KTimeseriesUInt
| KEventString | KParamDouble | KParamUInt.

Global Instance data_kind_eq_dec : EqDecision data_kind.
Proof. solve_decision. Defined.

Definition kind_of (c : samples) : data_kind :=
  match c with
  | TimeseriesFloat _ => KTimeseriesFloat
  | TimeseriesDouble _ => KTimeseriesDouble
  | TimeseriesUInt _ => KTimeseriesUInt
  | EventString _ => KEventString
  | ParamDouble _ => KParamDouble
  | ParamUInt _ => KParamUInt
  end.

Definition no_samples (k : data_kind) : samples :=
  match k with
  | KTimeseriesFloat => TimeseriesFloat []
  | KTimeseriesDouble => TimeseriesDouble []
  | KTimeseriesUInt => TimeseriesUInt []
  | KEventString => EventString []
  | KParamDouble => ParamDouble []
  | KParamUInt => ParamUInt []
  end.

Definition clear (d : Data) : Data :=
  set_content (no_samples (kind_of (content d))) d.

(** [size()] *)
Definition data_size (d : Data) : nat :=
  match content d with
  | TimeseriesFloat l | TimeseriesDouble l => length l
  | TimeseriesUInt l => length l
  | EventString l => length l
  | ParamDouble l => length l
  | ParamUInt l => length l
  end.

Definition is_present (d : Data) : bool := negb (Nat.eqb (data_size d) 0).

(** the samples of a [DataTimeseries<float>] (none for another unit) *)
Definition float_series (d : Data) : list (float * float) :=
  match content d with
  | TimeseriesFloat l => l
  | _ => []
  end.

Definition event_series (d : Data) : list (float * string) :=
  match content d with
  | EventString l => l
  | _ => []
  end.

(** [add_elem(value, time)] on the unit classes *)
Definition add_elem_float (value time : float) (d : Data) : Data :=
  match content d with
  | TimeseriesFloat l => set_content (TimeseriesFloat (l ++ [(time, value)])) d
  | _ => d
  end.

Definition add_elem_double (value time : float) (d : Data) : Data :=
  match content d with
  | TimeseriesDouble l => set_content (TimeseriesDouble (l ++ [(time, value)])) d
  | _ => d
  end.

Definition add_elem_event (value : string) (time : float) (d : Data) : Data :=
  match content d with
  | EventString l => set_content (EventString (l ++ [(time, value)])) d
  | _ => d
  end.

Definition add_elem_param_double (value : float) (d : Data) : Data :=
  match content d with
  | ParamDouble l => set_content (ParamDouble (l ++ [value])) d
  | _ => d
  end.

Definition add_elem_param_uint (value : Z) (d : Data) : Data :=
  match content d with
  | ParamUInt l => set_content (ParamUInt (l ++ [value])) d
  | _ => d
  end.

(** insertion of one incoming sample into a time-ordered sequence *)
Fixpoint merge_sample {V : Type} (t : float) (v : V) (l : list (float * V))
    : list (float * V) :=
  match l with
  | [] => [(t, v)]
  | (t0, v0) :: rest =>
      if (t =? t0)%float then (t, v) :: rest
      else if (t <? t0)%float then (t, v) :: l
      else (t0, v0) :: merge_sample t v rest
  end.

Definition merge_samples {V : Type} (mine incoming : list (float * V))
    : list (float * V) :=
  fold_left (fun acc tv => merge_sample tv.1 tv.2 acc) incoming mine.

(** [Data::merge_in]: [None] is the [false] result *)
Definition data_merge_in (mine src : Data) : option Data :=
  match content mine, content src with
  | TimeseriesFloat a, TimeseriesFloat b =>
      Some (set_content (TimeseriesFloat (merge_samples a b)) mine)
  | TimeseriesDouble a, TimeseriesDouble b =>
      Some (set_content (TimeseriesDouble (merge_samples a b)) mine)
  | TimeseriesUInt a, TimeseriesUInt b =>
      Some (set_content (TimeseriesUInt (merge_samples a b)) mine)
  | EventString a, EventString b =>
      Some (set_content (EventString (merge_samples a b)) mine)
  | ParamDouble a, ParamDouble b =>
      Some (set_content (ParamDouble (a ++ b)) mine)
  | ParamUInt a, ParamUInt b =>
      Some (set_content (ParamUInt (a ++ b)) mine)
  | _, _ => None
  end.

(** a method call through a [Data*] *)
Definition on_unit (f : Data -> Data) (p : ptr) (s : MavSystem) : MavSystem :=
  with_heap (alter f p (heap s)) s.

(** ** The access macros

    Modelled from the spec: [MAVSYSTEM_DATA_ITEM_OR_RETURN] and
    [MAVSYSTEM_REQUIRE_DATA] (mavsystem_macros.h) are not part of the
    sources at hand.  The first resolves the unit at a path, creating and
    registering an empty raw unit on first use; the second only looks the
    unit up.  Either makes the calling function return when no unit of the
    requested class is available. *)

Definition basename (path : string) : string :=
  List.last (string_split slash path) EmptyString.

Definition data_item (k : data_kind) (path units : string) (s : MavSystem)
    : option (ptr * MavSystem) :=
  match _data_from_path s !! path with
  | Some p =>
      match heap s !! p with
      | Some d => if decide (kind_of (content d) = k) then Some (p, s) else None
      | None => None
      end
  | None =>
      let (p, s1) := alloc (mkData (basename path) units DATA_RAW 0 None
                                   (no_samples k)) s in
      Some (p, _data_register_hierarchy path p s1)
  end.

Definition MAVSYSTEM_DATA_ITEM_OR_RETURN (k : data_kind) (path units : string)
    (s : MavSystem) (body : ptr -> MavSystem -> MavSystem) : MavSystem :=
  match data_item k path units s with
  | Some (p, s1) => body p s1
  | None => s
  end.

Definition require_data (k : data_kind) (path : string) (s : MavSystem)
    : option (ptr * Data) :=
  match _get_data path s with
  | Some (p, d) => if decide (kind_of (content d) = k) then Some (p, d) else None
  | None => None
  end.

Definition MAVSYSTEM_REQUIRE_DATA (k : data_kind) (path : string)
    (s : MavSystem) (body : ptr -> Data -> MavSystem) : MavSystem :=
  match require_data k path s with
  | Some (p, d) => body p d
  | None => s
  end.

(** ** Ingestion *)

(** [MavSystem::track_sysperf] *)
Definition track_sysperf (load bat_V bat_A : float) (s : MavSystem) : MavSystem :=
  MAVSYSTEM_DATA_ITEM_OR_RETURN KTimeseriesFloat "computer/autopilot_load" "%" s
    (fun data_autopilot_load s =>
  MAVSYSTEM_DATA_ITEM_OR_RETURN KTimeseriesFloat "power/battery_voltage" "V" s
    (fun data_battery_volt s =>
  MAVSYSTEM_DATA_ITEM_OR_RETURN KTimeseriesFloat "power/battery_current" "A" s
    (fun data_battery_amps s =>
  let s := on_unit (add_elem_float load (_time s)) data_autopilot_load s in
  let s := if gtb bat_A 0 then
             on_unit (add_elem_float bat_A (_time s)) data_battery_amps s
           else s in
  if gtb bat_V 0 then
    on_unit (add_elem_float bat_V (_time s)) data_battery_volt s
  else s))).

(** [MavSystem::track_paths] *)
Definition track_paths (lat lon alt_rel_m alt_msl_m heading_deg : float)
    (s : MavSystem) : MavSystem :=
  MAVSYSTEM_DATA_ITEM_OR_RETURN KTimeseriesDouble "airstate/lat" "" s
    (fun data_lat s =>
  MAVSYSTEM_DATA_ITEM_OR_RETURN KTimeseriesDouble "airstate/lon" "" s
    (fun data_lon s =>
  MAVSYSTEM_DATA_ITEM_OR_RETURN KTimeseriesFloat "airstate/alt GND" "m" s
    (fun data_alt_GND s =>
  MAVSYSTEM_DATA_ITEM_OR_RETURN KTimeseriesFloat "airstate/alt MSL" "m" s
    (fun data_alt_MSL s =>
  MAVSYSTEM_DATA_ITEM_OR_RETURN KTimeseriesFloat "airstate/heading" "deg" s
    (fun data_heading s =>
  let s := on_unit (add_elem_double lat (_time s)) data_lat s in
  let s := on_unit (add_elem_double lon (_time s)) data_lon s in
  let s := on_unit (add_elem_float alt_rel_m (_time s)) data_alt_GND s in
  let s := on_unit (add_elem_float alt_msl_m (_time s)) data_alt_MSL s in
  if (heading_deg <=? 360)%float then
    on_unit (add_elem_float heading_deg (_time s)) data_heading s
  else s))))).

(** [MavSystem::track_flightperf]; the altitude argument is unused *)
Definition track_flightperf (airspeed_ms groundspeed_ms _alt_MSL_m climb_ms
    throttle_percent : float) (s : MavSystem) : MavSystem :=
  MAVSYSTEM_DATA_ITEM_OR_RETURN KTimeseriesFloat "airstate/airspeed" "m/s" s
    (fun data_airspeed_ms s =>
  MAVSYSTEM_DATA_ITEM_OR_RETURN KTimeseriesFloat "airstate/groundspeed" "m/s" s
    (fun data_groundspeed_ms s =>
  MAVSYSTEM_DATA_ITEM_OR_RETURN KTimeseriesFloat "airstate/alt MSL" "m" s
    (fun data_alt_MSL_m s =>
  MAVSYSTEM_DATA_ITEM_OR_RETURN KTimeseriesFloat "airstate/climb" "m/s" s
    (fun data_climb_ms s =>
  MAVSYSTEM_DATA_ITEM_OR_RETURN KTimeseriesFloat "airstate/throttle" "%" s
    (fun data_throttle_percent s =>
  let s := on_unit (add_elem_float airspeed_ms (_time s)) data_airspeed_ms s in
  let s := on_unit (add_elem_float groundspeed_ms (_time s)) data_groundspeed_ms s in
  let s := on_unit (add_elem_float climb_ms (_time s)) data_climb_ms s in
  on_unit (add_elem_float throttle_percent (_time s)) data_throttle_percent s))))).

(** ** Iteration over the flat map

    A [std::map] is walked in the order of its keys. *)

Definition key_le (a b : string * ptr) : Prop := String.leb a.1 b.1 = true.

Global Instance key_le_dec : RelDecision key_le.
Proof. intros a b. unfold key_le. apply _. Defined.

Definition in_key_order (m : gmap string ptr) : list (string * ptr) :=
  merge_sort key_le (map_to_list m).

(** ** Absolute time *)

(** [MavSystem::update_time_offset_guess]; the assertion only aborts and is
    not modelled. *)
Definition update_time_offset_guess (nowtime_relative_usec epoch_usec : Z)
    (s : MavSystem) : MavSystem :=
  if (0 <? epoch_usec)%Z then
    with_offsets (_time_offset_usec s)
                 (wrap64 (epoch_usec - nowtime_relative_usec))
                 (_time_offset_raw s) s
  else s.

(** [MavSystem::update_time_offset] *)
Definition update_time_offset (nowtime_relative_usec epoch_usec : Z)
    (allowjumps : bool) (s : MavSystem) : MavSystem :=
  let s := (update_rel_time nowtime_relative_usec allowjumps s).2 in
  if (0 <? epoch_usec)%Z then
    with_offsets (_time_offset_usec s) (_time_offset_guess_usec s)
                 (_time_offset_raw s ++ [(nowtime_relative_usec, epoch_usec)]) s
  else s.

(** the loop of [determine_absolute_time]: [sum_diff] accumulates in double
    the differences taken on [uint64_t] *)
Definition sum_diffs (raw : list (Z * Z)) : float :=
  fold_left (fun sum_diff it =>
               (sum_diff + double_of_Z (wrap64 (it.2 - it.1)))%float)
            raw 0%float.

Definition mean_offset_usec (raw : list (Z * Z)) : Z :=
  let sum_diff := (sum_diffs raw / double_of_Z (Z.of_nat (length raw)))%float in
  to_u64 (round sum_diff).

(** [MavSystem::determine_absolute_time] *)
Definition determine_absolute_time (s : MavSystem) : MavSystem :=
  let offset :=
    match _time_offset_raw s with
    | [] => _time_offset_guess_usec s           (* make a guess *)
    | _ => mean_offset_usec (_time_offset_raw s)
    end in
  let s := with_offsets offset (_time_offset_guess_usec s) (_time_offset_raw s) s in
  (* apply to all data *)
  fold_left (fun s it => on_unit (set_epoch_datastart offset) it.2 s)
            (in_key_order (_data_from_path s)) s.

(** ** Active time span *)

Section ActiveTime.

(** [Data::get_epoch_dataend] is not part of the sources at hand; the
    queries are stated for any such function. *)
Variable get_epoch_dataend : Data -> Z.

(** [MavSystem::get_time_active_end_usec] *)
Definition get_time_active_end_usec (s : MavSystem) : Z :=
  fold_left (fun tmax it =>
               match heap s !! it.2 with
               | Some d =>
                   let tmax_epoch_usec := get_epoch_dataend d in
                   if (tmax <? tmax_epoch_usec)%Z then tmax_epoch_usec else tmax
               | None => tmax
               end)
            (in_key_order (_data_from_path s)) 0.

(** [MavSystem::get_time_active_begin_usec] *)
Definition get_time_active_begin_usec (s : MavSystem) : Z :=
  fold_left (fun tmin it =>
               match heap s !! it.2 with
               | Some d =>
                   let tmin_epoch_usec := get_epoch_datastart d in
                   if (tmin_epoch_usec <? tmin)%Z then tmin_epoch_usec else tmin
               | None => tmin
               end)
            (in_key_order (_data_from_path s)) ULONG_MAX.

End ActiveTime.

(** ** Interpolation

    Modelled from the spec: [DataTimeseries<float>::get_data_at_time]
    (data_timeseries.h) is not part of the sources at hand.  The value at
    [t] is interpolated linearly between the two bracketing samples and
    clamped to the nearest sample at the boundaries; there is no value when
    the series is empty.  The passes below do not depend on this choice:
    they take the interpolation as a parameter. *)
Fixpoint interpolate (l : list (float * float)) (t : float) : option float :=
  match l with
  | [] => None
  | (t0, v0) :: rest =>
      match rest with
      | [] => Some v0
      | (t1, v1) :: _ =>
          if (t <=? t0)%float then Some v0
          else if (t <? t1)%float then
            Some (round32 (v0 + (v1 - v0) * ((t - t0) / (t1 - t0))))
          else interpolate rest t
      end
  end.

(** ** Postprocessing *)

(** the state of the loop of [_postprocess_flightbook] *)
Record flightbook := mkFlightbook {
  flying : bool;
  t_takeoff : float;
  t_first_takeoff : float;
  t_last_landing : float;
  nflights : Z;                       (* unsigned int *)
  flighttime : float;
  takeofflanding : list (float * string)
}.

Definition flightbook_init : flightbook :=
  mkFlightbook false 0 0 0 0 0 [].

Definition wrap32 (z : Z) : Z := z mod 2 ^ 32.

(** the state of an integration loop of [_postprocess_powerstats]: the
    previous sample, the running sum (a [float]), and the two output rows *)
Record integrator := mkIntegrator {
  k_index : nat;
  ta : float;
  fa : float;
  cumulated : float;
  inst_row : list (float * float);
  cum_row : list (float * float)
}.

Definition integrator_init : integrator := mkIntegrator 0 0 0 0 [] [].

(** one iteration of the charge (or consumption) loop *)
Definition integrate_step (st : integrator) (sample : float * float)
    : integrator :=
  let (t, f) := sample in
  match k_index st with
  | O => mkIntegrator 1 t f (cumulated st)
                      (inst_row st ++ [(t, 0%float)])
                      (cum_row st ++ [(t, 0%float)])
  | S _ =>
      let tb := t in
      let fb := f in
      let charge := ((tb - ta st) * (fa st + fb) / 2)%float in
      let ccharge := round32 (cumulated st + charge) in
      mkIntegrator (S (k_index st)) tb fb ccharge
                   (inst_row st ++ [(t, round32 charge)])
                   (cum_row st ++ [(t, round32 (ccharge / 3600))])
  end.

Definition integrate (l : list (float * float)) : integrator :=
  fold_left integrate_step l integrator_init.

(** the state of the loop of [_postprocess_glideperf_pos] *)
Record hdist_loop := mkHdistLoop {
  k_pos : nat;
  x_pre : float;
  y_pre : float;
  hdist_pre : float;
  dist_row : list (float * float)
}.

Section Postprocess.

(** [DataTimeseries<float>::get_data_at_time], [DataTimed::has_bad_timestamps]
    and [DataTimed::make_periodic] are not part of the sources at hand, and
    neither is the regular-expression match behind [get_data(pattern, true)];
    the passes are stated for any such functions.  The values that
    [_postprocess_glideperf_pos] reads from its uninitialised locals are
    parameters as well, and so is the velocity-based glide pass, whose
    trigonometry is outside of this development. *)
Variable get_data_at_time : list (float * float) -> float -> option float.
Variable has_bad_timestamps : Data -> bool.
Variable make_periodic : Data -> Data.
Variable regex_match : string -> string -> bool.
Variable uninitialised : float.
Variable _postprocess_glideperf_vel : MavSystem -> MavSystem.

(** [get_data<const DataTimeseries<float>>(pattern, true)]: the first unit,
    in key order, whose path matches, if it is a float time series *)
Definition get_data_pattern (pattern : string) (s : MavSystem)
    : option (ptr * Data) :=
  match List.find (fun it => regex_match pattern it.1)
                  (in_key_order (_data_from_path s)) with
  | Some it =>
      match heap s !! it.2 with
      | Some d =>
          if decide (kind_of (content d) = KTimeseriesFloat)
          then Some (it.2, d) else None
      | None => None
      end
  | None => None
  end.

(** one iteration of the loop of [_postprocess_flightbook] *)
Definition flightbook_step (throttle_percent : list (float * float))
    (st : flightbook) (sample : float * float) : flightbook :=
  let (t, alt) := sample in
  match get_data_at_time throttle_percent t with
  | None => st
  | Some throttle =>
      let seems_flying := gtb alt 1 && gtb throttle 20 in
      if seems_flying && negb (flying st) then
        let n := wrap32 (nflights st + 1) in
        mkFlightbook true t
          (if (n =? 1)%Z then t else t_first_takeoff st)
          (t_last_landing st) n (flighttime st)
          (takeofflanding st ++ [(t, "takeoff")])
      else if negb seems_flying && flying st then
        mkFlightbook false (t_takeoff st) (t_first_takeoff st) t
          (nflights st) (flighttime st + (t - t_takeoff st))%float
          (takeofflanding st ++ [(t, "landing")])
      else st
  end.

Definition flightbook_loop (alt throttle_percent : list (float * float))
    : flightbook :=
  fold_left (flightbook_step throttle_percent) alt flightbook_init.

(** clear a derived output and give it the baseline of the inputs *)
Definition reset_output (epoch_datastart_usec : Z) (p : ptr) (s : MavSystem)
    : MavSystem :=
  on_unit (set_epoch_datastart epoch_datastart_usec)
    p (on_unit clear p (on_unit (set_type DATA_DERIVED) p s)).

(** [MavSystem::_postprocess_flightbook] *)
Definition _postprocess_flightbook (s : MavSystem) : MavSystem :=
  MAVSYSTEM_REQUIRE_DATA KTimeseriesFloat "airstate/alt GND" s
    (fun _ data_alt =>
  MAVSYSTEM_REQUIRE_DATA KTimeseriesFloat "airstate/throttle" s
    (fun _ data_throttle_percent =>
  if negb (get_epoch_datastart data_alt
           =? get_epoch_datastart data_throttle_percent)%Z then s
  else
  let epoch_datastart_usec := get_epoch_datastart data_alt in
  MAVSYSTEM_DATA_ITEM_OR_RETURN KEventString "flightbook/takeoff_landing" "" s
    (fun evt_takeofflanding s =>
  MAVSYSTEM_DATA_ITEM_OR_RETURN KParamUInt "flightbook/number flights" "" s
    (fun data_nflights s =>
  MAVSYSTEM_DATA_ITEM_OR_RETURN KParamDouble "flightbook/total flight time" "s" s
    (fun data_flighttime s =>
  MAVSYSTEM_DATA_ITEM_OR_RETURN KParamDouble "flightbook/first takeoff" "[time epoch]" s
    (fun data_first_takeoff s =>
  MAVSYSTEM_DATA_ITEM_OR_RETURN KParamDouble "flightbook/last landing" "[time epoch]" s
    (fun data_last_landing s =>
  let s := reset_output epoch_datastart_usec evt_takeofflanding s in
  let s := reset_output epoch_datastart_usec data_nflights s in
  let s := reset_output epoch_datastart_usec data_flighttime s in
  let s := reset_output epoch_datastart_usec data_first_takeoff s in
  let s := reset_output epoch_datastart_usec data_last_landing s in
  let fb := flightbook_loop (float_series data_alt)
                            (float_series data_throttle_percent) in
  let s := fold_left (fun s ev => on_unit (add_elem_event ev.2 ev.1)
                                          evt_takeofflanding s)
                     (takeofflanding fb) s in
  let s := on_unit (add_elem_param_uint (nflights fb)) data_nflights s in
  let s := on_unit (add_elem_param_double (flighttime fb)) data_flighttime s in
  let s := on_unit (add_elem_param_double (t_first_takeoff fb)) data_first_takeoff s in
  on_unit (add_elem_param_double (t_last_landing fb)) data_last_landing s))))))).

(** the power row of [_postprocess_powerstats] *)
Definition power_row (volt amps : list (float * float)) : list (float * float) :=
  omap (fun sample : float * float =>
          match get_data_at_time amps sample.1 with
          | Some a => Some (sample.1, round32 (sample.2 * a))
          | None => None
          end) volt.

(** [MavSystem::_postprocess_powerstats] *)
Definition _postprocess_powerstats (s : MavSystem) : MavSystem :=
  MAVSYSTEM_REQUIRE_DATA KTimeseriesFloat "power/battery_voltage" s
    (fun _ data_battery_volt =>
  MAVSYSTEM_REQUIRE_DATA KTimeseriesFloat "power/battery_current" s
    (fun _ data_battery_amps =>
  if negb (get_epoch_datastart data_battery_volt
           =? get_epoch_datastart data_battery_amps)%Z then s
  else
  let epoch_datastart_usec := get_epoch_datastart data_battery_amps in
  MAVSYSTEM_DATA_ITEM_OR_RETURN KTimeseriesFloat "power/power" "W" s
    (fun data_power s =>
  MAVSYSTEM_DATA_ITEM_OR_RETURN KTimeseriesFloat "power/inst. consumption" "Ws" s
    (fun data_consumption s =>
  MAVSYSTEM_DATA_ITEM_OR_RETURN KTimeseriesFloat "power/inst. charge" "As" s
    (fun data_charge s =>
  MAVSYSTEM_DATA_ITEM_OR_RETURN KTimeseriesFloat "power/cum. consumption" "Wh" s
    (fun data_cconsumption s =>
  MAVSYSTEM_DATA_ITEM_OR_RETURN KTimeseriesFloat "power/cum. charge" "Ah" s
    (fun data_ccharge s =>
  let s := reset_output epoch_datastart_usec data_power s in
  let s := reset_output epoch_datastart_usec data_consumption s in
  let s := reset_output epoch_datastart_usec data_cconsumption s in
  let s := reset_output epoch_datastart_usec data_charge s in
  let s := reset_output epoch_datastart_usec data_ccharge s in
  let add_row (row : list (float * float)) (p : ptr) (s : MavSystem) :=
    fold_left (fun s tv => on_unit (add_elem_float tv.2 tv.1) p s) row s in
  let power := power_row (float_series data_battery_volt)
                         (float_series data_battery_amps) in
  let s := add_row power data_power s in
  let charge := integrate (float_series data_battery_amps) in
  let s := add_row (inst_row charge) data_charge s in
  let s := add_row (cum_row charge) data_ccharge s in
  let consumption := integrate power in
  let s := add_row (inst_row consumption) data_consumption s in
  add_row (cum_row consumption) data_cconsumption s))))))).

(** one iteration of the loop of [_postprocess_glideperf_pos] *)
Definition hdist_step (ys zs : list (float * float)) (st : hdist_loop)
    (sample : float * float) : hdist_loop :=
  let (t, x) := sample in
  let k := k_pos st in
  match get_data_at_time ys t with
  | Some y =>
      match get_data_at_time zs t with
      | Some z =>
          let dx := round32 (x - x_pre st) in
          let dy := round32 (y - y_pre st) in
          match k with
          | O => mkHdistLoop (S k) x y (hdist_pre st) (dist_row st)
          | S _ =>
              let hdist :=
                round32 (sqrt (dx * dx + dy * dy) + hdist_pre st) in
              mkHdistLoop (S k) x y hdist (dist_row st ++ [(t, hdist)])
          end
      | None => mkHdistLoop (S k) (x_pre st) (y_pre st) (hdist_pre st) (dist_row st)
      end
  | None => mkHdistLoop (S k) (x_pre st) (y_pre st) (hdist_pre st) (dist_row st)
  end.

(** [MavSystem::_postprocess_glideperf_pos] *)
Definition _postprocess_glideperf_pos (s : MavSystem) : MavSystem :=
  match get_data_pattern "\bPN\b" s, get_data_pattern "\bPE\b" s,
        get_data_pattern "\bPD\b" s with
  | Some (_, data_x), Some (_, data_y), Some (_, data_z) =>
      MAVSYSTEM_DATA_ITEM_OR_RETURN KTimeseriesFloat
        "glideperf/cum. horz. dist." "m" s
        (fun data_dist s =>
      let s := on_unit (set_type DATA_DERIVED) data_dist s in
      let st := fold_left (hdist_step (float_series data_y) (float_series data_z))
                  (float_series data_x)
                  (mkHdistLoop 0 uninitialised uninitialised uninitialised []) in
      fold_left (fun s tv => on_unit (add_elem_float tv.2 tv.1) data_dist s)
                (dist_row st) s)
  | _, _, _ => s
  end.

Definition is_timed (d : Data) : bool :=
  match content d with
  | ParamDouble _ | ParamUInt _ => false
  | _ => true
  end.

(** [MavSystem::_postprocess_bad_timing] *)
Definition _postprocess_bad_timing (s : MavSystem) : MavSystem :=
  let oldmap := _data_from_path s in
  fold_left
    (fun s it =>
       match heap s !! it.2 with
       | Some ds =>
           if is_timed ds && has_bad_timestamps ds then
             (* create a backup *)
             let bak_name := get_name ds +:+ "_orig" in
             let (data_orig, s) := alloc (set_name bak_name ds) s in
             let fullname := get_fullname (set_name bak_name ds) in
             let s := _data_register_hierarchy fullname data_orig s in
             (* re-align timing *)
             on_unit make_periodic it.2 s
           else s
       | None => s
       end)
    (in_key_order oldmap) s.

(** [MavSystem::postprocess] *)
Definition postprocess (s : MavSystem) : MavSystem :=
  let s := _postprocess_bad_timing s in
  let s := _postprocess_flightbook s in
  let s := _postprocess_powerstats s in
  let s := _postprocess_glideperf_pos s in
  _postprocess_glideperf_vel s.

(** ** Merging *)

(** [MavSystem::_add_data]; [src] is a unit of the other system *)
Definition _add_data (src : Data) (s : MavSystem) : bool * MavSystem :=
  let fullname := get_fullname src in
  match _get_data fullname s with
  | Some (p, mydata) =>
      if is_present mydata then
        (* already exists -> ask data class to merge it in *)
        match data_merge_in mydata src with
        | Some merged => (true, with_heap (<[p := merged]> (heap s)) s)
        | None => (false, s)
        end
      else
        let s := _del_data p s in       (* drop old, empty data *)
        let (copiedData, s) := alloc src s in
        (true, _data_register_hierarchy fullname copiedData s)
  | None =>
      let (copiedData, s) := alloc src s in
      (true, _data_register_hierarchy fullname copiedData s)
  end.

(** the loop of [merge_in]: the units that were merged or copied ([true])
    and those that were skipped ([false]), in the order of the walk, the
    flag [added], and the receiving system *)
Definition merge_loop (other : MavSystem) (s : MavSystem)
    : list bool * bool * MavSystem :=
  fold_left
    (fun (acc : list bool * bool * MavSystem) ito =>
       let '(done, added, s) := acc in
       match heap other !! ito.2 with
       | Some data =>
           let (ok, s) := _add_data data s in
           (done ++ [ok], added || ok, s)
       | None => (done ++ [false], added, s)
       end)
    (in_key_order (_data_from_path other)) ([], false, s).

(** [MavSystem::merge_in] *)
Definition merge_in (other : MavSystem) (s : MavSystem) : bool * MavSystem :=
  let '(_, added, s) := merge_loop other s in
  let s := if added then determine_absolute_time (postprocess s) else s in
  (true, s).

End Postprocess.

(** ** Copying and clean-up *)

(** [MavSystem::_data_cleanup]: every object of the flat map is deleted and
    both maps are cleared *)
Definition _data_cleanup (s : MavSystem) : MavSystem :=
  let h := fold_left (fun h (it : string * ptr) => delete it.2 h)
                     (in_key_order (_data_from_path s)) (heap s) in
  with_store ∅ ∅ h s.




(** ** Shifting the time references *)

(** the integer part of a double: the fraction is discarded.  NaN and the
    infinities have none. *)
Definition trunc_double (x : float) : option Z :=
  match Prim2SF x with
  | S754_zero _ => Some 0
  | S754_finite s m e =>
      let mag := if (0 <=? e)%Z then Z.pos m * 2 ^ e
                 else Z.pos m / 2 ^ (- e) in
      Some (if s then - mag else mag)
  | _ => None
  end.

(** [(int64_t)] applied to a double.  The conversion is defined when the
    integer part of the double is a value of [int64_t].  For every other
    double, NaN and the infinities included, the instruction that x86-64
    compilers emit for it (cvttsd2si) yields [-2^63]; this is the value
    taken here. *)
Definition to_i64 (x : float) : Z :=
  match trunc_double x with
  | Some z => if (- 2 ^ 63 <=? z) && (z <? 2 ^ 63) then z else - 2 ^ 63
  | None => - 2 ^ 63
  end.

(** [MavSystem::shift_time] *)
Definition shift_time (delay : float) (s : MavSystem) : MavSystem :=
  let udelay := to_i64 (delay * 1e6) in
  with_offsets (_time_offset_usec s)
    (wrap64 (_time_offset_guess_usec s + udelay))
    (List.map (fun it : Z * Z => (wrap64 (it.1 - udelay), it.2))
              (_time_offset_raw s)) s.

(** ** Angles *)

(** the two loops of [angle360]; a loop that is still running when the
    fuel is used up has no result *)
Fixpoint angle360_down (fuel : nat) (x : float) : option float :=
  match fuel with
  | O => None
  | S fuel => if (360 <=? x)%float then angle360_down fuel (x - 360)%float
              else Some x
  end.

Fixpoint angle360_up (fuel : nat) (x : float) : option float :=
  match fuel with
  | O => None
  | S fuel => if (x <? 0)%float then angle360_up fuel (x + 360)%float
              else Some x
  end.

(** [angle360] *)
Definition angle360 (fuel : nat) (x : float) : option float :=
  if is_nan x || is_infinity x then Some x
  else match angle360_down fuel x with
       | Some x => angle360_up fuel x
       | None => None
       end.

(** ** The vehicle and its link

    Modelled from the spec: the class declaration (mavsystem.h) is not part
    of the sources at hand.  The members that the store operations above
    leave alone (the vehicle type, the autopilot type, their names, the
    flag [has_been_armed] and the link statistics) are kept in a record of
    their own beside the system.  The counters of the link statistics wrap
    around at a width that the header declares; the model takes the
    moduli as parameters. *)

(** the values of the MAVLink common dialect, which the code takes from
    the protocol headers *)
Module MAVLink.

Definition MAV_STATE_UNINIT : Z := 0.
Definition MAV_STATE_BOOT : Z := 1.
Definition MAV_STATE_CALIBRATING : Z := 2.
Definition MAV_STATE_STANDBY : Z := 3.
Definition MAV_STATE_ACTIVE : Z := 4.
Definition MAV_STATE_CRITICAL : Z := 5.
Definition MAV_STATE_EMERGENCY : Z := 6.
Definition MAV_STATE_POWEROFF : Z := 7.

Definition MAV_MODE_FLAG_SAFETY_ARMED : Z := 128.
Definition MAV_MODE_FLAG_MANUAL_INPUT_ENABLED : Z := 64.
Definition MAV_MODE_FLAG_STABILIZE_ENABLED : Z := 16.
Definition MAV_MODE_FLAG_GUIDED_ENABLED : Z := 8.

Definition MAV_AUTOPILOT_GENERIC : Z := 0.
Definition MAV_AUTOPILOT_SLUGS : Z := 2.
Definition MAV_AUTOPILOT_ARDUPILOTMEGA : Z := 3.
Definition MAV_AUTOPILOT_OPENPILOT : Z := 4.
Definition MAV_AUTOPILOT_PX4 : Z := 12.

Definition MAV_TYPE_GENERIC : Z := 0.
Definition MAV_TYPE_FIXED_WING : Z := 1.
Definition MAV_TYPE_QUADROTOR : Z := 2.
Definition MAV_TYPE_COAXIAL : Z := 3.
Definition MAV_TYPE_HELICOPTER : Z := 4.
Definition MAV_TYPE_ANTENNA_TRACKER : Z := 5.
Definition MAV_TYPE_GCS : Z := 6.
Definition MAV_TYPE_AIRSHIP : Z := 7.
Definition MAV_TYPE_FREE_BALLOON : Z := 8.
Definition MAV_TYPE_ROCKET : Z := 9.
Definition MAV_TYPE_GROUND_ROVER : Z := 10.
Definition MAV_TYPE_SURFACE_BOAT : Z := 11.
Definition MAV_TYPE_SUBMARINE : Z := 12.
Definition MAV_TYPE_HEXAROTOR : Z := 13.
Definition MAV_TYPE_OCTOROTOR : Z := 14.
Definition MAV_TYPE_TRICOPTER : Z := 15.
Definition MAV_TYPE_FLAPPING_WING : Z := 16.
Definition MAV_TYPE_KITE : Z := 17.
Definition MAV_TYPE_ONBOARD_CONTROLLER : Z := 18.

End MAVLink.

Import MAVLink.

Inductive mavlink_parsed_e :=
| MAVLINK_INTERPRETED | MAVLINK_UNINTERPRETED | MAVLINK_ERROR.

Record mavlink_summary_t := mkSummary {
  _link_throughput_bytes : Z;
  num_received : Z;
  num_interpreted : Z;
  num_uninterpreted : Z;
  num_error : Z;
  mavlink_msgids_interpreted : gset Z;
  mavlink_msgids_uninterpreted : gset Z
}.

Record Vehicle := mkVehicle {
  mavtype : Z;
  mavtype_str : string;
  aptype : Z;
  aptype_str : string;
  has_been_armed : bool;
  _mavlink_summary : mavlink_summary_t
}.

(** what [_defaults] gives these members *)
Definition Vehicle_defaults (MAVTYPE_INIT MAVAPTYPE_INIT : Z) : Vehicle :=
  mkVehicle MAVTYPE_INIT "unknown" MAVAPTYPE_INIT "unknown" false
            (mkSummary 0 0 0 0 0 ∅ ∅).

(** [MavSystem::_aptype2str] *)
Definition _aptype2str (atype : Z) : string :=
  if atype =? MAV_AUTOPILOT_GENERIC then "generic"
  else if atype =? MAV_AUTOPILOT_SLUGS then "Slugs"
  else if atype =? MAV_AUTOPILOT_ARDUPILOTMEGA then "ArduPilotMega"
  else if atype =? MAV_AUTOPILOT_OPENPILOT then "OpenPilot"
  else if atype =? MAV_AUTOPILOT_PX4 then "PX4"
  else "unknown".

(** [MavSystem::_mavtype2str] *)
Definition _mavtype2str (mtype : Z) : string :=
  if mtype =? MAV_TYPE_GENERIC then "generic"
  else if mtype =? MAV_TYPE_FIXED_WING then "fixed wing"
  else if mtype =? MAV_TYPE_QUADROTOR then "quadrotor"
  else if mtype =? MAV_TYPE_COAXIAL then "coax"
  else if mtype =? MAV_TYPE_HELICOPTER then "heli"
  else if mtype =? MAV_TYPE_ANTENNA_TRACKER then "antennatracker"
  else if mtype =? MAV_TYPE_GCS then "GCS"
  else if mtype =? MAV_TYPE_AIRSHIP then "airship"
  else if mtype =? MAV_TYPE_FREE_BALLOON then "balloon"
  else if mtype =? MAV_TYPE_ROCKET then "rocket"
  else if mtype =? MAV_TYPE_GROUND_ROVER then "rover"
  else if mtype =? MAV_TYPE_SURFACE_BOAT then "boat"
  else if mtype =? MAV_TYPE_SUBMARINE then "submarine"
  else if mtype =? MAV_TYPE_HEXAROTOR then "hexarotor"
  else if mtype =? MAV_TYPE_OCTOROTOR then "octarotor"
  else if mtype =? MAV_TYPE_TRICOPTER then "tricopter"
  else if mtype =? MAV_TYPE_FLAPPING_WING then "flapwing"
  else if mtype =? MAV_TYPE_KITE then "kite"
  else if mtype =? MAV_TYPE_ONBOARD_CONTROLLER then "onboard controller"
  else "unknown".

(** [add_elem(value, time)] on a [DataTimeseries<unsigned int>] *)
Definition add_elem_uint (value : Z) (time : float) (d : Data) : Data :=
  match content d with
  | TimeseriesUInt l => set_content (TimeseriesUInt (l ++ [(time, value)])) d
  | _ => d
  end.

(** [get_latest()] of a [DataEvent<string>]: the value added last *)
Definition get_latest (d : Data) : string :=
  match last (event_series d) with
  | Some ev => ev.2
  | None => EmptyString
  end.

(** the block that [track_system] repeats for each of its event logs: the
    state is added when the log is empty or its latest entry differs *)
Definition add_on_change (str : string) (time : float) (d : Data) : Data :=
  if negb (Nat.eqb (data_size d) 0) then
    if negb (String.eqb (get_latest d) str) then add_elem_event str time d
    else d
  else add_elem_event str time d.

(** the access macro in a function that also changes the vehicle: [ret]
    is what the function returns when the macro makes it return *)
Definition MAVSYSTEM_DATA_ITEM_OR_RETURN_with {A : Type}
    (k : data_kind) (path units : string) (s : MavSystem)
    (ret : MavSystem -> A) (body : ptr -> MavSystem -> A) : A :=
  match data_item k path units s with
  | Some (p, s1) => body p s1
  | None => ret s
  end.

(** the name of a [MAV_STATE] *)
Definition strstate (status : Z) : string :=
  if status =? MAV_STATE_UNINIT then "uninitialized"
  else if status =? MAV_STATE_BOOT then "boot"
  else if status =? MAV_STATE_CALIBRATING then "calibrating"
  else if status =? MAV_STATE_STANDBY then "standby"
  else if status =? MAV_STATE_ACTIVE then "active"
  else if status =? MAV_STATE_CRITICAL then "critical"
  else if status =? MAV_STATE_EMERGENCY then "emergency"
  else if status =? MAV_STATE_POWEROFF then "poweroff"
  else "unknown".

(** [basemode & flag] as a [bool] *)
Definition flag_set (basemode flag : Z) : bool :=
  negb (Z.land basemode flag =? 0).

(** [MavSystem::track_system] *)
Definition track_system (stype status atype basemode custmode : Z)
    (vs : Vehicle * MavSystem) : Vehicle * MavSystem :=
  let (v, s) := vs in
  MAVSYSTEM_DATA_ITEM_OR_RETURN_with KEventString "mission/armed" "" s
    (fun s => (v, s))
    (fun evt_armed s =>
  MAVSYSTEM_DATA_ITEM_OR_RETURN_with KEventString "mission/stabilized" "" s
    (fun s => (v, s))
    (fun evt_stabilized s =>
  MAVSYSTEM_DATA_ITEM_OR_RETURN_with KEventString "mission/guided" "" s
    (fun s => (v, s))
    (fun evt_guided s =>
  MAVSYSTEM_DATA_ITEM_OR_RETURN_with KEventString "mission/manual" "" s
    (fun s => (v, s))
    (fun evt_manual s =>
  MAVSYSTEM_DATA_ITEM_OR_RETURN_with KEventString "system/status" "MAV_STATE_ENUM" s
    (fun s => (v, s))
    (fun evt_status s =>
  MAVSYSTEM_DATA_ITEM_OR_RETURN_with KTimeseriesUInt "system/custom_mode"
    "autopilot-specific mode" s
    (fun s => (v, s))
    (fun data_custmode s =>
  let s := on_unit (add_elem_uint custmode (_time s)) data_custmode s in
  (* overall system status *)
  let s := on_unit (add_on_change (strstate status) (_time s)) evt_status s in
  (* armed state *)
  let is_armed := flag_set basemode MAV_MODE_FLAG_SAFETY_ARMED in
  let s := on_unit (add_on_change (if is_armed then "armed" else "disarmed")
                                  (_time s)) evt_armed s in
  let armed := if is_armed then true else has_been_armed v in
  (* stabilized state *)
  let is_on := flag_set basemode MAV_MODE_FLAG_STABILIZE_ENABLED in
  let s := on_unit (add_on_change (if is_on then "stabilized on" else "stabilized off")
                                  (_time s)) evt_stabilized s in
  (* guided state *)
  let is_on := flag_set basemode MAV_MODE_FLAG_GUIDED_ENABLED in
  let s := on_unit (add_on_change (if is_on then "guided on" else "guided off")
                                  (_time s)) evt_guided s in
  (* manual state *)
  let is_on := flag_set basemode MAV_MODE_FLAG_MANUAL_INPUT_ENABLED in
  let s := on_unit (add_on_change (if is_on then "manual on" else "manual off")
                                  (_time s)) evt_manual s in
  (* type and autopilot type *)
  let (mtype, mstr) :=
    if negb (mavtype v =? stype) then (stype, _mavtype2str stype)
    else (mavtype v, mavtype_str v) in
  let (atype', astr) :=
    if negb (aptype v =? atype) then (atype, _aptype2str atype)
    else (aptype v, aptype_str v) in
  (mkVehicle mtype mstr atype' astr armed (_mavlink_summary v), s))))))).

Section Link.

(** the moduli at which the packet counters and the byte count of the
    link statistics wrap *)
Variable counter_modulus : Z.
Variable bytes_modulus : Z.

(** [n++] on a packet counter *)
Definition count (n : Z) : Z := (n + 1) mod counter_modulus.

(** [MavSystem::track_mavlink] *)
Definition track_mavlink (data_length_bytes msgid : Z)
    (whatwasdone : mavlink_parsed_e) (vs : Vehicle * MavSystem)
    : Vehicle * MavSystem :=
  let (v, s) := vs in
  MAVSYSTEM_DATA_ITEM_OR_RETURN_with KTimeseriesFloat "radio/throughput" "kbps" s
    (fun s => (v, s))
    (fun data_throughput s =>
  let m := _mavlink_summary v in
  (* accumulate amount of sent data between two successive time references *)
  let bytes := (_link_throughput_bytes m + data_length_bytes) mod bytes_modulus in
  let m :=
    match whatwasdone with
    | MAVLINK_INTERPRETED =>
        mkSummary bytes (num_received m) (count (num_interpreted m))
                  (num_uninterpreted m) (num_error m)
                  ({[msgid]} ∪ mavlink_msgids_interpreted m)
                  (mavlink_msgids_uninterpreted m)
    | MAVLINK_UNINTERPRETED =>
        mkSummary bytes (num_received m) (num_interpreted m)
                  (count (num_uninterpreted m)) (num_error m)
                  (mavlink_msgids_interpreted m)
                  ({[msgid]} ∪ mavlink_msgids_uninterpreted m)
    | MAVLINK_ERROR =>
        mkSummary bytes (num_received m) (num_interpreted m)
                  (num_uninterpreted m) (count (num_error m))
                  (mavlink_msgids_interpreted m)
                  (mavlink_msgids_uninterpreted m)
    end in
  let m := mkSummary (_link_throughput_bytes m) (count (num_received m))
                     (num_interpreted m) (num_uninterpreted m) (num_error m)
                     (mavlink_msgids_interpreted m)
                     (mavlink_msgids_uninterpreted m) in
  (* only add to series if time information is available *)
  if _have_time_update s then
    let kbps := round32 (double_of_Z (_link_throughput_bytes m) / 128) in
    let s := on_unit (add_elem_float kbps (_time s)) data_throughput s in
    (mkVehicle (mavtype v) (mavtype_str v) (aptype v) (aptype_str v)
               (has_been_armed v)
               (mkSummary 0 (num_received m) (num_interpreted m)
                          (num_uninterpreted m) (num_error m)
                          (mavlink_msgids_interpreted m)
                          (mavlink_msgids_uninterpreted m)), s)
  else
    (mkVehicle (mavtype v) (mavtype_str v) (aptype v) (aptype_str v)
               (has_been_armed v) m, s)).

End Link.

(** [MavSystem::track_gps_status(uint8_t n_sat, uint8_t fix_type)] *)
Definition track_gps_status_sat (n_sat fix_type : Z) (s : MavSystem) : MavSystem :=
  MAVSYSTEM_DATA_ITEM_OR_RETURN KTimeseriesUInt "GPS/num sat" "" s
    (fun gps_sat s =>
  MAVSYSTEM_DATA_ITEM_OR_RETURN KTimeseriesUInt "GPS/fix type" "" s
    (fun gps_fix s =>
  let s := on_unit (add_elem_uint n_sat (_time s)) gps_sat s in
  if (fix_type <? 255)%Z then on_unit (add_elem_uint fix_type (_time s)) gps_fix s
  else s)).

(* ================================================================== *)
(** * Specification

    The notions in which the properties are stated, and the inputs at
    which they are evaluated. *)
(* ================================================================== *)

(** ** Systems and stores *)

(** the system at relative time 100 s *)
Definition sys_at_100s : MavSystem :=
  snd (update_rel_time 100000000 false (MavSystem_new 1)).

(** every registered address is a live object, and no object is registered
    under two paths *)
Definition store_ok (s : MavSystem) : Prop :=
  (forall path p, _data_from_path s !! path = Some p -> is_Some (heap s !! p)) /\
  (forall path1 path2 p,
      _data_from_path s !! path1 = Some p ->
      _data_from_path s !! path2 = Some p -> path1 = path2).

(** the macro finds a unit of class [k] at [path], or none at all *)
Definition resolves (k : data_kind) (path : string) (s : MavSystem) : Prop :=
  _data_from_path s !! path = None \/
  exists p d, _get_data path s = Some (p, d) /\ kind_of (content d) = k.

(** what the unit at [path] holds; a unit that does not exist yet holds
    nothing *)
Definition content_at (k : data_kind) (path : string) (s : MavSystem) : samples :=
  match _get_data path s with
  | Some (_, d) => content d
  | None => no_samples k
  end.

Definition series_at (path : string) (s : MavSystem) : list (float * float) :=
  match _get_data path s with
  | Some (_, d) => float_series d
  | None => []
  end.

Definition double_series_at (path : string) (s : MavSystem) : list (float * float) :=
  match content_at KTimeseriesDouble path s with
  | TimeseriesDouble l => l
  | _ => []
  end.

(** the unit registered at [path] is the object [p], of class [k] *)
Definition holds (k : data_kind) (path : string) (p : ptr) (s : MavSystem) : Prop :=
  exists d, _get_data path s = Some (p, d) /\ kind_of (content d) = k.

(** ** The rounded mean of the reference pairs *)

(** The words of the design document, in exact arithmetic: [z] is the
    arithmetic mean of [absolute - relative] over the pairs, rounded to a
    nearest integer (either neighbour on a tie). *)
Definition sum_of_differences (raw : list (Z * Z)) : Z :=
  fold_right (fun it acc => (it.2 - it.1) + acc) 0 raw.

Definition is_rounded_mean (raw : list (Z * Z)) (z : Z) : Prop :=
  let n := Z.of_nat (length raw) in
  2 * Z.abs (z * n - sum_of_differences raw) <= n.

(** five reference pairs taken one second apart *)
Definition five_references : MavSystem :=
  update_time_offset 4000000 1700000004000002 false
    (update_time_offset 3000000 1700000003000000 false
       (update_time_offset 2000000 1700000002000000 false
          (update_time_offset 1000000 1700000001000000 false
             (update_time_offset 0 1700000000000000 false (MavSystem_new 1))))).

(** ** Units and their time span *)

(** the units that the two queries walk over *)
Definition owns (s : MavSystem) (d : Data) : Prop :=
  exists path p, _data_from_path s !! path = Some p /\ heap s !! p = Some d.

(** samples were added to units of [s]: the same units are registered,
    each with the baseline it had and a data end that is not earlier *)
Definition samples_added (get_epoch_dataend : Data -> Z) (s s' : MavSystem)
    : Prop :=
  (forall d, owns s d ->
     exists d', owns s' d' /\
                get_epoch_datastart d' = get_epoch_datastart d /\
                get_epoch_dataend d <= get_epoch_dataend d') /\
  (forall d', owns s' d' ->
     exists d, owns s d /\
               get_epoch_datastart d' = get_epoch_datastart d).

(** a system with three power units, and a data end taken as the baseline
    plus the number of elements *)
Definition sys_with_power : MavSystem := track_sysperf 10 12 2 (MavSystem_new 1).

Definition dataend_by_size (d : Data) : Z :=
  get_epoch_datastart d + Z.of_nat (data_size d).

(** ** The merge loop *)

(** one iteration of the loop of [merge_in] *)
Definition merge_step (other : MavSystem)
    (acc : list bool * bool * MavSystem) (ito : string * ptr)
    : list bool * bool * MavSystem :=
  let '(done, added, s) := acc in
  match heap other !! ito.2 with
  | Some data =>
      let (ok, s) := _add_data data s in
      (done ++ [ok], added || ok, s)
  | None => (done ++ [false], added, s)
  end.

(** ** Flights *)

(** The words of the design document: the altitude samples for which a
    throttle value can be interpolated, each classified as flying or not;
    the take-off and landing events at the edges of that classification;
    and the figures derived from the events. *)
Definition classified
    (get_data_at_time : list (float * float) -> float -> option float)
    (alt throttle_percent : list (float * float)) : list (float * bool) :=
  omap (fun sample : float * float =>
          match get_data_at_time throttle_percent sample.1 with
          | Some throttle =>
              Some (sample.1, (1 <? sample.2)%float && (20 <? throttle)%float)
          | None => None
          end) alt.

Fixpoint edges (was_flying : bool) (l : list (float * bool))
    : list (float * string) :=
  match l with
  | [] => []
  | (t, is_flying) :: rest =>
      if is_flying && negb was_flying then (t, "takeoff"%string) :: edges true rest
      else if negb is_flying && was_flying then (t, "landing"%string) :: edges false rest
      else edges was_flying rest
  end.

Definition is_takeoff (ev : float * string) : bool := String.eqb ev.2 "takeoff".

Definition takeoffs (evs : list (float * string)) : list (float * string) :=
  List.filter is_takeoff evs.

Definition first_takeoff (dflt : float) (evs : list (float * string)) : float :=
  match takeoffs evs with
  | [] => dflt
  | ev :: _ => ev.1
  end.

(** the time of the last landing, and the time of the last take-off *)
Definition last_event (takeoff : bool) (dflt : float)
    (evs : list (float * string)) : float :=
  fold_left (fun acc ev => if Bool.eqb (is_takeoff ev) takeoff then ev.1 else acc)
            evs dflt.

(** the sum, in the order of the events, of [landing - preceding takeoff] *)
Fixpoint time_in_flight (t_takeoff : float) (acc : float)
    (evs : list (float * string)) : float :=
  match evs with
  | [] => acc
  | ev :: rest =>
      if is_takeoff ev then time_in_flight ev.1 acc rest
      else time_in_flight t_takeoff (acc + (ev.1 - t_takeoff))%float rest
  end.

(** ** Units by path and derived outputs *)

(** the unit registered at each path: the flat map followed through the
    addresses *)
Definition view (s : MavSystem) : gmap string Data :=
  omap (fun p => heap s !! p) (_data_from_path s).

(** after a pass, the unit at [path] is a derived unit with the baseline
    [epoch] that holds [c] *)
Definition derived_output (s' : MavSystem) (epoch : Z) (path : string)
    (c : samples) : Prop :=
  exists d, view s' !! path = Some d /\ content d = c /\
            get_epoch_datastart d = epoch /\ get_type d = DATA_DERIVED.

(** a derived output right after it was reset *)
Definition reset_unit (epoch : Z) (d : Data) : Data :=
  set_epoch_datastart epoch (clear (set_type DATA_DERIVED d)).

(** ** The flight scenario *)

(** the scenario of the design document: altitude and throttle at the
    seconds 0 to 5 *)
Definition scenario_altitude : list (float * float) :=
  [(0, 0); (1, 0); (2, 5); (3, 5); (4, 0); (5, 0)]%float.

Definition scenario_throttle : list (float * float) :=
  [(0, 0); (1, 0); (2, 50); (3, 50); (4, 0); (5, 0)]%float.

(** the same samples, ingested through the track calls *)
Definition ingest_flight (s : MavSystem) (sample : Z * float * float) : MavSystem :=
  let '(usec, altitude, throttle) := sample in
  let s := (update_rel_time usec false s).2 in
  let s := track_paths 48 11 altitude 500 90 s in
  track_flightperf 0 0 500 0 throttle s.

Definition scenario_flight : MavSystem :=
  fold_left ingest_flight
    [(0, 0%float, 0%float); (1000000, 0%float, 0%float);
     (2000000, 5%float, 50%float); (3000000, 5%float, 50%float);
     (4000000, 0%float, 0%float); (5000000, 0%float, 0%float)]
    (MavSystem_new 1).

(** ** Trapezoidal integration *)






(** ** The power scenario *)


(** the same samples, ingested through the track calls *)
Definition scenario_power : MavSystem :=
  let s := (update_rel_time 0 false (MavSystem_new 1)).2 in
  let s := track_sysperf 30 12 2 s in
  let s := (update_rel_time 10000000 false s).2 in
  track_sysperf 30 12 2 s.

(** ** A position log *)

(** a stand-in for the regular-expression engine on the patterns of the
    position pass: the pattern is a whole word between two [\b], and it
    matches a path whose unit name is that word *)
Definition word_match (pattern path : string) : bool :=
  String.eqb pattern ("\b" +:+ basename path +:+ "\b").

(** three position series, as an onboard log provides them *)
Definition ingest_position (s : MavSystem) (sample : float * float * float * float)
    : MavSystem :=
  let '(t, pn, pe, pd) := sample in
  MAVSYSTEM_DATA_ITEM_OR_RETURN KTimeseriesFloat "NKF1/PN" "m" s (fun data_pn s =>
  MAVSYSTEM_DATA_ITEM_OR_RETURN KTimeseriesFloat "NKF1/PE" "m" s (fun data_pe s =>
  MAVSYSTEM_DATA_ITEM_OR_RETURN KTimeseriesFloat "NKF1/PD" "m" s (fun data_pd s =>
  on_unit (add_elem_float pd t) data_pd
    (on_unit (add_elem_float pe t) data_pe
       (on_unit (add_elem_float pn t) data_pn s))))).

Definition position_log : MavSystem :=
  fold_left ingest_position
    [(0, 0, 0, -10); (1, 3, 4, -10); (2, 6, 8, -10)]%float (MavSystem_new 1).

(** ** Well-formed paths and trees *)

Fixpoint no_slash (seg : string) : bool :=
  match seg with
  | EmptyString => true
  | String c rest => negb (Ascii.eqb c slash) && no_slash rest
  end.

(** a path segment: not empty, and free of the delimiter *)
Definition seg_ok (seg : string) : Prop := no_slash seg = true /\ seg <> EmptyString.

(** the group that the walk of [hook_in] leaves at the key [g] *)
Definition hooked (g : string) (rest : grouppath) (name : string) (item : ptr)
    (gm : gmap string DataGroup) : DataGroup :=
  let curgroup := default (mkGroup g ∅ ∅) (gm !! g) in
  match rest with
  | [] => mkGroup (groupname curgroup) (groups curgroup)
                  (<[name := item]> (data curgroup))
  | _ => mkGroup (groupname curgroup)
                 (hook_in rest name item (groups curgroup)) (data curgroup)
  end.

(** no group without child groups and without units is attached *)
Definition all_nonempty (gm : gmap string DataGroup) : Prop :=
  forall path g, group_at path gm = Some g -> groupempty g = false.

(** every group is attached under its own name *)
Definition keys_named (gm : gmap string DataGroup) : Prop :=
  forall path g, group_at path gm = Some g -> last path = Some (groupname g).

(** the group that [erase_and_clean] leaves in the place of [curgroup] *)
Definition cleaned (rest : grouppath) (name : string) (curgroup : DataGroup)
    : DataGroup :=
  match rest with
  | [] => mkGroup (groupname curgroup) (groups curgroup)
                  (delete name (data curgroup))
  | _ => mkGroup (groupname curgroup)
                 (erase_and_clean rest name (groups curgroup)) (data curgroup)
  end.

Record hierarchy_ok (s : MavSystem) : Prop := mkHierarchyOk {
  tree_in_flat : forall path name p,
    unit_at path name (mav_data_groups s) = Some p ->
    _data_from_path s !! join_path (path ++ [name]) = Some p;
  flat_in_tree : forall full p,
    _data_from_path s !! full = Some p ->
    exists path name,
      full = join_path (path ++ [name]) /\
      unit_at path name (mav_data_groups s) = Some p;
  no_empty_group : all_nonempty (mav_data_groups s);
  groups_named : keys_named (mav_data_groups s);
  segments_ok : forall path name p,
    unit_at path name (mav_data_groups s) = Some p ->
    Forall seg_ok (path ++ [name]);
  unit_knows_place : forall path name p,
    unit_at path name (mav_data_groups s) = Some p ->
    exists d, heap s !! p = Some d /\ get_name d = name /\
              get_parent d = Some path
}.

(** a registration as the code performs it: a live unit that is not
    registered yet, under its own full path, which has at least one group *)
Definition registration_ok (s : MavSystem) (fullname : string) (item : ptr)
    : Prop :=
  exists d path,
    heap s !! item = Some d /\ path <> [] /\
    Forall seg_ok (path ++ [get_name d]) /\
    fullname = join_path (path ++ [get_name d]) /\
    string_trim fullname = fullname /\
    (forall full, _data_from_path s !! full <> Some item).

(** the systems that registrations and removals lead to; objects may be
    created and their methods called in between, as long as a method
    leaves the name and the parent of the unit alone *)
Inductive hierarchy_run : MavSystem -> Prop :=
| run_new sysid : hierarchy_run (MavSystem_new sysid)
| run_alloc s d : hierarchy_run s -> hierarchy_run (alloc d s).2
| run_register s fullname item :
    hierarchy_run s -> registration_ok s fullname item ->
    hierarchy_run (_data_register_hierarchy fullname item s)
| run_del s src full :
    hierarchy_run s -> _data_from_path s !! full = Some src ->
    hierarchy_run (_del_data src s)
| run_method s f p :
    hierarchy_run s ->
    (forall d, get_name (f d) = get_name d /\ get_parent (f d) = get_parent d) ->
    hierarchy_run (on_unit f p s).

(** ** Small hierarchies *)

(** a unit as [new] leaves it *)
Definition unit_named (name : string) : Data :=
  mkData name "V" DATA_RAW 0 None (TimeseriesFloat []).

(** two units are registered and the first one is removed *)
Definition one_unit_registered : MavSystem :=
  _data_register_hierarchy "power/battery_voltage" 0%nat
    (alloc (unit_named "battery_voltage") (MavSystem_new 1)).2.

Definition two_units_registered : MavSystem :=
  _data_register_hierarchy "power/battery_current" 1%nat
    (alloc (unit_named "battery_current") one_unit_registered).2.

Definition first_unit_removed : MavSystem := _del_data 0%nat two_units_registered.

(** a unit registered under a path without a group *)
Definition top_level_unit : MavSystem :=
  _data_register_hierarchy "battery_voltage" 0%nat
    (alloc (unit_named "battery_voltage") (MavSystem_new 1)).2.

(** ** Units that know their place *)

(** a unit that knows its place: its parent chain names at least one
    group, and its full path is made of proper segments and is trimmed *)
Definition placed (d : Data) : Prop :=
  exists path, get_parent d = Some path /\ path <> [] /\
               Forall seg_ok (path ++ [get_name d]) /\
               string_trim (get_fullname d) = get_fullname d.

Definition trimmed_keys (s : MavSystem) : Prop :=
  forall full p, _data_from_path s !! full = Some p -> string_trim full = full.

(** the members of a system other than its store *)
Definition members (s : MavSystem) : MavSystem := with_store ∅ ∅ ∅ s.

(** ** More small systems *)

(** a system that holds a current unit only *)
Definition current_unit_registered : MavSystem :=
  _data_register_hierarchy "power/battery_current" 0%nat
    (alloc (unit_named "battery_current") (MavSystem_new 2)).2.

(** a voltage unit with one sample, as another system holds it *)
Definition incoming_voltage : Data :=
  mkData "battery_voltage" "V" DATA_RAW 0 (Some ["power"%string])
         (TimeseriesFloat [(1, 12)]%float).

(** a second voltage unit is created and registered under the path of the
    first one *)
Definition voltage_unit_twice : MavSystem :=
  (alloc (unit_named "battery_voltage") one_unit_registered).2.

(** reference pairs of a log that starts one second after the epoch
    second 1_700_000_000 *)
Definition two_references : MavSystem :=
  update_time_offset 2000000 1700000002000000 false
    (update_time_offset 1000000 1700000001000000 false (MavSystem_new 1)).

(** ** Alternating events *)

(** the state that a log of take-off and landing events ends in, when the
    events alternate from the state [flying] on; there is none when two
    events of a kind follow each other *)
Fixpoint events_end (flying : bool) (evs : list (float * string)) : option bool :=
  match evs with
  | [] => Some flying
  | ev :: rest =>
      if flying then
        if String.eqb ev.2 "landing" then events_end false rest else None
      else
        if String.eqb ev.2 "takeoff" then events_end true rest else None
  end.

(** ** A log of another day *)

(** a current unit that another system holds with the baseline of
    another day *)
Definition incoming_current : Data :=
  mkData "battery_current" "A" DATA_RAW 1600000000000000 (Some ["power"%string])
         (TimeseriesFloat [(1, 2)]%float).

Definition other_day : MavSystem :=
  _data_register_hierarchy "power/battery_current" 0%nat
    (alloc incoming_current (MavSystem_new 2)).2.

(** the receiving system after the merge *)
Definition merged_other_day : MavSystem :=
  (merge_in interpolate (fun _ => false) (fun d => d) word_match 0%float
     (fun s => s) other_day two_references).2.

(** ** Logs of state changes *)

(** the events of the log at [path] *)
Definition events_at (path : string) (s : MavSystem) : list (float * string) :=
  match view s !! path with
  | Some d => event_series d
  | None => []
  end.

(** the samples of the unsigned series at [path] *)
Definition uint_series_at (path : string) (s : MavSystem) : list (float * Z) :=
  match view s !! path with
  | Some d => match content d with
              | TimeseriesUInt l => l
              | _ => []
              end
  | None => []
  end.

(** a state is entered into a log when the log is empty or ends with
    another state *)
Definition on_change (l : list (float * string)) (time : float) (str : string)
    : list (float * string) :=
  match last l with
  | Some ev => if String.eqb ev.2 str then l else l ++ [(time, str)]
  | None => l ++ [(time, str)]
  end.

(** no state is entered twice in a row *)
Definition no_repeat (l : list (float * string)) : Prop :=
  forall i a b, l !! i = Some a -> l !! S i = Some b -> a.2 <> b.2.

(** the link statistics add up *)
Definition counters_add_up (counter_modulus : Z) (m : mavlink_summary_t) : Prop :=
  num_received m
  = (num_interpreted m + num_uninterpreted m + num_error m) mod counter_modulus.

(** ** Merging, unit by unit *)

(** what [_add_data] makes of an incoming unit [src], given the unit
    [mine] that the receiving system holds at the path of [src]: whether
    the unit counts as added, and the unit that the path holds afterwards.
    A vacant path and an empty unit take a copy of [src]; a unit with
    samples takes the samples of [src] when it accepts them and is left as
    it is when it refuses them. *)
Definition attempt (mine : option Data) (src : Data) : bool * Data :=
  match mine with
  | Some d =>
      if is_present d then
        match data_merge_in d src with
        | Some merged => (true, merged)
        | None => (false, d)
        end
      else (true, src)
  | None => (true, src)
  end.

(** whether the unit that [other] holds at the path [k] is added to [s] *)
Definition added_at (other s : MavSystem) (k : string) : bool :=
  match view other !! k with
  | Some src => (attempt (view s !! k) src).1
  | None => false
  end.

(** a system that holds an event log under the path at which
    [two_units_registered] holds a series *)
Definition events_at_current_path : MavSystem :=
  _data_register_hierarchy "power/battery_current" 0%nat
    (alloc (mkData "battery_current" "" DATA_RAW 0 None
                   (EventString [(1%float, "low"%string)]))
           (MavSystem_new 1)).2.

(** ** Backups of the timing repair *)

(** the copy the timing repair keeps of a unit, and the path it is
    registered under *)
Definition backup_of (d : Data) : Data := set_name (get_name d +:+ "_orig") d.

Definition backup_path (d : Data) : string := get_fullname (backup_of d).

(** no backup path is taken by a registered unit, and no two units that
    are to be repaired share a backup path *)
Definition backups_free (bad : Data -> bool) (s : MavSystem) : Prop :=
  (forall k d, view s !! k = Some d -> is_timed d && bad d = true ->
               _data_from_path s !! backup_path d = None) /\
  (forall k1 d1 k2 d2,
      view s !! k1 = Some d1 -> view s !! k2 = Some d2 ->
      is_timed d1 && bad d1 = true -> is_timed d2 && bad d2 = true ->
      backup_path d1 = backup_path d2 -> k1 = k2).

(** the body of the loop of [_postprocess_bad_timing] *)
Definition repair_step (has_bad_timestamps : Data -> bool)
    (make_periodic : Data -> Data) (s : MavSystem) (it : string * ptr)
    : MavSystem :=
  match heap s !! it.2 with
  | Some ds =>
      if is_timed ds && has_bad_timestamps ds then
        let bak_name := get_name ds +:+ "_orig" in
        let (data_orig, s) := alloc (set_name bak_name ds) s in
        let fullname := get_fullname (set_name bak_name ds) in
        let s := _data_register_hierarchy fullname data_orig s in
        on_unit make_periodic it.2 s
      else s
  | None => s
  end.

(* ================================================================== *)
(** * Properties *)
(* ================================================================== *)


(** ** Facts about double comparisons *)

Lemma ltb_irrefl (x : float) : (x <? x)%float = false.
Proof.
  rewrite ltb_spec. unfold SFltb.
  destruct (Prim2SF x) as [s|s| |s m e]; simpl; try reflexivity.
  - destruct s; reflexivity.
  - destruct s; rewrite Z.compare_refl; simpl;
      rewrite Pos.compare_refl; reflexivity.
Qed.

Lemma Prim2SF_m5 : Prim2SF (-5)%float = S754_finite true 5629499534213120 (-50).
Proof. vm_compute. reflexivity. Qed.

Lemma Prim2SF_100 : Prim2SF 100%float = S754_finite false 7036874417766400 (-46).
Proof. vm_compute. reflexivity. Qed.

(** a double below -5 is not above 100 *)
Lemma below_m5_not_above_100 (d : float) :
  (d <? -5)%float = true -> (100 <? d)%float = false.
Proof.
  rewrite !ltb_spec. unfold SFltb. rewrite Prim2SF_m5, Prim2SF_100.
  destruct (Prim2SF d) as [s|s| |s m e]; cbn [SFcompare]; try discriminate;
    destruct s; try discriminate; reflexivity.
Qed.

(** ** Jump rejection *)

Section UpdateRelTime.

Variable s : MavSystem.
Variable usec : Z.
Variable allowjumps : bool.

Hypothesis Hfwd : _time_maxfwdjump_sec s = 100%float.
Hypothesis Hback : _time_maxbackjump_sec s = 5%float.

Let cand : float := (double_of_Z usec / 1e6)%float.
Let diff : float := if _time_valid s then (cand - _time s)%float else 0%float.
Let res := update_rel_time usec allowjumps s.

Lemma update_rel_time_backward :
  allowjumps = false -> (diff <? -5)%float = true ->
  res = (-1, with_time true (_time s) (_time_min s) (_time_max s)
               (_have_time_update s) s).
Proof using Hfwd Hback.
  intros -> Hd. unfold res, update_rel_time. cbn [_time_maxbackjump_sec
    _time_maxfwdjump_sec with_time _time_valid]. rewrite Hback.
  fold cand. fold diff.
  change (- (5))%float with (-5)%float. rewrite Hd. reflexivity.
Qed.

Lemma update_rel_time_forward :
  allowjumps = false -> (100 <? diff)%float = true ->
  res = (1, with_time true (_time s) (_time_min s) (_time_max s)
              (_have_time_update s) s).
Proof using Hfwd Hback.
  intros -> Hd. unfold res, update_rel_time. cbn [_time_maxbackjump_sec
    _time_maxfwdjump_sec with_time _time_valid]. rewrite Hback, Hfwd.
  fold cand. fold diff.
  change (- (5))%float with (-5)%float. unfold gtb. rewrite Hd.
  destruct (diff <? -5)%float eqn:E; [|reflexivity].
  apply below_m5_not_above_100 in E. congruence.
Qed.

Lemma update_rel_time_accept :
  allowjumps = true \/
  ((diff <? -5)%float = false /\ (100 <? diff)%float = false) ->
  res = (0, with_time true cand
              (if (cand <? _time_min s)%float then cand else _time_min s)
              (if (_time_max s <? cand)%float then cand else _time_max s)
              true s).
Proof using Hfwd Hback.
  intros H. unfold res, update_rel_time. cbn [_time_maxbackjump_sec
    _time_maxfwdjump_sec with_time _time_valid _time_min _time_max].
  rewrite Hback, Hfwd. fold cand. fold diff.
  change (- (5))%float with (-5)%float. unfold gtb.
  destruct H as [-> | [-> ->]]; rewrite ?andb_false_r; reflexivity.
Qed.

End UpdateRelTime.

Ltac minmax_case :=
  cbn;
  match goal with
  | |- context [if ?c then _ else _] =>
      let C := fresh "C" in
      destruct c eqn:C; [apply ltb_irrefl | assumption]
  end.

(** C1. With the thresholds of [_defaults] (5 s backwards, 100 s forwards),
    [update_rel_time] rejects a candidate exactly when jumps are not allowed
    and [diff = candidate/1E6 - _time] is below -5 (status -1) or above 100
    (status 1), where [diff] is 0 for the first update.  A rejection leaves
    the current, minimum and maximum time unchanged (the whole system, when
    its time was valid).  Every other call returns 0, makes the candidate
    the current time and extends the minimum and maximum to include it. *)
Theorem update_rel_time_jump_rejection
    (s : MavSystem) (usec : Z) (allowjumps : bool) :
  _time_maxfwdjump_sec s = 100%float ->
  _time_maxbackjump_sec s = 5%float ->
  let cand := (double_of_Z usec / 1e6)%float in
  let diff := if _time_valid s then (cand - _time s)%float else 0%float in
  let backward := negb allowjumps && (diff <? -5)%float in
  let forward := negb allowjumps && (100 <? diff)%float in
  let ret := fst (update_rel_time usec allowjumps s) in
  let s' := snd (update_rel_time usec allowjumps s) in
  ret = (if backward then -1 else if forward then 1 else 0) /\
  (_time_valid s = false -> backward || forward = false) /\
  (backward || forward = true ->
     _time s' = _time s /\ _time_min s' = _time_min s /\
     _time_max s' = _time_max s /\
     (_time_valid s = true -> s' = s)) /\
  (backward || forward = false ->
     _time s' = cand /\ _time_valid s' = true /\ _have_time_update s' = true /\
     _time_min s' = (if (cand <? _time_min s)%float then cand else _time_min s) /\
     _time_max s' = (if (_time_max s <? cand)%float then cand else _time_max s) /\
     (cand <? _time_min s')%float = false /\
     (_time_max s' <? cand)%float = false).
Proof.
  intros Hfwd Hback cand diff backward forward ret s'.
  subst backward forward ret s'.
  destruct allowjumps; cbn [negb andb orb].
  - (* jumps allowed *)
    rewrite (update_rel_time_accept s usec true Hfwd Hback (or_introl eq_refl)).
    cbn [fst snd]. fold cand.
    repeat split; try reflexivity; try discriminate; minmax_case.
  - fold cand. fold diff.
    destruct (diff <? -5)%float eqn:Eb; cbn [orb].
    + rewrite (update_rel_time_backward s usec false Hfwd Hback eq_refl Eb).
      cbn [fst snd].
      repeat split; try reflexivity; try discriminate.
      * intros Hv. unfold diff in Eb. rewrite Hv in Eb.
        vm_compute in Eb. discriminate.
      * intros Hv. destruct s; cbn in *. subst. reflexivity.
    + destruct (100 <? diff)%float eqn:Ef.
      * rewrite (update_rel_time_forward s usec false Hfwd Hback eq_refl Ef).
        cbn [fst snd].
        repeat split; try reflexivity; try discriminate.
        -- intros Hv. unfold diff in Ef. rewrite Hv in Ef.
           vm_compute in Ef. discriminate.
        -- intros Hv. destruct s; cbn in *. subst. reflexivity.
      * rewrite (update_rel_time_accept s usec false Hfwd Hback
                   (or_intror (conj Eb Ef))).
        cbn [fst snd]. fold cand.
        repeat split; try reflexivity; try discriminate; minmax_case.
Qed.

Lemma update_rel_time_jump_rejection_witness :
  fst (update_rel_time 50000000 false sys_at_100s) = -1 /\
  _time (snd (update_rel_time 50000000 false sys_at_100s)) = 100%float /\
  _time (snd (update_rel_time 50000000 true sys_at_100s)) = 50%float.
Proof.
  pose proof (update_rel_time_jump_rejection sys_at_100s 50000000 false
                eq_refl eq_refl) as H.
  pose proof (update_rel_time_jump_rejection sys_at_100s 50000000 true
                eq_refl eq_refl) as H'.
  cbv zeta in H, H'.
  destruct H as (H1 & _ & H2 & _). destruct H' as (_ & _ & _ & H3).
  split; [exact H1 |].
  split; [exact (proj1 (H2 eq_refl)) | exact (proj1 (H3 eq_refl))].
Defined.

(** ** The store behind the track calls *)

Lemma register_flat fullname item s :
  _data_from_path (_data_register_hierarchy fullname item s)
  = <[fullname := item]> (_data_from_path s).
Proof.
  unfold _data_register_hierarchy.
  destruct (removelast _), (heap s !! item); reflexivity.
Qed.

Lemma register_time fullname item s :
  _time (_data_register_hierarchy fullname item s) = _time s.
Proof.
  unfold _data_register_hierarchy.
  destruct (removelast _), (heap s !! item); reflexivity.
Qed.

Lemma register_heap_ne fullname item s q :
  q <> item ->
  heap (_data_register_hierarchy fullname item s) !! q = heap s !! q.
Proof.
  intros Hq. unfold _data_register_hierarchy.
  destruct (removelast _), (heap s !! item); cbn; try reflexivity.
  rewrite lookup_insert_ne; [reflexivity | congruence].
Qed.

Lemma register_heap_eq fullname item s d :
  heap s !! item = Some d ->
  exists d', heap (_data_register_hierarchy fullname item s) !! item = Some d' /\
             content d' = content d /\ get_name d' = get_name d /\
             get_epoch_datastart d' = get_epoch_datastart d /\
             get_type d' = get_type d.
Proof.
  intros Hd. unfold _data_register_hierarchy. rewrite Hd.
  destruct (removelast _); cbn.
  - exists d. auto.
  - rewrite lookup_insert_eq. eexists. split; [reflexivity |]. auto.
Qed.

Lemma alloc_fresh d s : heap s !! (alloc d s).1 = None.
Proof. cbn. apply not_elem_of_dom, is_fresh. Qed.

Lemma get_data_Some path s p d :
  _get_data path s = Some (p, d) <->
  _data_from_path s !! path = Some p /\ heap s !! p = Some d.
Proof.
  unfold _get_data. split.
  - destruct (_data_from_path s !! path) as [q|]; [|discriminate].
    destruct (heap s !! q) eqn:E; [|discriminate]. intros [= <- <-]. auto.
  - intros [-> ->]. reflexivity.
Qed.

Lemma get_data_ext path s s' :
  store_ok s ->
  _data_from_path s' !! path = _data_from_path s !! path ->
  (forall q, _data_from_path s !! path = Some q -> heap s' !! q = heap s !! q) ->
  _get_data path s' = _get_data path s.
Proof.
  intros _ Hf Hh. unfold _get_data. rewrite Hf.
  destruct (_data_from_path s !! path) as [q|] eqn:E; [|reflexivity].
  rewrite (Hh q eq_refl). reflexivity.
Qed.

(** what [MAVSYSTEM_DATA_ITEM_OR_RETURN] hands to the body *)
Lemma data_item_spec k path units s :
  store_ok s -> resolves k path s ->
  exists p s' d,
    data_item k path units s = Some (p, s') /\ store_ok s' /\
    _get_data path s' = Some (p, d) /\
    content d = content_at k path s /\ kind_of (content d) = k /\
    (forall path', path' <> path ->
       _data_from_path s' !! path' = _data_from_path s !! path' /\
       _get_data path' s' = _get_data path' s) /\
    _time s' = _time s.
Proof.
  intros [Hlive Hinj] Hres. unfold data_item.
  destruct Hres as [Hnone | (p & d & Hget & Hk)].
  - rewrite Hnone.
    set (d0 := mkData (basename path) units DATA_RAW 0 None (no_samples k)).
    pose proof (alloc_fresh d0 s) as Hfresh.
    destruct (alloc d0 s) as [p s1] eqn:Ea.
    assert (Hs1 : s1 = with_heap (<[p := d0]> (heap s)) s /\ p = fresh (dom (heap s))).
    { unfold alloc in Ea. injection Ea as <- <-. auto. }
    destruct Hs1 as [-> Hp]. cbn [fst] in Hfresh.
    destruct (register_heap_eq path p (with_heap (<[p := d0]> (heap s)) s) d0)
      as (d' & Hd' & Hc & _); [cbn; apply lookup_insert_eq |].
    exists p, (_data_register_hierarchy path p (with_heap (<[p := d0]> (heap s)) s)), d'.
    split; [reflexivity |].
    assert (Hflat : forall q, _data_from_path s !! q = Some p -> False).
    { intros q Hq. destruct (Hlive _ _ Hq) as [x Hx]. congruence. }
    split; [split |].
    + intros path' q. rewrite register_flat. cbn.
      destruct (decide (path = path')) as [<- | Hne].
      * rewrite lookup_insert_eq. intros [= <-]. eauto.
      * rewrite lookup_insert_ne by exact Hne. intros Hq.
        rewrite register_heap_ne by (intros ->; eauto).
        cbn. rewrite lookup_insert_ne by (intros ->; eauto). eauto.
    + intros p1 p2 q. rewrite register_flat. cbn. intros H1 H2.
      destruct (decide (path = p1)) as [<- | N1];
        destruct (decide (path = p2)) as [<- | N2]; try reflexivity.
      * rewrite lookup_insert_eq in H1. rewrite lookup_insert_ne in H2 by exact N2.
        injection H1 as <-. exfalso; eauto.
      * rewrite lookup_insert_eq in H2. rewrite lookup_insert_ne in H1 by exact N1.
        injection H2 as <-. exfalso; eauto.
      * rewrite lookup_insert_ne in H1 by exact N1.
        rewrite lookup_insert_ne in H2 by exact N2. eauto.
    + split; [apply get_data_Some; rewrite register_flat; cbn;
              rewrite lookup_insert_eq; auto |].
      split; [rewrite Hc; unfold content_at, _get_data; rewrite Hnone; reflexivity |].
      split; [rewrite Hc; destruct k; reflexivity |].
      split; [| rewrite register_time; reflexivity].
      intros path' Hne.
      assert (Hf' : _data_from_path
                (_data_register_hierarchy path p (with_heap (<[p:=d0]> (heap s)) s))
                !! path' = _data_from_path s !! path').
      { rewrite register_flat. cbn. apply lookup_insert_ne. congruence. }
      split; [exact Hf' |].
      apply get_data_ext; [split; assumption | exact Hf' |].
      intros q Hq. rewrite register_heap_ne by (intros ->; eauto).
      cbn. apply lookup_insert_ne. intros ->; eauto.
  - apply get_data_Some in Hget as [Hf Hh]. rewrite Hf, Hh.
    rewrite decide_True by exact Hk.
    exists p, s, d. split; [reflexivity |]. split; [split; assumption |].
    split; [apply get_data_Some; auto |].
    split; [unfold content_at, _get_data; rewrite Hf, Hh; reflexivity |].
    auto.
Qed.

(** a method call through the address of the unit at [path] *)
Lemma on_unit_spec f path p d s :
  store_ok s -> _get_data path s = Some (p, d) ->
  store_ok (on_unit f p s) /\
  _get_data path (on_unit f p s) = Some (p, f d) /\
  (forall path', path' <> path ->
     _get_data path' (on_unit f p s) = _get_data path' s) /\
  _time (on_unit f p s) = _time s.
Proof.
  intros [Hlive Hinj] Hget. apply get_data_Some in Hget as [Hf Hh].
  split; [split |].
  - intros path' q Hq. cbn in *. rewrite lookup_alter.
    case_decide; subst.
    + rewrite Hh. cbn. eauto.
    + eauto.
  - exact Hinj.
  - split; [apply get_data_Some; cbn; rewrite lookup_alter_eq, Hh; auto |].
    split; [| reflexivity].
    intros path' Hne. apply get_data_ext; [split; assumption | reflexivity |].
    intros q Hq. cbn. apply lookup_alter_ne. intros ->.
    apply Hne. eapply Hinj; eauto.
Qed.

Lemma series_at_get path s p d :
  _get_data path s = Some (p, d) -> series_at path s = float_series d.
Proof. unfold series_at. intros ->. reflexivity. Qed.

Lemma series_at_ext path s s' :
  _get_data path s' = _get_data path s -> series_at path s' = series_at path s.
Proof. unfold series_at. intros ->. reflexivity. Qed.

Lemma double_series_at_ext path s s' :
  _get_data path s' = _get_data path s ->
  double_series_at path s' = double_series_at path s.
Proof. unfold double_series_at, content_at. intros ->. reflexivity. Qed.

Lemma series_at_content path s :
  resolves KTimeseriesFloat path s ->
  content_at KTimeseriesFloat path s = TimeseriesFloat (series_at path s).
Proof.
  unfold content_at, series_at, float_series.
  intros [Hn | (p & d & Hg & Hk)].
  - unfold _get_data. rewrite Hn. reflexivity.
  - rewrite Hg. destruct (content d); try discriminate. reflexivity.
Qed.

Lemma double_series_at_content path s :
  resolves KTimeseriesDouble path s ->
  content_at KTimeseriesDouble path s = TimeseriesDouble (double_series_at path s).
Proof.
  unfold double_series_at, content_at.
  intros [Hn | (p & d & Hg & Hk)].
  - unfold _get_data. rewrite Hn. reflexivity.
  - rewrite Hg. destruct (content d); try discriminate. reflexivity.
Qed.

Lemma resolves_frame k path s s' :
  _data_from_path s' !! path = _data_from_path s !! path ->
  _get_data path s' = _get_data path s ->
  resolves k path s -> resolves k path s'.
Proof.
  intros Hf Hg [Hn | (p & d & H & Hk)].
  - left. congruence.
  - right. exists p, d. split; [congruence | exact Hk].
Qed.

(** [add_elem] through the address of a float time series *)
Lemma add_elem_float_at path p d l v t s :
  store_ok s -> _get_data path s = Some (p, d) ->
  content d = TimeseriesFloat l ->
  let s' := on_unit (add_elem_float v t) p s in
  store_ok s' /\
  (exists d', _get_data path s' = Some (p, d') /\
              content d' = TimeseriesFloat (l ++ [(t, v)])) /\
  (forall path', path' <> path -> _get_data path' s' = _get_data path' s) /\
  _time s' = _time s.
Proof.
  intros Hok Hg Hc s'.
  destruct (on_unit_spec (add_elem_float v t) path p d s Hok Hg)
    as (Hok' & Hg' & Hfr & Ht).
  split; [exact Hok' |]. split; [| auto].
  eexists. split; [exact Hg' |].
  unfold add_elem_float. rewrite Hc. reflexivity.
Qed.

(** [add_elem] through the address of a double time series *)
Lemma add_elem_double_at path p d l v t s :
  store_ok s -> _get_data path s = Some (p, d) ->
  content d = TimeseriesDouble l ->
  let s' := on_unit (add_elem_double v t) p s in
  store_ok s' /\
  (exists d', _get_data path s' = Some (p, d') /\
              content d' = TimeseriesDouble (l ++ [(t, v)])) /\
  (forall path', path' <> path -> _get_data path' s' = _get_data path' s) /\
  _time s' = _time s.
Proof.
  intros Hok Hg Hc s'.
  destruct (on_unit_spec (add_elem_double v t) path p d s Hok Hg)
    as (Hok' & Hg' & Hfr & Ht).
  split; [exact Hok' |]. split; [| auto].
  eexists. split; [exact Hg' |].
  unfold add_elem_double. rewrite Hc. reflexivity.
Qed.

Lemma series_at_is path s p d l :
  _get_data path s = Some (p, d) -> content d = TimeseriesFloat l ->
  series_at path s = l.
Proof. intros Hg Hc. rewrite (series_at_get _ _ _ _ Hg). unfold float_series. rewrite Hc. reflexivity. Qed.

Lemma double_series_at_is path s p d l :
  _get_data path s = Some (p, d) -> content d = TimeseriesDouble l ->
  double_series_at path s = l.
Proof. intros Hg Hc. unfold double_series_at, content_at. rewrite Hg, Hc. reflexivity. Qed.

Lemma item_or_return_spec k path units s body :
  store_ok s -> resolves k path s ->
  exists p s' d,
    MAVSYSTEM_DATA_ITEM_OR_RETURN k path units s body = body p s' /\
    store_ok s' /\
    _get_data path s' = Some (p, d) /\
    content d = content_at k path s /\
    (forall path', path' <> path ->
       _data_from_path s' !! path' = _data_from_path s !! path' /\
       _get_data path' s' = _get_data path' s) /\
    _time s' = _time s.
Proof.
  intros Hok Hres.
  destruct (data_item_spec k path units s Hok Hres)
    as (p & s' & d & E & Hok' & Hg & Hc & _ & Hfr & Ht).
  exists p, s', d. unfold MAVSYSTEM_DATA_ITEM_OR_RETURN. rewrite E.
  split; [reflexivity |]. split; [exact Hok' |]. split; [exact Hg |].
  split; [exact Hc |]. split; [exact Hfr | exact Ht].
Qed.

(** step over the outermost macro of a track call *)
Ltac open_item Hok Hres p s1 d E Hok1 Hg Hc Hfr Ht :=
  match goal with
  | |- context [MAVSYSTEM_DATA_ITEM_OR_RETURN ?k ?path ?u ?s ?body] =>
      destruct (item_or_return_spec k path u s body Hok Hres)
        as (p & s1 & d & E & Hok1 & Hg & Hc & Hfr & Ht);
      rewrite E; cbv beta
  end.

Ltac path_ne := try (intros Heq; discriminate Heq); try discriminate.

(** C10. [track_sysperf] always appends the load sample to
    "computer/autopilot_load"; the current is appended to
    "power/battery_current" only when [bat_A > 0] and the voltage to
    "power/battery_voltage" only when [bat_V > 0], and otherwise those two
    series are left as they were.  The hypotheses are the guard of the
    access macro: each of the three paths is free or holds a float series. *)
Theorem track_sysperf_appends (s : MavSystem) (load bat_V bat_A : float) :
  store_ok s ->
  resolves KTimeseriesFloat "computer/autopilot_load" s ->
  resolves KTimeseriesFloat "power/battery_voltage" s ->
  resolves KTimeseriesFloat "power/battery_current" s ->
  let s' := track_sysperf load bat_V bat_A s in
  series_at "computer/autopilot_load" s'
  = series_at "computer/autopilot_load" s ++ [(_time s, load)] /\
  series_at "power/battery_current" s'
  = (if (0 <? bat_A)%float
     then series_at "power/battery_current" s ++ [(_time s, bat_A)]
     else series_at "power/battery_current" s) /\
  series_at "power/battery_voltage" s'
  = (if (0 <? bat_V)%float
     then series_at "power/battery_voltage" s ++ [(_time s, bat_V)]
     else series_at "power/battery_voltage" s).
Proof.
  intros Hok Hload Hvolt Hamps s'. subst s'. unfold track_sysperf.
  pose proof (series_at_content _ _ Hload) as Cl.
  pose proof (series_at_content _ _ Hvolt) as Cv.
  pose proof (series_at_content _ _ Hamps) as Ca.
  open_item Hok Hload pl s1 dl E1 Hok1 Hg1 Hc1 Hfr1 Ht1.
  assert (Hvolt1 : resolves KTimeseriesFloat "power/battery_voltage" s1).
  { destruct (Hfr1 "power/battery_voltage"%string) as [? ?]; [path_ne |].
    eapply resolves_frame; eauto. }
  assert (Hamps1 : resolves KTimeseriesFloat "power/battery_current" s1).
  { destruct (Hfr1 "power/battery_current"%string) as [? ?]; [path_ne |].
    eapply resolves_frame; eauto. }
  open_item Hok1 Hvolt1 pv s2 dv E2 Hok2 Hg2 Hc2 Hfr2 Ht2.
  assert (Hamps2 : resolves KTimeseriesFloat "power/battery_current" s2).
  { destruct (Hfr2 "power/battery_current"%string) as [? ?]; [path_ne |].
    eapply resolves_frame; eauto. }
  open_item Hok2 Hamps2 pa s3 da E3 Hok3 Hg3 Hc3 Hfr3 Ht3.
  (* the three units in the system that the body starts from *)
  assert (Gl : _get_data "computer/autopilot_load" s3 = Some (pl, dl)).
  { rewrite (proj2 (Hfr3 "computer/autopilot_load"%string ltac:(path_ne))),
            (proj2 (Hfr2 "computer/autopilot_load"%string ltac:(path_ne))).
    exact Hg1. }
  assert (Gv : _get_data "power/battery_voltage" s3 = Some (pv, dv)).
  { rewrite (proj2 (Hfr3 "power/battery_voltage"%string ltac:(path_ne))).
    exact Hg2. }
  assert (Kl : content dl = TimeseriesFloat (series_at "computer/autopilot_load" s)).
  { rewrite Hc1. exact Cl. }
  assert (Kv : content dv = TimeseriesFloat (series_at "power/battery_voltage" s)).
  { rewrite Hc2. unfold content_at.
    rewrite (proj2 (Hfr1 "power/battery_voltage"%string ltac:(path_ne))). exact Cv. }
  assert (Ka : content da = TimeseriesFloat (series_at "power/battery_current" s)).
  { rewrite Hc3. unfold content_at.
    rewrite (proj2 (Hfr2 "power/battery_current"%string ltac:(path_ne))),
            (proj2 (Hfr1 "power/battery_current"%string ltac:(path_ne))). exact Ca. }
  assert (T3 : _time s3 = _time s) by congruence.
  rewrite T3. clear E1 E2 E3.
  (* the load *)
  destruct (add_elem_float_at _ pl dl _ load (_time s) s3 Hok3 Gl Kl)
    as (Hok4 & (dl' & Gl' & Kl') & Fr4 & T4).
  set (s4 := on_unit (add_elem_float load (_time s)) pl s3) in *.
  assert (Ga4 : _get_data "power/battery_current" s4 = Some (pa, da)).
  { rewrite Fr4 by path_ne. exact Hg3. }
  assert (Gv4 : _get_data "power/battery_voltage" s4 = Some (pv, dv)).
  { rewrite Fr4 by path_ne. exact Gv. }
  rewrite T4, ?T3. unfold gtb.
  (* the current *)
  destruct (add_elem_float_at _ pa da _ bat_A (_time s) s4 Hok4 Ga4 Ka)
    as (Hok5 & (da' & Ga' & Ka') & Fr5 & T5).
  destruct (0 <? bat_A)%float; cbv iota.
  - set (s5 := on_unit (add_elem_float bat_A (_time s)) pa s4) in *.
    rewrite T5, ?T4, ?T3.
    assert (Gv5 : _get_data "power/battery_voltage" s5 = Some (pv, dv)).
    { rewrite Fr5 by path_ne. exact Gv4. }
    assert (Gl5 : _get_data "computer/autopilot_load" s5 = Some (pl, dl')).
    { rewrite Fr5 by path_ne. exact Gl'. }
    destruct (add_elem_float_at _ pv dv _ bat_V (_time s) s5 Hok5 Gv5 Kv)
      as (Hok6 & (dv' & Gv' & Kv') & Fr6 & T6).
    destruct (0 <? bat_V)%float; cbv iota.
    + split; [| split].
      * erewrite series_at_is; [reflexivity | rewrite Fr6 by path_ne; exact Gl5 | exact Kl'].
      * erewrite series_at_is; [reflexivity | rewrite Fr6 by path_ne; exact Ga' | exact Ka'].
      * erewrite series_at_is; [reflexivity | exact Gv' | exact Kv'].
    + split; [| split].
      * erewrite series_at_is; [reflexivity | exact Gl5 | exact Kl'].
      * erewrite series_at_is; [reflexivity | exact Ga' | exact Ka'].
      * erewrite series_at_is; [reflexivity | exact Gv5 | exact Kv].
  - rewrite ?T4, ?T3.
    destruct (add_elem_float_at _ pv dv _ bat_V (_time s) s4 Hok4 Gv4 Kv)
      as (Hok6 & (dv' & Gv' & Kv') & Fr6 & T6).
    destruct (0 <? bat_V)%float; cbv iota.
    + split; [| split].
      * erewrite series_at_is; [reflexivity | rewrite Fr6 by path_ne; exact Gl' | exact Kl'].
      * erewrite series_at_is; [reflexivity | rewrite Fr6 by path_ne; exact Ga4 | exact Ka].
      * erewrite series_at_is; [reflexivity | exact Gv' | exact Kv'].
    + split; [| split].
      * erewrite series_at_is; [reflexivity | exact Gl' | exact Kl'].
      * erewrite series_at_is; [reflexivity | exact Ga4 | exact Ka].
      * erewrite series_at_is; [reflexivity | exact Gv4 | exact Kv].
Qed.

Lemma store_ok_new sysid : store_ok (MavSystem_new sysid).
Proof.
  split; cbn; intros *; rewrite lookup_empty; discriminate.
Qed.

Lemma resolves_new k path sysid : resolves k path (MavSystem_new sysid).
Proof. left. apply lookup_empty. Qed.

Lemma track_sysperf_appends_witness :
  let s0 := MavSystem_new 1 in
  series_at "computer/autopilot_load" (track_sysperf 10 12 0 s0)
  = series_at "computer/autopilot_load" s0 ++ [(_time s0, 10%float)] /\
  series_at "power/battery_current" (track_sysperf 10 12 0 s0)
  = series_at "power/battery_current" s0.
Proof.
  intros s0.
  destruct (track_sysperf_appends s0 10 12 0 (store_ok_new 1)
              (resolves_new _ _ 1) (resolves_new _ _ 1) (resolves_new _ _ 1))
    as (H1 & H2 & _).
  split; [exact H1 | exact H2].
Defined.

(** ** Heading samples *)

Lemma item_or_return_frame k path units s body :
  store_ok s -> resolves k path s ->
  exists p s',
    MAVSYSTEM_DATA_ITEM_OR_RETURN k path units s body = body p s' /\
    store_ok s' /\ holds k path p s' /\
    (forall path', series_at path' s' = series_at path' s) /\
    (forall path', double_series_at path' s' = double_series_at path' s) /\
    (forall k' path' p', path' <> path -> holds k' path' p' s -> holds k' path' p' s') /\
    (forall k' path', path' <> path -> resolves k' path' s -> resolves k' path' s') /\
    _time s' = _time s.
Proof.
  intros Hok Hres.
  destruct (data_item_spec k path units s Hok Hres)
    as (p & s' & d & E & Hok' & Hg & Hc & Hk & Hfr & Ht).
  exists p, s'. unfold MAVSYSTEM_DATA_ITEM_OR_RETURN. rewrite E.
  split; [reflexivity |]. split; [exact Hok' |].
  split; [exists d; auto |].
  split; [| split; [| split; [| split; [| exact Ht]]]].
  - intros path'. destruct (decide (path' = path)) as [-> | Hne].
    + rewrite (series_at_get _ _ _ _ Hg). unfold float_series. rewrite Hc.
      unfold series_at, content_at, float_series.
      destruct (_get_data path s) as [[? ?]|]; [reflexivity |].
      destruct k; reflexivity.
    + apply series_at_ext, Hfr, Hne.
  - intros path'. destruct (decide (path' = path)) as [-> | Hne].
    + unfold double_series_at at 1. unfold content_at at 1. rewrite Hg, Hc.
      unfold double_series_at, content_at.
      destruct (_get_data path s) as [[? ?]|]; [reflexivity |].
      destruct k; reflexivity.
    + apply double_series_at_ext, Hfr, Hne.
  - intros k' path' p' Hne (d' & Hg' & Hk'). exists d'.
    rewrite (proj2 (Hfr path' Hne)). auto.
  - intros k' path' Hne Hr. destruct (Hfr path' Hne) as [Hf Hgd].
    eapply resolves_frame; eauto.
Qed.

Section OnUnit.

Variable f : Data -> Data.
Hypothesis f_kind : forall d, kind_of (content (f d)) = kind_of (content d).

Lemma store_ok_on_unit p s : store_ok s -> store_ok (on_unit f p s).
Proof.
  intros [Hlive Hinj]. split; [| exact Hinj].
  intros path q Hq. cbn in *. rewrite lookup_alter.
  destruct (Hlive _ _ Hq) as [x Hx]. case_decide; subst; rewrite Hx; cbn; eauto.
Qed.

Lemma holds_on_unit k path p q s :
  holds k path p s -> holds k path p (on_unit f q s).
Proof using f_kind.
  intros (d & Hg & Hk). apply get_data_Some in Hg as [Hf Hh].
  destruct (decide (p = q)) as [<- | Hne].
  - exists (f d). split; [| rewrite f_kind; exact Hk].
    apply get_data_Some. cbn. rewrite lookup_alter_eq, Hh. auto.
  - exists d. split; [| exact Hk].
    apply get_data_Some. cbn. rewrite lookup_alter_ne by congruence. auto.
Qed.

Lemma get_data_on_unit_ne k path p path' s :
  store_ok s -> holds k path p s -> path' <> path ->
  _get_data path' (on_unit f p s) = _get_data path' s.
Proof.
  intros Hok (d & Hg & _) Hne.
  destruct (on_unit_spec f path p d s Hok Hg) as (_ & _ & Hfr & _).
  apply Hfr, Hne.
Qed.

End OnUnit.

Lemma add_elem_float_kind v t d :
  kind_of (content (add_elem_float v t d)) = kind_of (content d).
Proof. unfold add_elem_float. destruct (content d) eqn:E; cbn; rewrite ?E; reflexivity. Qed.

Lemma add_elem_double_kind v t d :
  kind_of (content (add_elem_double v t d)) = kind_of (content d).
Proof. unfold add_elem_double. destruct (content d) eqn:E; cbn; rewrite ?E; reflexivity. Qed.

Lemma series_at_add_float path p v t s path' :
  store_ok s -> holds KTimeseriesFloat path p s ->
  series_at path' (on_unit (add_elem_float v t) p s)
  = if decide (path' = path) then series_at path s ++ [(t, v)]
    else series_at path' s.
Proof.
  intros Hok Hh. case_decide as Hp.
  - subst path'. destruct Hh as (d & Hg & Hk).
    destruct (on_unit_spec (add_elem_float v t) path p d s Hok Hg) as (_ & Hg' & _).
    rewrite (series_at_get _ _ _ _ Hg'), (series_at_get _ _ _ _ Hg).
    unfold add_elem_float, float_series.
    destruct (content d); try discriminate. reflexivity.
  - apply series_at_ext. eapply get_data_on_unit_ne; eauto.
Qed.

Lemma double_series_at_add_float path p v t s path' :
  store_ok s -> holds KTimeseriesFloat path p s ->
  double_series_at path' (on_unit (add_elem_float v t) p s)
  = double_series_at path' s.
Proof.
  intros Hok Hh. destruct (decide (path' = path)) as [-> | Hp].
  - destruct Hh as (d & Hg & Hk).
    destruct (on_unit_spec (add_elem_float v t) path p d s Hok Hg) as (_ & Hg' & _).
    unfold double_series_at, content_at. rewrite Hg', Hg.
    unfold add_elem_float. destruct (content d); try discriminate. reflexivity.
  - apply double_series_at_ext. eapply get_data_on_unit_ne; eauto.
Qed.

Lemma double_series_at_add_double path p v t s path' :
  store_ok s -> holds KTimeseriesDouble path p s ->
  double_series_at path' (on_unit (add_elem_double v t) p s)
  = if decide (path' = path) then double_series_at path s ++ [(t, v)]
    else double_series_at path' s.
Proof.
  intros Hok Hh. case_decide as Hp.
  - subst path'. destruct Hh as (d & Hg & Hk).
    destruct (on_unit_spec (add_elem_double v t) path p d s Hok Hg) as (_ & Hg' & _).
    unfold double_series_at, content_at. rewrite Hg', Hg.
    unfold add_elem_double. destruct (content d); try discriminate. reflexivity.
  - apply double_series_at_ext. eapply get_data_on_unit_ne; eauto.
Qed.

Lemma series_at_add_double path p v t s path' :
  store_ok s -> holds KTimeseriesDouble path p s ->
  series_at path' (on_unit (add_elem_double v t) p s) = series_at path' s.
Proof.
  intros Hok Hh. destruct (decide (path' = path)) as [-> | Hp].
  - destruct Hh as (d & Hg & Hk).
    destruct (on_unit_spec (add_elem_double v t) path p d s Hok Hg) as (_ & Hg' & _).
    rewrite (series_at_get _ _ _ _ Hg'), (series_at_get _ _ _ _ Hg).
    unfold add_elem_double, float_series.
    destruct (content d); try discriminate. reflexivity.
  - apply series_at_ext. eapply get_data_on_unit_ne; eauto.
Qed.

Lemma time_on_unit f p s : _time (on_unit f p s) = _time s.
Proof. reflexivity. Qed.

Ltac open_item_frame Hok Hres p s1 Hok1 Hh Hser Hdser Hhold Hres1 Ht :=
  match goal with
  | |- context [MAVSYSTEM_DATA_ITEM_OR_RETURN ?k ?path ?u ?s ?body] =>
      let E := fresh "E" in
      destruct (item_or_return_frame k path u s body Hok Hres)
        as (p & s1 & E & Hok1 & Hh & Hser & Hdser & Hhold & Hres1 & Ht);
      rewrite E; cbv beta; clear E
  end.

Ltac store_side :=
  repeat first
    [ assumption
    | apply store_ok_on_unit
    | apply holds_on_unit;
      [ first [ apply add_elem_float_kind | apply add_elem_double_kind ] | ] ].

(** C8 (as the code has it).  [track_paths] always appends the latitude,
    longitude and the two altitudes; the heading is appended exactly when
    [heading_deg <= 360] holds, so a heading above 360 (or a NaN) is
    dropped while a negative heading is stored.  The hypotheses are the
    guard of the access macro on the five paths. *)
Theorem track_paths_heading
    (s : MavSystem) (lat lon alt_rel_m alt_msl_m heading_deg : float) :
  store_ok s ->
  resolves KTimeseriesDouble "airstate/lat" s ->
  resolves KTimeseriesDouble "airstate/lon" s ->
  resolves KTimeseriesFloat "airstate/alt GND" s ->
  resolves KTimeseriesFloat "airstate/alt MSL" s ->
  resolves KTimeseriesFloat "airstate/heading" s ->
  let s' := track_paths lat lon alt_rel_m alt_msl_m heading_deg s in
  double_series_at "airstate/lat" s'
  = double_series_at "airstate/lat" s ++ [(_time s, lat)] /\
  double_series_at "airstate/lon" s'
  = double_series_at "airstate/lon" s ++ [(_time s, lon)] /\
  series_at "airstate/alt GND" s'
  = series_at "airstate/alt GND" s ++ [(_time s, alt_rel_m)] /\
  series_at "airstate/alt MSL" s'
  = series_at "airstate/alt MSL" s ++ [(_time s, alt_msl_m)] /\
  series_at "airstate/heading" s'
  = (if (heading_deg <=? 360)%float
     then series_at "airstate/heading" s ++ [(_time s, heading_deg)]
     else series_at "airstate/heading" s).
Proof.
  intros Hok Rlat Rlon Rgnd Rmsl Rhdg s'. subst s'.
  cbv beta delta [track_paths].
  open_item_frame Hok Rlat p1 s1 Hok1 Hh1 Hs1 Hd1 Hhold1 Hres1 Ht1.
  assert (Rlon1 := Hres1 _ "airstate/lon"%string ltac:(path_ne) Rlon).
  assert (Rgnd1 := Hres1 _ "airstate/alt GND"%string ltac:(path_ne) Rgnd).
  assert (Rmsl1 := Hres1 _ "airstate/alt MSL"%string ltac:(path_ne) Rmsl).
  assert (Rhdg1 := Hres1 _ "airstate/heading"%string ltac:(path_ne) Rhdg).
  open_item_frame Hok1 Rlon1 p2 s2 Hok2 Hh2 Hs2 Hd2 Hhold2 Hres2 Ht2.
  assert (Rgnd2 := Hres2 _ "airstate/alt GND"%string ltac:(path_ne) Rgnd1).
  assert (Rmsl2 := Hres2 _ "airstate/alt MSL"%string ltac:(path_ne) Rmsl1).
  assert (Rhdg2 := Hres2 _ "airstate/heading"%string ltac:(path_ne) Rhdg1).
  open_item_frame Hok2 Rgnd2 p3 s3 Hok3 Hh3 Hs3 Hd3 Hhold3 Hres3 Ht3.
  assert (Rmsl3 := Hres3 _ "airstate/alt MSL"%string ltac:(path_ne) Rmsl2).
  assert (Rhdg3 := Hres3 _ "airstate/heading"%string ltac:(path_ne) Rhdg2).
  open_item_frame Hok3 Rmsl3 p4 s4 Hok4 Hh4 Hs4 Hd4 Hhold4 Hres4 Ht4.
  assert (Rhdg4 := Hres4 _ "airstate/heading"%string ltac:(path_ne) Rhdg3).
  open_item_frame Hok4 Rhdg4 p5 s5 Hok5 Hh5 Hs5 Hd5 Hhold5 Hres5 Ht5.
  (* the five units in the system that the body starts from *)
  assert (H1 : holds KTimeseriesDouble "airstate/lat" p1 s5).
  { apply Hhold5; [path_ne |]. apply Hhold4; [path_ne |].
    apply Hhold3; [path_ne |]. apply Hhold2; [path_ne |]. exact Hh1. }
  assert (H2 : holds KTimeseriesDouble "airstate/lon" p2 s5).
  { apply Hhold5; [path_ne |]. apply Hhold4; [path_ne |].
    apply Hhold3; [path_ne |]. exact Hh2. }
  assert (H3 : holds KTimeseriesFloat "airstate/alt GND" p3 s5).
  { apply Hhold5; [path_ne |]. apply Hhold4; [path_ne |]. exact Hh3. }
  assert (H4 : holds KTimeseriesFloat "airstate/alt MSL" p4 s5).
  { apply Hhold5; [path_ne |]. exact Hh4. }
  assert (T : _time s5 = _time s) by congruence.
  assert (S5 : forall path, series_at path s5 = series_at path s).
  { intros path. rewrite Hs5, Hs4, Hs3, Hs2, Hs1. reflexivity. }
  assert (D5 : forall path, double_series_at path s5 = double_series_at path s).
  { intros path. rewrite Hd5, Hd4, Hd3, Hd2, Hd1. reflexivity. }
  clear Hhold1 Hhold2 Hhold3 Hhold4 Hhold5 Hres1 Hres2 Hres3 Hres4 Hres5.
  cbv zeta. rewrite !time_on_unit, T.
  destruct (heading_deg <=? 360)%float.
  - rewrite !(double_series_at_add_float "airstate/heading" p5) by store_side.
    rewrite !(series_at_add_float "airstate/heading" p5) by store_side.
    rewrite !(double_series_at_add_float "airstate/alt MSL" p4) by store_side.
    rewrite !(series_at_add_float "airstate/alt MSL" p4) by store_side.
    rewrite !(double_series_at_add_float "airstate/alt GND" p3) by store_side.
    rewrite !(series_at_add_float "airstate/alt GND" p3) by store_side.
    rewrite !(double_series_at_add_double "airstate/lon" p2) by store_side.
    rewrite !(series_at_add_double "airstate/lon" p2) by store_side.
    rewrite !(double_series_at_add_double "airstate/lat" p1) by store_side.
    rewrite !(series_at_add_double "airstate/lat" p1) by store_side.
    rewrite !S5, !D5. repeat split; reflexivity.
  - rewrite !(double_series_at_add_float "airstate/alt MSL" p4) by store_side.
    rewrite !(series_at_add_float "airstate/alt MSL" p4) by store_side.
    rewrite !(double_series_at_add_float "airstate/alt GND" p3) by store_side.
    rewrite !(series_at_add_float "airstate/alt GND" p3) by store_side.
    rewrite !(double_series_at_add_double "airstate/lon" p2) by store_side.
    rewrite !(series_at_add_double "airstate/lon" p2) by store_side.
    rewrite !(double_series_at_add_double "airstate/lat" p1) by store_side.
    rewrite !(series_at_add_double "airstate/lat" p1) by store_side.
    rewrite !S5, !D5. repeat split; reflexivity.
Qed.

Lemma track_paths_heading_witness :
  let s0 := MavSystem_new 1 in
  series_at "airstate/alt GND" (track_paths 48 11 30 500 400 s0)
  = series_at "airstate/alt GND" s0 ++ [(_time s0, 30%float)] /\
  series_at "airstate/heading" (track_paths 48 11 30 500 400 s0)
  = series_at "airstate/heading" s0.
Proof.
  intros s0.
  destruct (track_paths_heading s0 48 11 30 500 400 (store_ok_new 1)
              (resolves_new _ _ 1) (resolves_new _ _ 1) (resolves_new _ _ 1)
              (resolves_new _ _ 1) (resolves_new _ _ 1))
    as (_ & _ & H3 & _ & H5).
  split; [exact H3 | exact H5].
Defined.

(** C8 as stated fails: a heading below 0 lies outside of [0, 360] and is
    appended all the same. *)
Lemma track_paths_negative_heading_kept :
  ~ (forall (s : MavSystem) (lat lon alt_rel_m alt_msl_m heading_deg : float),
        ((heading_deg <? 0) || (360 <? heading_deg))%float = true ->
        series_at "airstate/heading"
          (track_paths lat lon alt_rel_m alt_msl_m heading_deg s)
        = series_at "airstate/heading" s).
Proof.
  intros H.
  specialize (H (MavSystem_new 1) 48 11 30 500 (-1) eq_refl)%float.
  vm_compute in H. discriminate H.
Qed.

(** ** Absolute time offset *)

Lemma in_key_order_spec (m : gmap string ptr) path p :
  (path, p) ∈ in_key_order m <-> m !! path = Some p.
Proof.
  unfold in_key_order. rewrite merge_sort_Permutation.
  apply elem_of_map_to_list.
Qed.

Lemma store_fields_on_unit f p s :
  _data_from_path (on_unit f p s) = _data_from_path s /\
  mav_data_groups (on_unit f p s) = mav_data_groups s /\
  _time_offset_usec (on_unit f p s) = _time_offset_usec s /\
  _time_offset_guess_usec (on_unit f p s) = _time_offset_guess_usec s /\
  _time_offset_raw (on_unit f p s) = _time_offset_raw s.
Proof. repeat split. Qed.

(** a method applied through every address of a walk *)
Lemma on_units_fold (f : Data -> Data) (l : list (string * ptr)) s :
  let s' := fold_left (fun s it => on_unit f it.2 s) l s in
  _data_from_path s' = _data_from_path s /\
  mav_data_groups s' = mav_data_groups s /\
  _time_offset_usec s' = _time_offset_usec s /\
  _time_offset_guess_usec s' = _time_offset_guess_usec s /\
  _time_offset_raw s' = _time_offset_raw s /\
  dom (heap s') = dom (heap s).
Proof.
  revert s. induction l as [| it l IH]; intros s; cbn.
  - repeat split.
  - destruct (IH (on_unit f it.2 s)) as (H1 & H2 & H3 & H4 & H5 & H6).
    cbn in *. rewrite H1, H2, H3, H4, H5, H6.
    repeat split. apply dom_alter_L.
Qed.

Lemma set_epoch_fold (off : Z) (l : list (string * ptr)) s p d :
  heap s !! p = Some d ->
  exists d',
    heap (fold_left (fun s it => on_unit (set_epoch_datastart off) it.2 s) l s) !! p
    = Some d' /\
    content d' = content d /\ get_name d' = get_name d /\
    get_parent d' = get_parent d /\ get_type d' = get_type d /\
    (p ∈ l.*2 \/ get_epoch_datastart d = off -> get_epoch_datastart d' = off).
Proof.
  revert s d. induction l as [| it l IH]; intros s d Hd; cbn [fold_left].
  - exists d. repeat split; try assumption.
    intros [Hin | He]; [| exact He]. cbn in Hin. inversion Hin.
  - destruct (decide (it.2 = p)) as [Heq | Hne].
    + destruct (IH (on_unit (set_epoch_datastart off) it.2 s)
                   (set_epoch_datastart off d))
        as (d' & H1 & H2 & H3 & H4 & H5 & H6).
      { cbn. rewrite Heq, lookup_alter_eq, Hd. reflexivity. }
      exists d'. repeat split; try assumption.
      intros _. apply H6. right. reflexivity.
    + destruct (IH (on_unit (set_epoch_datastart off) it.2 s) d)
        as (d' & H1 & H2 & H3 & H4 & H5 & H6).
      { cbn. rewrite lookup_alter_ne by exact Hne. exact Hd. }
      exists d'. repeat split; try assumption.
      intros [Hin | He]; apply H6; [left | right; exact He].
      cbn in Hin. apply elem_of_cons in Hin as [Hin | Hin]; [congruence | exact Hin].
Qed.

(** C2 (as the code has it).  [determine_absolute_time] sets the offset to
    [mean_offset_usec] of the reference pairs when there is at least one:
    the differences [absolute - relative] are taken on [uint64_t], summed
    and divided by the count in double precision, and rounded by [round].
    For the pairs (0, 1000) and (10_000_000, 1_011_000_000) this is
    500_500_500, the rounded mean of 1000 and 1_001_000_000.  Without pairs
    the offset is the recorded guess.  In both cases the offset becomes
    the [epoch_datastart] of every unit of the flat map, and nothing else
    of a unit changes. *)
Theorem determine_absolute_time_offset (s : MavSystem) :
  let s' := determine_absolute_time s in
  _time_offset_usec s'
  = (if bool_decide (_time_offset_raw s = [])
     then _time_offset_guess_usec s
     else mean_offset_usec (_time_offset_raw s)) /\
  mean_offset_usec [(0, 1000); (10000000, 1011000000)] = 500500500 /\
  is_rounded_mean [(0, 1000); (10000000, 1011000000)] 500500500 /\
  _data_from_path s' = _data_from_path s /\
  (forall path p d,
      _data_from_path s !! path = Some p -> heap s !! p = Some d ->
      exists d',
        heap s' !! p = Some d' /\
        get_epoch_datastart d' = _time_offset_usec s' /\
        content d' = content d /\ get_name d' = get_name d).
Proof.
  intros s'. subst s'. unfold determine_absolute_time.
  set (offset := match _time_offset_raw s with
                 | [] => _time_offset_guess_usec s
                 | _ => mean_offset_usec (_time_offset_raw s)
                 end).
  set (s1 := with_offsets offset _ _ s).
  destruct (on_units_fold (set_epoch_datastart offset)
              (in_key_order (_data_from_path s1)) s1)
    as (Hflat & _ & Hoff & _ & _ & _).
  cbv zeta in Hflat, Hoff.
  split; [| split; [| split; [| split]]].
  - rewrite Hoff. cbn. subst offset.
    destruct (_time_offset_raw s); reflexivity.
  - vm_compute. reflexivity.
  - unfold is_rounded_mean. cbn. lia.
  - rewrite Hflat. reflexivity.
  - intros path p d Hp Hd.
    destruct (set_epoch_fold offset (in_key_order (_data_from_path s1)) s1 p d Hd)
      as (d' & H1 & H2 & H3 & _ & _ & H6).
    exists d'. split; [exact H1 |]. split; [| auto].
    rewrite Hoff. cbn. apply H6. left.
    apply list_elem_of_fmap. exists (path, p). split; [reflexivity |].
    apply in_key_order_spec. exact Hp.
Qed.

(** C2 as stated fails: the five differences are 1_700_000_000_000_000
    four times and 1_700_000_000_000_002 once; their mean ends in .4, its
    nearest double ends in .5, and [round] takes that to
    1_700_000_000_000_001. *)
Lemma determine_absolute_time_not_rounded_mean :
  ~ (forall s : MavSystem,
        _time_offset_raw s <> [] ->
        is_rounded_mean (_time_offset_raw s)
                        (_time_offset_usec (determine_absolute_time s))).
Proof.
  intros H. specialize (H five_references).
  assert (Hraw : _time_offset_raw five_references
                 = [(0, 1700000000000000); (1000000, 1700000001000000);
                    (2000000, 1700000002000000); (3000000, 1700000003000000);
                    (4000000, 1700000004000002)]) by (vm_compute; reflexivity).
  assert (Hoff : _time_offset_usec (determine_absolute_time five_references)
                 = 1700000000000001) by (vm_compute; reflexivity).
  rewrite Hoff, Hraw in H. unfold is_rounded_mean in H. cbn in H.
  specialize (H ltac:(discriminate)). lia.
Qed.

(** ** Active time span *)

Section ActiveTimeFacts.

Variable get_epoch_dataend : Data -> Z.

Local Abbreviation active_end := (get_time_active_end_usec get_epoch_dataend).
Local Abbreviation active_begin := get_time_active_begin_usec.

Lemma fold_tmax (h : gmap ptr Data) (l : list (string * ptr)) (init : Z) :
  let step := fun (tmax : Z) (it : string * ptr) =>
    match h !! it.2 with
    | Some d => if (tmax <? get_epoch_dataend d)%Z then get_epoch_dataend d else tmax
    | None => tmax
    end in
  let r := fold_left step l init in
  init <= r /\
  (forall it d, it ∈ l -> h !! it.2 = Some d -> get_epoch_dataend d <= r) /\
  (r = init \/ exists it d, it ∈ l /\ h !! it.2 = Some d /\ r = get_epoch_dataend d).
Proof.
  intros step. revert init. induction l as [| it l IH]; intros init; cbn.
  - split; [lia |]. split; [| left; reflexivity].
    intros it d Hin. inversion Hin.
  - destruct (IH (step init it)) as (H1 & H2 & H3).
    assert (Hstep : init <= step init it).
    { unfold step. destruct (h !! it.2); [| lia].
      destruct (Z.ltb_spec init (get_epoch_dataend d)); lia. }
    split; [lia |]. split.
    + intros it' d Hin Hd. apply elem_of_cons in Hin as [-> | Hin].
      * etransitivity; [| exact H1]. unfold step. rewrite Hd.
        destruct (Z.ltb_spec init (get_epoch_dataend d)); lia.
      * eapply H2; eauto.
    + destruct H3 as [H3 | (it' & d & Hin & Hd & Hr)].
      * rewrite H3. unfold step.
        destruct (h !! it.2) as [d|] eqn:Hd; [| left; reflexivity].
        destruct (Z.ltb_spec init (get_epoch_dataend d)); [| left; reflexivity].
        right. exists it, d. split; [left | auto].
      * right. exists it', d. split; [right; exact Hin | auto].
Qed.

Lemma fold_tmin (h : gmap ptr Data) (l : list (string * ptr)) (init : Z) :
  let step := fun (tmin : Z) (it : string * ptr) =>
    match h !! it.2 with
    | Some d => if (get_epoch_datastart d <? tmin)%Z then get_epoch_datastart d else tmin
    | None => tmin
    end in
  let r := fold_left step l init in
  r <= init /\
  (forall it d, it ∈ l -> h !! it.2 = Some d -> r <= get_epoch_datastart d) /\
  (r = init \/ exists it d, it ∈ l /\ h !! it.2 = Some d /\ r = get_epoch_datastart d).
Proof.
  intros step. revert init. induction l as [| it l IH]; intros init; cbn.
  - split; [lia |]. split; [| left; reflexivity].
    intros it d Hin. inversion Hin.
  - destruct (IH (step init it)) as (H1 & H2 & H3).
    assert (Hstep : step init it <= init).
    { unfold step. destruct (h !! it.2); [| lia].
      destruct (Z.ltb_spec (get_epoch_datastart d) init); lia. }
    split; [lia |]. split.
    + intros it' d Hin Hd. apply elem_of_cons in Hin as [-> | Hin].
      * etransitivity; [exact H1 |]. unfold step. rewrite Hd.
        destruct (Z.ltb_spec (get_epoch_datastart d) init); lia.
      * eapply H2; eauto.
    + destruct H3 as [H3 | (it' & d & Hin & Hd & Hr)].
      * rewrite H3. unfold step.
        destruct (h !! it.2) as [d|] eqn:Hd; [| left; reflexivity].
        destruct (Z.ltb_spec (get_epoch_datastart d) init); [| left; reflexivity].
        right. exists it, d. split; [left | auto].
      * right. exists it', d. split; [right; exact Hin | auto].
Qed.

Lemma owns_walk s it d :
  it ∈ in_key_order (_data_from_path s) -> heap s !! it.2 = Some d -> owns s d.
Proof.
  destruct it as [path p]. intros Hin Hd. exists path, p.
  split; [apply in_key_order_spec; exact Hin | exact Hd].
Qed.

Lemma active_end_spec s :
  0 <= active_end s /\
  (forall d, owns s d -> get_epoch_dataend d <= active_end s) /\
  (active_end s = 0 \/ exists d, owns s d /\ active_end s = get_epoch_dataend d).
Proof.
  destruct (fold_tmax (heap s) (in_key_order (_data_from_path s)) 0)
    as (H1 & H2 & H3).
  split; [exact H1 |]. split.
  - intros d (path & p & Hp & Hd).
    apply (H2 (path, p) d); [apply in_key_order_spec; exact Hp | exact Hd].
  - destruct H3 as [H3 | (it & d & Hin & Hd & Hr)]; [left; exact H3 |].
    right. exists d. split; [eapply owns_walk; eauto | exact Hr].
Qed.

Lemma active_begin_spec s :
  active_begin s <= ULONG_MAX /\
  (forall d, owns s d -> active_begin s <= get_epoch_datastart d) /\
  (active_begin s = ULONG_MAX \/
   exists d, owns s d /\ active_begin s = get_epoch_datastart d).
Proof.
  destruct (fold_tmin (heap s) (in_key_order (_data_from_path s)) ULONG_MAX)
    as (H1 & H2 & H3).
  split; [exact H1 |]. split.
  - intros d (path & p & Hp & Hd).
    apply (H2 (path, p) d); [apply in_key_order_spec; exact Hp | exact Hd].
  - destruct H3 as [H3 | (it & d & Hin & Hd & Hr)]; [left; exact H3 |].
    right. exists d. split; [eapply owns_walk; eauto | exact Hr].
Qed.

End ActiveTimeFacts.

(** C9 (as the code has it).  When the system owns a unit whose data end
    is not before its baseline, the active time begins no later than it
    ends; a system without units reports the begin [ULONG_MAX] and the end
    0.  Adding samples to the units never lowers either bound: the end
    cannot decrease and the begin stays what it was. *)
Theorem active_time_span (get_epoch_dataend : Data -> Z) (s : MavSystem) :
  ((exists d, owns s d /\ get_epoch_datastart d <= get_epoch_dataend d) ->
   get_time_active_begin_usec s <= get_time_active_end_usec get_epoch_dataend s) /\
  (_data_from_path s = ∅ ->
   get_time_active_begin_usec s = ULONG_MAX /\
   get_time_active_end_usec get_epoch_dataend s = 0) /\
  (forall s', samples_added get_epoch_dataend s s' ->
     get_time_active_end_usec get_epoch_dataend s
     <= get_time_active_end_usec get_epoch_dataend s' /\
     get_time_active_begin_usec s' = get_time_active_begin_usec s).
Proof.
  destruct (active_end_spec get_epoch_dataend s) as (E0 & E1 & E2).
  destruct (active_begin_spec s) as (B0 & B1 & B2).
  split; [| split].
  - intros (d & Hd & Hle). specialize (E1 d Hd). specialize (B1 d Hd). lia.
  - intros Hempty.
    unfold get_time_active_begin_usec, get_time_active_end_usec, in_key_order.
    rewrite Hempty, map_to_list_empty. split; reflexivity.
  - intros s' [Hfwd Hbwd].
    destruct (active_end_spec get_epoch_dataend s') as (E0' & E1' & E2').
    destruct (active_begin_spec s') as (B0' & B1' & B2').
    split.
    + destruct E2 as [-> | (d & Hd & ->)]; [exact E0' |].
      destruct (Hfwd d Hd) as (d' & Hd' & _ & Hle).
      specialize (E1' d' Hd'). lia.
    + apply Z.le_antisymm.
      * destruct B2 as [-> | (d & Hd & ->)]; [exact B0' |].
        destruct (Hfwd d Hd) as (d' & Hd' & Heq & _).
        specialize (B1' d' Hd'). lia.
      * destruct B2' as [-> | (d' & Hd' & ->)]; [exact B0 |].
        destruct (Hbwd d' Hd') as (d & Hd & Heq).
        specialize (B1 d Hd). lia.
Qed.

(** C9 as stated fails: time updates create no unit, and without units the
    begin is [ULONG_MAX] and the end is 0. *)
Lemma active_time_begin_after_end :
  ~ (forall (get_epoch_dataend : Data -> Z) (s : MavSystem),
        get_time_active_begin_usec s
        <= get_time_active_end_usec get_epoch_dataend s).
Proof.
  intros H. specialize (H (fun d => get_epoch_datastart d) sys_at_100s).
  vm_compute in H. apply H. reflexivity.
Qed.

Lemma active_time_span_witness :
  get_time_active_begin_usec sys_with_power
  <= get_time_active_end_usec dataend_by_size sys_with_power.
Proof.
  apply (active_time_span dataend_by_size sys_with_power).
  exists (mkData "autopilot_load" "%" DATA_RAW 0 (Some ["computer"%string])
                 (TimeseriesFloat [(0%float, 10%float)])).
  split.
  - exists "computer/autopilot_load"%string, 0%nat. split; reflexivity.
  - vm_compute. discriminate.
Defined.

(** ** Merging two systems *)

Section MergeFacts.

Variable get_data_at_time : list (float * float) -> float -> option float.
Variable has_bad_timestamps : Data -> bool.
Variable make_periodic : Data -> Data.
Variable regex_match : string -> string -> bool.
Variable uninitialised : float.
Variable _postprocess_glideperf_vel : MavSystem -> MavSystem.

Lemma merge_loop_unfold other s :
  merge_loop other s
  = fold_left (merge_step other) (in_key_order (_data_from_path other)) ([], false, s).
Proof. reflexivity. Qed.

Lemma merge_fold other (l : list (string * ptr)) done added s :
  exists new,
    (fold_left (merge_step other) l (done, added, s)).1.1 = done ++ new /\
    length new = length l /\
    (fold_left (merge_step other) l (done, added, s)).1.2
    = added || existsb (fun ok => ok) new.
Proof.
  revert done added s. induction l as [| ito l IH]; intros done added s.
  - exists []. cbn. rewrite app_nil_r, orb_false_r. auto.
  - cbn [fold_left]. unfold merge_step at 2 4.
    destruct (heap other !! ito.2) as [data|].
    + destruct (_add_data data s) as [ok s1].
      destruct (IH (done ++ [ok]) (added || ok) s1) as (new & H1 & H2 & H3).
      exists (ok :: new). rewrite H1, H3. cbn.
      rewrite <- app_assoc, orb_assoc. auto.
    + destruct (IH (done ++ [false]) added s) as (new & H1 & H2 & H3).
      exists (false :: new). rewrite H1, H3. cbn.
      rewrite <- app_assoc. auto.
Qed.

Lemma length_in_key_order (m : gmap string ptr) :
  length (in_key_order m) = size m.
Proof.
  unfold in_key_order. rewrite merge_sort_Permutation.
  apply length_map_to_list.
Qed.

End MergeFacts.

(** C3 as stated fails: merging a system without units merges nothing and
    still returns [true]. *)
Lemma merge_in_reports_success_without_units :
  ~ (forall (get_data_at_time : list (float * float) -> float -> option float)
            (has_bad_timestamps : Data -> bool) (make_periodic : Data -> Data)
            (regex_match : string -> string -> bool) (uninitialised : float)
            (_postprocess_glideperf_vel : MavSystem -> MavSystem)
            (other s : MavSystem),
        (merge_in get_data_at_time has_bad_timestamps make_periodic
           regex_match uninitialised _postprocess_glideperf_vel other s).1 = true
        <-> true ∈ (merge_loop other s).1.1).
Proof.
  intros H.
  specialize (H (fun _ _ => None) (fun _ => false) (fun d => d)
                (fun _ _ => false) 0%float (fun s => s)
                (MavSystem_new 2) (MavSystem_new 1)).
  destruct H as [H _]. specialize (H eq_refl).
  vm_compute in H. inversion H.
Qed.

(** ** Flight book *)

Section FlightbookSpec.

Variable get_data_at_time : list (float * float) -> float -> option float.

Lemma edges_length was l : (length (takeoffs (edges was l)) <= length l)%nat.
Proof.
  unfold takeoffs.
  revert was. induction l as [| [t b] l IH]; intros was; cbn; [lia |].
  destruct (b && negb was); cbn.
  - specialize (IH true). lia.
  - destruct (negb b && was); cbn.
    + specialize (IH false). lia.
    + specialize (IH was). lia.
Qed.

Lemma classified_length alt thr : (length (classified get_data_at_time alt thr) <= length alt)%nat.
Proof.
  unfold classified. induction alt as [| a alt IH]; cbn; [lia |].
  destruct (get_data_at_time thr a.1); cbn; lia.
Qed.

Lemma wrap32_small z : 0 <= z < 2 ^ 32 -> wrap32 z = z.
Proof. intros H. unfold wrap32. apply Z.mod_small. exact H. Qed.

Lemma classified_cons t a alt thr :
  classified get_data_at_time ((t, a) :: alt) thr
  = match get_data_at_time thr t with
    | Some throttle =>
        (t, (1 <? a)%float && (20 <? throttle)%float) :: classified get_data_at_time alt thr
    | None => classified get_data_at_time alt thr
    end.
Proof.
  unfold classified. cbn. destruct (get_data_at_time thr t); reflexivity.
Qed.

Lemma flightbook_step_eq thr st t a :
  flightbook_step get_data_at_time thr st (t, a)
  = match get_data_at_time thr t with
    | None => st
    | Some throttle =>
        let seems_flying := (1 <? a)%float && (20 <? throttle)%float in
        if seems_flying && negb (flying st) then
          let n := wrap32 (nflights st + 1) in
          mkFlightbook true t
            (if (n =? 1)%Z then t else t_first_takeoff st)
            (t_last_landing st) n (flighttime st)
            (takeofflanding st ++ [(t, "takeoff"%string)])
        else if negb seems_flying && flying st then
          mkFlightbook false (t_takeoff st) (t_first_takeoff st) t
            (nflights st) (flighttime st + (t - t_takeoff st))%float
            (takeofflanding st ++ [(t, "landing"%string)])
        else st
    end.
Proof. reflexivity. Qed.

(** the loop against the words, from any state of the loop *)
Lemma flightbook_fold alt thr st :
  0 <= nflights st ->
  nflights st + Z.of_nat (length alt) < 2 ^ 32 ->
  let fb := fold_left (flightbook_step get_data_at_time thr) alt st in
  let evs := edges (flying st) (classified get_data_at_time alt thr) in
  takeofflanding fb = takeofflanding st ++ evs /\
  nflights fb = nflights st + Z.of_nat (length (takeoffs evs)) /\
  t_first_takeoff fb
  = (if (nflights st =? 0)%Z then first_takeoff (t_first_takeoff st) evs
     else t_first_takeoff st) /\
  t_last_landing fb = last_event false (t_last_landing st) evs /\
  t_takeoff fb = last_event true (t_takeoff st) evs /\
  flighttime fb = time_in_flight (t_takeoff st) (flighttime st) evs.
Proof.
  revert st. induction alt as [| [t a] alt IH]; intros st Hn Hlen.
  - cbn. rewrite app_nil_r, Z.add_0_r.
    destruct (nflights st =? 0)%Z; auto 10.
  - cbv zeta. cbn [fold_left]. cbn [length] in Hlen.
    rewrite classified_cons, flightbook_step_eq. cbv zeta.
    destruct (get_data_at_time thr t) as [throttle|];
      [| apply IH; [exact Hn | lia]].
    set (b := (1 <? a)%float && (20 <? throttle)%float).
    cbn [edges].
    destruct (b && negb (flying st)) eqn:Eup.
    + (* takeoff *)
      rewrite (wrap32_small (nflights st + 1)) by lia.
      match goal with |- context [fold_left _ alt ?st1] =>
        destruct (IH st1) as (H1 & H2 & H3 & H4 & H5 & H6);
          [cbn; lia | cbn; lia |] end.
      cbn [flying takeofflanding nflights t_first_takeoff t_last_landing
           t_takeoff flighttime] in *.
      rewrite H1, H2, H3, H4, H5, H6. clear H1 H2 H3 H4 H5 H6.
      unfold first_takeoff, takeoffs.
      change (List.filter is_takeoff ((t, "takeoff"%string) :: ?l))
        with ((t, "takeoff"%string) :: List.filter is_takeoff l).
      cbn [length fst snd time_in_flight last_event fold_left].
      change (is_takeoff (t, "takeoff"%string)) with true. cbn [Bool.eqb fst].
      rewrite <- app_assoc.
      split; [reflexivity |]. split; [lia |].
      split.
      * destruct (Z.eqb_spec (nflights st + 1) 0); [lia |].
        destruct (Z.eqb_spec (nflights st + 1) 1);
          destruct (Z.eqb_spec (nflights st) 0); try lia; reflexivity.
      * auto.
    + destruct (negb b && flying st) eqn:Edown.
      * (* landing *)
        match goal with |- context [fold_left _ alt ?st1] =>
          destruct (IH st1) as (H1 & H2 & H3 & H4 & H5 & H6);
            [cbn; lia | cbn; lia |] end.
        cbn [flying takeofflanding nflights t_first_takeoff t_last_landing
             t_takeoff flighttime] in *.
        rewrite H1, H2, H3, H4, H5, H6. clear H1 H2 H3 H4 H5 H6.
        unfold first_takeoff, takeoffs.
        change (List.filter is_takeoff ((t, "landing"%string) :: ?l))
          with (List.filter is_takeoff l).
        cbn [length fst snd time_in_flight last_event fold_left].
        change (is_takeoff (t, "landing"%string)) with false. cbn [Bool.eqb fst].
        rewrite <- app_assoc. auto 10.
      * apply IH; [exact Hn | lia].
Qed.

End FlightbookSpec.

(** ** The units by path *)

Lemma view_lookup s path :
  view s !! path = _data_from_path s !! path ≫= (fun p => heap s !! p).
Proof. unfold view. apply lookup_omap. Qed.

Lemma view_get s path : view s !! path = snd <$> _get_data path s.
Proof.
  rewrite view_lookup. unfold _get_data.
  destruct (_data_from_path s !! path) as [p|]; cbn; [| reflexivity].
  destruct (heap s !! p); reflexivity.
Qed.

Lemma view_get_Some s path d :
  view s !! path = Some d <-> exists p, _get_data path s = Some (p, d).
Proof.
  rewrite view_get. destruct (_get_data path s) as [[p d'] |]; cbn; split.
  - intros [= ->]. eauto.
  - intros (q & [= -> ->]). reflexivity.
  - discriminate.
  - intros (q & ?). discriminate.
Qed.

Lemma view_on_unit f path p s :
  store_ok s -> _data_from_path s !! path = Some p ->
  view (on_unit f p s) = alter f path (view s).
Proof.
  intros [Hlive Hinj] Hp. apply map_eq. intros path'.
  rewrite lookup_alter, !view_lookup. cbn [on_unit with_heap with_store
    _data_from_path heap].
  case_decide as E.
  - subst path'. rewrite Hp. cbn. apply lookup_alter_eq.
  - destruct (_data_from_path s !! path') as [q|] eqn:Hq; cbn; [| reflexivity].
    apply lookup_alter_ne. intros ->. apply E. eapply Hinj; eauto.
Qed.

Lemma on_unit_compose f g p s :
  on_unit g p (on_unit f p s) = on_unit (g ∘ f) p s.
Proof.
  unfold on_unit, with_heap, with_store. cbn. f_equal.
  apply alter_alter_eq.
Qed.

Lemma on_unit_id p s : on_unit (fun d => d) p s = s.
Proof.
  unfold on_unit, with_heap, with_store. rewrite alter_id by reflexivity.
  destruct s; reflexivity.
Qed.

(** a loop of method calls on one unit is one call *)
Lemma fold_on_unit {A : Type} (g : A -> Data -> Data) (p : ptr) (l : list A) s :
  fold_left (fun s a => on_unit (g a) p s) l s
  = on_unit (fun d => fold_left (fun d a => g a d) l d) p s.
Proof.
  revert s. induction l as [| a l IH]; intros s; cbn [fold_left].
  - symmetry. apply on_unit_id.
  - rewrite IH, on_unit_compose. reflexivity.
Qed.

(** [MAVSYSTEM_DATA_ITEM_OR_RETURN] in terms of the units by path *)
Lemma item_or_return_view k path units s body :
  store_ok s -> resolves k path s ->
  exists p s' d,
    MAVSYSTEM_DATA_ITEM_OR_RETURN k path units s body = body p s' /\
    store_ok s' /\
    _data_from_path s' !! path = Some p /\
    (forall path', path' <> path ->
       _data_from_path s' !! path' = _data_from_path s !! path') /\
    view s' = <[path := d]> (view s) /\
    content d = content_at k path s /\ kind_of (content d) = k.
Proof.
  intros Hok Hres.
  destruct (data_item_spec k path units s Hok Hres)
    as (p & s' & d & E & Hok' & Hg & Hc & Hk & Hfr & Ht).
  exists p, s', d. unfold MAVSYSTEM_DATA_ITEM_OR_RETURN. rewrite E.
  split; [reflexivity |]. split; [exact Hok' |].
  split; [apply get_data_Some in Hg; tauto |].
  split; [intros path' Hne; apply Hfr, Hne |].
  split; [| auto].
  apply map_eq. intros path'. rewrite lookup_insert, !view_get.
  case_decide as E'.
  - subst path'. rewrite Hg. reflexivity.
  - rewrite (proj2 (Hfr path' ltac:(congruence))). reflexivity.
Qed.

(** [MAVSYSTEM_REQUIRE_DATA] in terms of the units by path *)
Lemma require_data_view k path s d body :
  view s !! path = Some d -> kind_of (content d) = k ->
  exists p, MAVSYSTEM_REQUIRE_DATA k path s body = body p d.
Proof.
  intros Hv Hk. apply view_get_Some in Hv as (p & Hg). exists p.
  unfold MAVSYSTEM_REQUIRE_DATA, require_data. rewrite Hg.
  rewrite decide_True by exact Hk. reflexivity.
Qed.

(** ** The derived units of a pass *)

Lemma add_events_content (l : list (float * string)) d l0 :
  content d = EventString l0 ->
  let d' := fold_left (fun d ev => add_elem_event ev.2 ev.1 d) l d in
  content d' = EventString (l0 ++ l) /\
  get_epoch_datastart d' = get_epoch_datastart d /\ get_type d' = get_type d.
Proof.
  revert d l0. induction l as [| [t v] l IH]; intros d l0 Hc; cbn [fold_left].
  - rewrite app_nil_r. auto.
  - destruct (IH (add_elem_event v t d) (l0 ++ [(t, v)])) as (H1 & H2 & H3).
    { unfold add_elem_event. rewrite Hc. reflexivity. }
    cbn [fst snd]. rewrite H1, H2, H3, <- app_assoc.
    unfold add_elem_event. rewrite Hc. auto.
Qed.

Lemma add_row_content (l : list (float * float)) d l0 :
  content d = TimeseriesFloat l0 ->
  let d' := fold_left (fun d tv => add_elem_float tv.2 tv.1 d) l d in
  content d' = TimeseriesFloat (l0 ++ l) /\
  get_epoch_datastart d' = get_epoch_datastart d /\ get_type d' = get_type d.
Proof.
  revert d l0. induction l as [| [t v] l IH]; intros d l0 Hc; cbn [fold_left].
  - rewrite app_nil_r. auto.
  - destruct (IH (add_elem_float v t d) (l0 ++ [(t, v)])) as (H1 & H2 & H3).
    { unfold add_elem_float. rewrite Hc. reflexivity. }
    cbn [fst snd]. rewrite H1, H2, H3, <- app_assoc.
    unfold add_elem_float. rewrite Hc. auto.
Qed.

Lemma reset_unit_spec epoch d :
  content (reset_unit epoch d) = no_samples (kind_of (content d)) /\
  get_epoch_datastart (reset_unit epoch d) = epoch /\
  get_type (reset_unit epoch d) = DATA_DERIVED.
Proof. repeat split. Qed.

Lemma reset_output_eq epoch p s :
  reset_output epoch p s = on_unit (reset_unit epoch) p s.
Proof.
  unfold reset_output. rewrite !on_unit_compose. reflexivity.
Qed.

(** rewrite the units by path through a chain of method calls *)
Ltac view_step :=
  erewrite view_on_unit;
  [ | solve [repeat apply store_ok_on_unit; assumption]
    | cbn [_data_from_path on_unit with_heap with_store]; eassumption ].

Ltac open_require Hv Hk :=
  match goal with
  | |- context [MAVSYSTEM_REQUIRE_DATA ?k ?path ?s ?body] =>
      let p := fresh "p" in
      let E := fresh "E" in
      destruct (require_data_view k path s _ body Hv Hk) as (p & E);
      rewrite E; cbv beta; clear E
  end.

Ltac open_item_view Hok Hres p s1 d Hok1 Hf Hfr Hv Hc Hk :=
  match goal with
  | |- context [MAVSYSTEM_DATA_ITEM_OR_RETURN ?k ?path ?u ?s ?body] =>
      let E := fresh "E" in
      destruct (item_or_return_view k path u s body Hok Hres)
        as (p & s1 & d & E & Hok1 & Hf & Hfr & Hv & Hc & Hk);
      rewrite E; cbv beta; clear E
  end.

Lemma resolves_after_item (path : string) s s' k' path' d :
  path' <> path ->
  (forall q, q <> path -> _data_from_path s' !! q = _data_from_path s !! q) ->
  view s' = <[path := d]> (view s) ->
  resolves k' path' s -> resolves k' path' s'.
Proof.
  intros Hne Hfr Hv [Hn | (p & d' & Hg & Hk)].
  - left. rewrite Hfr by exact Hne. exact Hn.
  - right. assert (Hv' : view s' !! path' = Some d').
    { rewrite Hv, lookup_insert_ne by congruence.
      apply view_get_Some. eauto. }
    apply view_get_Some in Hv' as (q & Hq). eauto.
Qed.

Ltac carry_resolves R Fr V R' :=
  pose proof (fun Hne => resolves_after_item _ _ _ _ _ _ Hne Fr V R) as R';
  specialize (R' ltac:(path_ne)).

Section FlightbookPass.

Variable get_data_at_time : list (float * float) -> float -> option float.

Variable s : MavSystem.
Variables data_alt data_throttle : Data.
Variables alt throttle : list (float * float).

Hypothesis Hok : store_ok s.
Hypothesis Halt : view s !! "airstate/alt GND"%string = Some data_alt.
Hypothesis Halt_c : content data_alt = TimeseriesFloat alt.
Hypothesis Hthr : view s !! "airstate/throttle"%string = Some data_throttle.
Hypothesis Hthr_c : content data_throttle = TimeseriesFloat throttle.
Hypothesis Hsync :
  get_epoch_datastart data_alt = get_epoch_datastart data_throttle.
Hypothesis Hsize : (Z.of_nat (length alt) < 2 ^ 32)%Z.
Hypothesis R1 : resolves KEventString "flightbook/takeoff_landing" s.
Hypothesis R2 : resolves KParamUInt "flightbook/number flights" s.
Hypothesis R3 : resolves KParamDouble "flightbook/total flight time" s.
Hypothesis R4 : resolves KParamDouble "flightbook/first takeoff" s.
Hypothesis R5 : resolves KParamDouble "flightbook/last landing" s.

Lemma flightbook_pass_outputs :
  let s' := _postprocess_flightbook get_data_at_time s in
  let fb := flightbook_loop get_data_at_time alt throttle in
  let epoch := get_epoch_datastart data_alt in
  derived_output s' epoch "flightbook/takeoff_landing"
    (EventString (takeofflanding fb)) /\
  derived_output s' epoch "flightbook/number flights" (ParamUInt [nflights fb]) /\
  derived_output s' epoch "flightbook/total flight time"
    (ParamDouble [flighttime fb]) /\
  derived_output s' epoch "flightbook/first takeoff"
    (ParamDouble [t_first_takeoff fb]) /\
  derived_output s' epoch "flightbook/last landing"
    (ParamDouble [t_last_landing fb]).
Proof using All.
  intros s' fb epoch. subst s'.
  cbv beta delta [_postprocess_flightbook].
  assert (Ka : kind_of (content data_alt) = KTimeseriesFloat)
    by (rewrite Halt_c; reflexivity).
  assert (Kt : kind_of (content data_throttle) = KTimeseriesFloat)
    by (rewrite Hthr_c; reflexivity).
  open_require Halt Ka. open_require Hthr Kt.
  rewrite <- Hsync, Z.eqb_refl. cbn [negb].
  open_item_view Hok R1 p1 s1 d1 Hok1 F1 Fr1 V1 C1 K1.
  carry_resolves R2 Fr1 V1 R2'.
  carry_resolves R3 Fr1 V1 R3'.
  carry_resolves R4 Fr1 V1 R4'.
  carry_resolves R5 Fr1 V1 R5'.
  open_item_view Hok1 R2' p2 s2 d2 Hok2 F2 Fr2 V2 C2 K2.
  carry_resolves R3' Fr2 V2 R3''.
  carry_resolves R4' Fr2 V2 R4''.
  carry_resolves R5' Fr2 V2 R5''.
  open_item_view Hok2 R3'' p3 s3 d3 Hok3 F3 Fr3 V3 C3 K3.
  carry_resolves R4'' Fr3 V3 R4'''.
  carry_resolves R5'' Fr3 V3 R5'''.
  open_item_view Hok3 R4''' p4 s4 d4 Hok4 F4 Fr4 V4 C4 K4.
  carry_resolves R5''' Fr4 V4 R5''''.
  open_item_view Hok4 R5'''' p5 s5 d5 Hok5 F5 Fr5 V5 C5 K5.
  (* the addresses of the five outputs in the system the body starts from *)
  assert (G1 : _data_from_path s5 !! "flightbook/takeoff_landing"%string = Some p1).
  { rewrite Fr5, Fr4, Fr3, Fr2 by path_ne. exact F1. }
  assert (G2 : _data_from_path s5 !! "flightbook/number flights"%string = Some p2).
  { rewrite Fr5, Fr4, Fr3 by path_ne. exact F2. }
  assert (G3 : _data_from_path s5 !! "flightbook/total flight time"%string = Some p3).
  { rewrite Fr5, Fr4 by path_ne. exact F3. }
  assert (G4 : _data_from_path s5 !! "flightbook/first takeoff"%string = Some p4).
  { rewrite Fr5 by path_ne. exact F4. }
  clear Fr1 Fr2 Fr3 Fr4 Fr5 F1 F2 F3 F4 R1 R2 R3 R4 R5 R2' R3' R4' R5' R3'' R4'' R5''
        R4''' R5''' R5''''.
  cbv zeta. unfold float_series. rewrite Halt_c, Hthr_c.
  fold fb. fold epoch. rewrite !reset_output_eq, fold_on_unit.
  unfold derived_output.
  repeat view_step.
  rewrite V5, V4, V3, V2, V1.
  repeat split.
  - eexists. split; [simplify_map_eq; reflexivity |]. cbn.
    destruct (add_events_content (takeofflanding fb) (reset_unit epoch d1) [])
      as (H1 & H2 & H3).
    { cbn. rewrite K1. reflexivity. }
    rewrite H1, H2, H3. auto.
  - eexists. split; [simplify_map_eq; reflexivity |].
    unfold add_elem_param_uint. cbn. rewrite K2. cbn. auto.
  - eexists. split; [simplify_map_eq; reflexivity |].
    unfold add_elem_param_double. cbn. rewrite K3. cbn. auto.
  - eexists. split; [simplify_map_eq; reflexivity |].
    unfold add_elem_param_double. cbn. rewrite K4. cbn. auto.
  - eexists. split; [simplify_map_eq; reflexivity |].
    unfold add_elem_param_double. cbn. rewrite K5. cbn. auto.
Qed.

End FlightbookPass.

(** [store_ok] in a form that can be decided by evaluation *)
Lemma store_ok_by_evaluation s :
  map_Forall (fun (_ : string) p => is_Some (heap s !! p)) (_data_from_path s) ->
  map_Forall (fun path1 p =>
                map_Forall (fun path2 q => p = q -> path1 = path2)
                           (_data_from_path s))
             (_data_from_path s) ->
  store_ok s.
Proof.
  intros H1 H2. split.
  - intros path p Hp. exact (H1 path p Hp).
  - intros path1 path2 p Hp1 Hp2. exact (H2 path1 p Hp1 path2 p Hp2 eq_refl).
Qed.

Ltac store_ok_evaluate :=
  apply store_ok_by_evaluation;
  apply (bool_decide_unpack _); vm_compute; exact I.

(** C6.  On a system with an altitude series "airstate/alt GND" and a
    throttle series "airstate/throttle" of equal baselines, the flight-book
    pass leaves five derived units that hold: the take-off and landing
    events at the edges of the classification "altitude > 1 and
    interpolated throttle > 20" along the altitude samples, the number of
    take-offs, the summed time between each take-off and the next landing,
    the time of the first take-off and the time of the last landing.  For
    the altitudes 0,0,5,5,0,0 and throttles 0,0,50,50,0,0 at the seconds 0
    to 5, with an interpolation that returns a stored value at its own
    timestamp, that is one flight, taking off at 2, landing at 4 and
    lasting 2 seconds. *)
Theorem flightbook_pass
    (get_data_at_time : list (float * float) -> float -> option float) :
  (forall (s : MavSystem) (data_alt data_throttle : Data)
          (alt throttle : list (float * float)),
      store_ok s ->
      view s !! "airstate/alt GND"%string = Some data_alt ->
      content data_alt = TimeseriesFloat alt ->
      view s !! "airstate/throttle"%string = Some data_throttle ->
      content data_throttle = TimeseriesFloat throttle ->
      get_epoch_datastart data_alt = get_epoch_datastart data_throttle ->
      (Z.of_nat (length alt) < 2 ^ 32)%Z ->
      resolves KEventString "flightbook/takeoff_landing" s ->
      resolves KParamUInt "flightbook/number flights" s ->
      resolves KParamDouble "flightbook/total flight time" s ->
      resolves KParamDouble "flightbook/first takeoff" s ->
      resolves KParamDouble "flightbook/last landing" s ->
      let s' := _postprocess_flightbook get_data_at_time s in
      let evs := edges false (classified get_data_at_time alt throttle) in
      let epoch := get_epoch_datastart data_alt in
      derived_output s' epoch "flightbook/takeoff_landing" (EventString evs) /\
      derived_output s' epoch "flightbook/number flights"
        (ParamUInt [Z.of_nat (length (takeoffs evs))]) /\
      derived_output s' epoch "flightbook/total flight time"
        (ParamDouble [time_in_flight 0 0 evs]) /\
      derived_output s' epoch "flightbook/first takeoff"
        (ParamDouble [first_takeoff 0 evs]) /\
      derived_output s' epoch "flightbook/last landing"
        (ParamDouble [last_event false 0 evs])) /\
  ((forall t v, (t, v) ∈ scenario_throttle ->
                get_data_at_time scenario_throttle t = Some v) ->
   let evs := edges false (classified get_data_at_time
                             scenario_altitude scenario_throttle) in
   evs = [(2%float, "takeoff"%string); (4%float, "landing"%string)] /\
   length (takeoffs evs) = 1%nat /\
   time_in_flight 0 0 evs = 2%float /\
   first_takeoff 0 evs = 2%float /\
   last_event false 0 evs = 4%float).
Proof.
  split.
  - intros s data_alt data_throttle alt throttle Hok Halt Halt_c Hthr Hthr_c
           Hsync Hsize R1 R2 R3 R4 R5 s' evs epoch.
    pose proof (flightbook_pass_outputs get_data_at_time s data_alt data_throttle
                  alt throttle Hok Halt Halt_c Hthr Hthr_c Hsync Hsize
                  R1 R2 R3 R4 R5) as H.
    cbv zeta in H.
    destruct (flightbook_fold get_data_at_time alt throttle flightbook_init)
      as (E1 & E2 & E3 & E4 & _ & E6); [cbn; lia | cbn; lia |].
    cbn [flightbook_init takeofflanding nflights t_first_takeoff t_last_landing
         t_takeoff flighttime flying app Z.eqb Z.add] in E1, E2, E3, E4, E6.
    fold (flightbook_loop get_data_at_time alt throttle) in E1, E2, E3, E4, E6.
    rewrite E1, E2, E3, E4, E6 in H. exact H.
  - intros Hinterp evs.
    assert (Hc : classified get_data_at_time scenario_altitude scenario_throttle
                 = [(0, false); (1, false); (2, true);
                    (3, true); (4, false); (5, false)]%float).
    { unfold scenario_altitude.
      rewrite !classified_cons.
      rewrite (Hinterp 0 0)%float by (unfold scenario_throttle; set_solver).
      rewrite (Hinterp 1 0)%float by (unfold scenario_throttle; set_solver).
      rewrite (Hinterp 2 50)%float by (unfold scenario_throttle; set_solver).
      rewrite (Hinterp 3 50)%float by (unfold scenario_throttle; set_solver).
      rewrite (Hinterp 4 0)%float by (unfold scenario_throttle; set_solver).
      rewrite (Hinterp 5 0)%float by (unfold scenario_throttle; set_solver).
      reflexivity. }
    subst evs. rewrite Hc. vm_compute. auto.
Qed.

Lemma interpolate_scenario_throttle t v :
  (t, v) ∈ scenario_throttle -> interpolate scenario_throttle t = Some v.
Proof.
  unfold scenario_throttle. intros H.
  repeat (apply elem_of_cons in H as [[= -> ->] | H];
          [vm_compute; reflexivity |]).
  inversion H.
Qed.

Lemma flightbook_pass_witness :
  let s' := _postprocess_flightbook interpolate scenario_flight in
  derived_output s' 0 "flightbook/takeoff_landing"
    (EventString [(2%float, "takeoff"%string); (4%float, "landing"%string)]) /\
  derived_output s' 0 "flightbook/number flights" (ParamUInt [1]) /\
  derived_output s' 0 "flightbook/total flight time" (ParamDouble [2%float]).
Proof.
  intros s'.
  destruct (flightbook_pass interpolate) as [Hsys Hscen].
  destruct (Hscen interpolate_scenario_throttle) as (E1 & E2 & E3 & _ & _).
  cbv zeta in E1.
  edestruct (Hsys scenario_flight) as (O1 & O2 & O3 & _ & _).
  - store_ok_evaluate.
  - vm_compute. reflexivity.
  - cbn [content]. reflexivity.
  - vm_compute. reflexivity.
  - cbn [content]. reflexivity.
  - reflexivity.
  - vm_compute. reflexivity.
  - left. vm_compute. reflexivity.
  - left. vm_compute. reflexivity.
  - left. vm_compute. reflexivity.
  - left. vm_compute. reflexivity.
  - left. vm_compute. reflexivity.
  - cbn [get_epoch_datastart] in O1, O2, O3.
    change [(0%float, 0%float); (1%float, 0%float); (2%float, 5%float);
            (3%float, 5%float); (4%float, 0%float); (5%float, 0%float)]
      with scenario_altitude in O1, O2, O3.
    change [(0%float, 0%float); (1%float, 0%float); (2%float, 50%float);
            (3%float, 50%float); (4%float, 0%float); (5%float, 0%float)]
      with scenario_throttle in O1, O2, O3.
    rewrite E1 in O1, O2, O3.
    split; [exact O1 |]. split; [exact O2 | exact O3].
Defined.

(** ** Power statistics *)




Section PowerstatsPass.

Variable get_data_at_time : list (float * float) -> float -> option float.

Variable s : MavSystem.
Variables data_battery_volt data_battery_amps : Data.
Variables volt amps : list (float * float).

Hypothesis Hok : store_ok s.
Hypothesis Hvolt : view s !! "power/battery_voltage"%string = Some data_battery_volt.
Hypothesis Hvolt_c : content data_battery_volt = TimeseriesFloat volt.
Hypothesis Hamps : view s !! "power/battery_current"%string = Some data_battery_amps.
Hypothesis Hamps_c : content data_battery_amps = TimeseriesFloat amps.
Hypothesis Hsync :
  get_epoch_datastart data_battery_volt = get_epoch_datastart data_battery_amps.
Hypothesis R1 : resolves KTimeseriesFloat "power/power" s.
Hypothesis R2 : resolves KTimeseriesFloat "power/inst. consumption" s.
Hypothesis R3 : resolves KTimeseriesFloat "power/inst. charge" s.
Hypothesis R4 : resolves KTimeseriesFloat "power/cum. consumption" s.
Hypothesis R5 : resolves KTimeseriesFloat "power/cum. charge" s.

Lemma powerstats_pass_outputs :
  let s' := _postprocess_powerstats get_data_at_time s in
  let power := power_row get_data_at_time volt amps in
  let epoch := get_epoch_datastart data_battery_amps in
  derived_output s' epoch "power/power" (TimeseriesFloat power) /\
  derived_output s' epoch "power/inst. charge"
    (TimeseriesFloat (inst_row (integrate amps))) /\
  derived_output s' epoch "power/cum. charge"
    (TimeseriesFloat (cum_row (integrate amps))) /\
  derived_output s' epoch "power/inst. consumption"
    (TimeseriesFloat (inst_row (integrate power))) /\
  derived_output s' epoch "power/cum. consumption"
    (TimeseriesFloat (cum_row (integrate power))).
Proof using All.
  intros s' power epoch. subst s'.
  cbv beta delta [_postprocess_powerstats].
  assert (Kv : kind_of (content data_battery_volt) = KTimeseriesFloat)
    by (rewrite Hvolt_c; reflexivity).
  assert (Ka : kind_of (content data_battery_amps) = KTimeseriesFloat)
    by (rewrite Hamps_c; reflexivity).
  open_require Hvolt Kv. open_require Hamps Ka.
  rewrite Hsync, Z.eqb_refl. cbn [negb].
  open_item_view Hok R1 p1 s1 d1 Hok1 F1 Fr1 V1 C1 K1.
  carry_resolves R2 Fr1 V1 R2'. carry_resolves R3 Fr1 V1 R3'.
  carry_resolves R4 Fr1 V1 R4'. carry_resolves R5 Fr1 V1 R5'.
  open_item_view Hok1 R2' p2 s2 d2 Hok2 F2 Fr2 V2 C2 K2.
  carry_resolves R3' Fr2 V2 R3''. carry_resolves R4' Fr2 V2 R4''.
  carry_resolves R5' Fr2 V2 R5''.
  open_item_view Hok2 R3'' p3 s3 d3 Hok3 F3 Fr3 V3 C3 K3.
  carry_resolves R4'' Fr3 V3 R4'''. carry_resolves R5'' Fr3 V3 R5'''.
  open_item_view Hok3 R4''' p4 s4 d4 Hok4 F4 Fr4 V4 C4 K4.
  carry_resolves R5''' Fr4 V4 R5''''.
  open_item_view Hok4 R5'''' p5 s5 d5 Hok5 F5 Fr5 V5 C5 K5.
  assert (G1 : _data_from_path s5 !! "power/power"%string = Some p1).
  { rewrite Fr5, Fr4, Fr3, Fr2 by path_ne. exact F1. }
  assert (G2 : _data_from_path s5 !! "power/inst. consumption"%string = Some p2).
  { rewrite Fr5, Fr4, Fr3 by path_ne. exact F2. }
  assert (G3 : _data_from_path s5 !! "power/inst. charge"%string = Some p3).
  { rewrite Fr5, Fr4 by path_ne. exact F3. }
  assert (G4 : _data_from_path s5 !! "power/cum. consumption"%string = Some p4).
  { rewrite Fr5 by path_ne. exact F4. }
  clear Fr1 Fr2 Fr3 Fr4 Fr5 F1 F2 F3 F4 R1 R2 R3 R4 R5 R2' R3' R4' R5' R3'' R4'' R5''
        R4''' R5''' R5''''.
  cbv zeta. unfold float_series. rewrite Hvolt_c, Hamps_c.
  fold power. fold epoch. rewrite !reset_output_eq, !fold_on_unit.
  unfold derived_output.
  repeat view_step.
  rewrite V5, V4, V3, V2, V1.
  repeat split.
  - eexists. split; [simplify_map_eq; reflexivity |]. cbn.
    destruct (add_row_content power (reset_unit epoch d1) []) as (H1 & H2 & H3).
    { cbn. rewrite K1. reflexivity. }
    rewrite H1, H2, H3. auto.
  - eexists. split; [simplify_map_eq; reflexivity |]. cbn.
    destruct (add_row_content (inst_row (integrate amps)) (reset_unit epoch d3) [])
      as (H1 & H2 & H3).
    { cbn. rewrite K3. reflexivity. }
    rewrite H1, H2, H3. auto.
  - eexists. split; [simplify_map_eq; reflexivity |]. cbn.
    destruct (add_row_content (cum_row (integrate amps)) (reset_unit epoch d5) [])
      as (H1 & H2 & H3).
    { cbn. rewrite K5. reflexivity. }
    rewrite H1, H2, H3. auto.
  - eexists. split; [simplify_map_eq; reflexivity |]. cbn.
    destruct (add_row_content (inst_row (integrate power)) (reset_unit epoch d2) [])
      as (H1 & H2 & H3).
    { cbn. rewrite K2. reflexivity. }
    rewrite H1, H2, H3. auto.
  - eexists. split; [simplify_map_eq; reflexivity |]. cbn.
    destruct (add_row_content (cum_row (integrate power)) (reset_unit epoch d4) [])
      as (H1 & H2 & H3).
    { cbn. rewrite K4. reflexivity. }
    rewrite H1, H2, H3. auto.
Qed.

End PowerstatsPass.




(** ** Re-running the position-based glide pass *)

(** C5, the code at a failing input.  The position pass does not clear
    "glideperf/cum. horz. dist." before it appends: on three position
    samples the first run leaves two distance samples and the second run
    leaves four, whatever the uninitialised start value was. *)
Theorem glideperf_pos_appends_on_rerun (uninitialised : float) :
  let pass := _postprocess_glideperf_pos interpolate word_match uninitialised in
  length (series_at "glideperf/cum. horz. dist." (pass position_log)) = 2%nat /\
  length (series_at "glideperf/cum. horz. dist." (pass (pass position_log))) = 4%nat.
Proof.
  intros pass. subst pass. split; vm_compute; reflexivity.
Qed.

(** ** Paths *)

Lemma string_split_seg seg :
  no_slash seg = true -> string_split slash seg = [seg].
Proof.
  induction seg as [| c seg IH]; cbn [no_slash string_split]; [reflexivity |].
  intros H. apply andb_prop in H as [Hc Hs].
  destruct (Ascii.eqb c slash); [discriminate |].
  rewrite (IH Hs). reflexivity.
Qed.

Lemma string_split_app seg rest :
  no_slash seg = true ->
  string_split slash (seg +:+ String slash rest) = seg :: string_split slash rest.
Proof.
  induction seg as [| c seg IH].
  - intros _. change (EmptyString +:+ String slash rest) with (String slash rest).
    cbn [string_split]. rewrite Ascii.eqb_refl. reflexivity.
  - change (String c seg +:+ String slash rest)
      with (String c (seg +:+ String slash rest)).
    cbn [no_slash string_split].
    intros H. apply andb_prop in H as [Hc Hs].
    destruct (Ascii.eqb c slash); [discriminate |].
    rewrite (IH Hs). reflexivity.
Qed.

Lemma join_path_cons seg seg' segs :
  join_path (seg :: seg' :: segs) = seg +:+ String slash (join_path (seg' :: segs)).
Proof. reflexivity. Qed.

Lemma split_join (segs : list string) :
  segs <> [] -> Forall seg_ok segs -> string_split slash (join_path segs) = segs.
Proof.
  induction segs as [| seg segs IH]; [congruence |].
  intros _ Hall. inversion Hall as [| ? ? [Hseg _] Hrest]; subst.
  destruct segs as [| seg' segs].
  - cbn. apply string_split_seg, Hseg.
  - rewrite join_path_cons, string_split_app by exact Hseg.
    rewrite IH; [reflexivity | discriminate | exact Hrest].
Qed.

Lemma join_path_inj (path path' : list string) (name name' : string) :
  Forall seg_ok (path ++ [name]) -> Forall seg_ok (path' ++ [name']) ->
  join_path (path ++ [name]) = join_path (path' ++ [name']) ->
  path = path' /\ name = name'.
Proof.
  intros H H' E. apply (f_equal (string_split slash)) in E.
  rewrite !split_join in E; try assumption;
    try (intros Hnil; apply app_eq_nil in Hnil as [_ ?]; discriminate).
  apply app_inj_tail in E. exact E.
Qed.

(** ** The group tree *)

Lemma group_at_empty path : group_at path ∅ = None.
Proof. destruct path; reflexivity. Qed.

Lemma unit_at_empty path name : unit_at path name ∅ = None.
Proof. unfold unit_at. rewrite group_at_empty. reflexivity. Qed.

Lemma unit_at_nil name gm : unit_at [] name gm = None.
Proof. reflexivity. Qed.

Lemma unit_at_cons g rest name gm :
  unit_at (g :: rest) name gm
  = match gm !! g with
    | None => None
    | Some grp =>
        match rest with
        | [] => data grp !! name
        | _ => unit_at rest name (groups grp)
        end
    end.
Proof.
  unfold unit_at. cbn [group_at]. destruct (gm !! g); [| reflexivity].
  destruct rest; reflexivity.
Qed.

Lemma group_at_cons g rest gm :
  group_at (g :: rest) gm
  = match gm !! g with
    | None => None
    | Some grp =>
        match rest with
        | [] => Some grp
        | _ => group_at rest (groups grp)
        end
    end.
Proof. reflexivity. Qed.

Lemma hook_in_cons g rest name item gm :
  hook_in (g :: rest) name item gm = <[g := hooked g rest name item gm]> gm.
Proof.
  cbn [hook_in]. unfold hooked. destruct (gm !! g); reflexivity.
Qed.

Ltac decide_positions :=
  repeat case_decide; destruct_and?; simplify_eq;
  try reflexivity; try (exfalso; naive_solver).

Lemma unit_at_hook_in path name item gm path' name' :
  path <> [] ->
  unit_at path' name' (hook_in path name item gm)
  = if decide (path' = path /\ name' = name) then Some item
    else unit_at path' name' gm.
Proof.
  revert gm path'. induction path as [| g rest IH]; [congruence |].
  intros gm path' _. rewrite hook_in_cons.
  destruct path' as [| g' rest'].
  { rewrite !unit_at_nil. decide_positions. }
  rewrite !unit_at_cons.
  destruct (decide (g' = g)) as [-> | Hg].
  2: { rewrite lookup_insert_ne by congruence. decide_positions. }
  rewrite lookup_insert_eq. unfold hooked.
  destruct rest as [| g2 rest].
  - (* the unit is hooked into this group *)
    cbn [data groups].
    destruct rest' as [| g2' rest'].
    + rewrite lookup_insert.
      destruct (gm !! g); cbn [default data]; decide_positions.
    + destruct (gm !! g); cbn [default groups]; rewrite ?unit_at_empty;
        decide_positions.
  - cbn [data groups].
    destruct rest' as [| g2' rest'].
    + destruct (gm !! g); cbn [default data]; decide_positions.
    + rewrite IH by discriminate.
      destruct (gm !! g); cbn [default groups]; rewrite ?unit_at_empty;
        decide_positions.
Qed.

Lemma group_at_below g grp rest gm :
  gm !! g = Some grp -> rest <> [] ->
  group_at (g :: rest) gm = group_at rest (groups grp).
Proof.
  intros Hg Hrest. rewrite group_at_cons, Hg. destruct rest; [congruence | reflexivity].
Qed.

Lemma unit_at_below g grp rest name gm :
  gm !! g = Some grp -> rest <> [] ->
  unit_at (g :: rest) name gm = unit_at rest name (groups grp).
Proof.
  intros Hg Hrest. rewrite unit_at_cons, Hg. destruct rest; [congruence | reflexivity].
Qed.

Lemma all_nonempty_below g grp gm :
  all_nonempty gm -> gm !! g = Some grp -> all_nonempty (groups grp).
Proof.
  intros Hall Hg path g' H. destruct path as [| g2 rest]; [discriminate |].
  apply (Hall (g :: g2 :: rest)). rewrite (group_at_below g grp) by (auto; discriminate).
  exact H.
Qed.

Lemma keys_named_below g grp gm :
  keys_named gm -> gm !! g = Some grp -> keys_named (groups grp).
Proof.
  intros Hall Hg path g' H. destruct path as [| g2 rest]; [discriminate |].
  rewrite <- (Hall (g :: g2 :: rest) g'); [reflexivity |].
  rewrite (group_at_below g grp) by (auto; discriminate). exact H.
Qed.

Lemma keys_named_top g grp gm :
  keys_named gm -> gm !! g = Some grp -> groupname grp = g.
Proof.
  intros Hall Hg. specialize (Hall [g] grp). cbn in Hall. rewrite Hg in Hall.
  specialize (Hall eq_refl). congruence.
Qed.

Lemma all_nonempty_empty : all_nonempty ∅.
Proof. intros path g H. rewrite group_at_empty in H. discriminate. Qed.

Lemma keys_named_empty : keys_named ∅.
Proof. intros path g H. rewrite group_at_empty in H. discriminate. Qed.

Lemma groupempty_false_data n gs (ds : gmap string ptr) name item :
  groupempty (mkGroup n gs (<[name := item]> ds)) = false.
Proof.
  unfold groupempty. cbn [groups data]. apply andb_false_iff. right.
  apply bool_decide_eq_false_2, insert_non_empty.
Qed.

Lemma groupempty_false_groups n (gs : gmap string DataGroup) ds g grp :
  groupempty (mkGroup n (<[g := grp]> gs) ds) = false.
Proof.
  unfold groupempty. cbn [groups data]. apply andb_false_iff. left.
  apply bool_decide_eq_false_2, insert_non_empty.
Qed.

(** a group of the tree after [hook_in] is a group of the tree before, or
    a group on the walk *)
Lemma group_at_hook_in path name item gm path' g' :
  path <> [] ->
  group_at path' (hook_in path name item gm) = Some g' ->
  group_at path' gm = Some g' \/
  (groupempty g' = false /\ (keys_named gm -> last path' = Some (groupname g'))).
Proof.
  revert gm path' g'. induction path as [| g rest IH]; [congruence |].
  intros gm path' g' _. rewrite hook_in_cons.
  destruct path' as [| g1 rest']; [discriminate |].
  rewrite !group_at_cons.
  destruct (decide (g1 = g)) as [-> | Hg].
  2: { rewrite lookup_insert_ne by congruence. auto. }
  rewrite lookup_insert_eq.
  destruct rest' as [| g2' rest'].
  - (* the group of the walk itself *)
    intros [= <-]. right. split.
    + unfold hooked. destruct rest as [| g2 rest].
      * apply groupempty_false_data.
      * rewrite hook_in_cons. apply groupempty_false_groups.
    + intros Hkeys. cbn [last]. f_equal. unfold hooked.
      destruct (gm !! g) as [grp |] eqn:E; cbn [default].
      * rewrite <- (keys_named_top g grp gm Hkeys E) at 1.
        destruct rest; reflexivity.
      * destruct rest; reflexivity.
  - unfold hooked. destruct rest as [| g2 rest]; cbn [groups].
    + destruct (gm !! g) as [grp |]; cbn [default groups]; [auto |].
      rewrite group_at_empty. discriminate.
    + intros H. apply IH in H; [| discriminate].
      destruct (gm !! g) as [grp |] eqn:E; cbn [default groups] in H.
      * destruct H as [H | [H1 H2]]; [left; exact H |].
        right. split; [exact H1 |]. intros Hkeys.
        apply H2. eapply keys_named_below; eauto.
      * destruct H as [H | [H1 H2]].
        -- rewrite group_at_empty in H. discriminate.
        -- right. split; [exact H1 |]. intros _. apply H2, keys_named_empty.
Qed.

Lemma hook_in_all_nonempty path name item gm :
  path <> [] -> all_nonempty gm -> all_nonempty (hook_in path name item gm).
Proof.
  intros Hp Hall path' g' H.
  apply group_at_hook_in in H as [H | [H _]]; [eapply Hall; eauto | exact H | exact Hp].
Qed.

Lemma hook_in_keys_named path name item gm :
  path <> [] -> keys_named gm -> keys_named (hook_in path name item gm).
Proof.
  intros Hp Hall path' g' H.
  apply group_at_hook_in in H as [H | [_ H]]; [eapply Hall; eauto | auto | exact Hp].
Qed.

Lemma erase_and_clean_cons g rest name gm :
  erase_and_clean (g :: rest) name gm
  = match gm !! g with
    | None => gm
    | Some curgroup =>
        if groupempty (cleaned rest name curgroup)
        then delete (groupname curgroup) gm
        else <[g := cleaned rest name curgroup]> gm
    end.
Proof.
  cbn [erase_and_clean]. destruct (gm !! g) as [curgroup |]; [| reflexivity].
  unfold cleaned. destruct rest; reflexivity.
Qed.

Lemma groupempty_true g :
  groupempty g = true -> groups g = ∅ /\ data g = ∅.
Proof.
  unfold groupempty. intros H. apply andb_prop in H as [H1 H2].
  split; eapply bool_decide_eq_true_1; eassumption.
Qed.

Ltac position_cases H :=
  match goal with
  | |- context [@decide (?P /\ ?Q) ?inst] =>
      destruct (@decide (P /\ Q) inst) as [H | H]
  end.

Lemma unit_at_erase_and_clean path name gm path' name' :
  keys_named gm ->
  unit_at path' name' (erase_and_clean path name gm)
  = if decide (path' = path /\ name' = name) then None
    else unit_at path' name' gm.
Proof.
  revert gm path'. induction path as [| g rest IH]; intros gm path' Hkeys.
  { cbn [erase_and_clean]. decide_positions. }
  rewrite erase_and_clean_cons.
  destruct (gm !! g) as [curgroup |] eqn:Hg.
  2: { destruct path' as [| g1 rest']; [decide_positions |].
       position_cases Hpos; [| reflexivity].
       destruct Hpos as [[= -> ->] ->]. rewrite unit_at_cons, Hg. reflexivity. }
  pose proof (keys_named_top g curgroup gm Hkeys Hg) as Hname.
  pose proof (keys_named_below g curgroup gm Hkeys Hg) as Hbelow.
  destruct path' as [| g1 rest'].
  { rewrite !unit_at_nil. decide_positions. }
  destruct (groupempty (cleaned rest name curgroup)) eqn:Hempty.
  - (* the group is pruned *)
    rewrite Hname. rewrite !unit_at_cons.
    destruct (decide (g1 = g)) as [-> | Hne].
    2: { rewrite lookup_delete_ne by congruence. decide_positions. }
    rewrite lookup_delete_eq, Hg.
    apply groupempty_true in Hempty as [Hgs Hds].
    unfold cleaned in Hgs, Hds.
    destruct rest as [| g2 rest]; cbn [groups data] in Hgs, Hds.
    + destruct rest' as [| g2' rest'].
      * position_cases Hpos; [reflexivity |].
        assert (Hn : name' <> name) by (intros ->; apply Hpos; auto).
        rewrite <- (lookup_delete_ne (data curgroup) name name') by congruence.
        rewrite Hds. reflexivity.
      * rewrite Hgs, unit_at_empty. decide_positions.
    + destruct rest' as [| g2' rest'].
      * rewrite Hds, lookup_empty. decide_positions.
      * specialize (IH (groups curgroup) (g2' :: rest') Hbelow).
        rewrite Hgs, unit_at_empty in IH.
        position_cases Hpos; [reflexivity |].
        rewrite decide_False in IH by (intros [[= ? ?] ?]; apply Hpos; split; congruence).
        congruence.
  - rewrite !unit_at_cons.
    destruct (decide (g1 = g)) as [-> | Hne].
    2: { rewrite lookup_insert_ne by congruence. decide_positions. }
    rewrite lookup_insert_eq, Hg. unfold cleaned.
    destruct rest as [| g2 rest]; cbn [groups data].
    + destruct rest' as [| g2' rest'].
      * rewrite lookup_delete. decide_positions.
      * decide_positions.
    + destruct rest' as [| g2' rest'].
      * decide_positions.
      * rewrite IH by exact Hbelow. decide_positions.
Qed.

(** a group of the tree after [erase_and_clean] is a group of the tree
    before, or what is left of one and not empty *)
Lemma group_at_erase_and_clean path name gm path' g' :
  group_at path' (erase_and_clean path name gm) = Some g' ->
  group_at path' gm = Some g' \/
  (groupempty g' = false /\
   exists g0, group_at path' gm = Some g0 /\ groupname g' = groupname g0).
Proof.
  revert gm path' g'. induction path as [| g rest IH]; intros gm path' g'.
  { cbn [erase_and_clean]. auto. }
  rewrite erase_and_clean_cons.
  destruct (gm !! g) as [curgroup |] eqn:Hg; [| auto].
  destruct path' as [| g1 rest']; [discriminate |].
  destruct (groupempty (cleaned rest name curgroup)) eqn:Hempty.
  - rewrite !group_at_cons.
    destruct (decide (g1 = groupname curgroup)) as [-> | Hne].
    + rewrite lookup_delete_eq. discriminate.
    + rewrite lookup_delete_ne by congruence. auto.
  - rewrite !group_at_cons.
    destruct (decide (g1 = g)) as [-> | Hne].
    2: { rewrite lookup_insert_ne by congruence. auto. }
    rewrite lookup_insert_eq, Hg.
    destruct rest' as [| g2' rest'].
    + intros [= <-]. right. split; [exact Hempty |].
      exists curgroup. split; [reflexivity |]. unfold cleaned. destruct rest; reflexivity.
    + unfold cleaned. destruct rest as [| g2 rest]; cbn [groups]; [auto |].
      intros H. apply IH in H. exact H.
Qed.

Lemma erase_and_clean_all_nonempty path name gm :
  all_nonempty gm -> all_nonempty (erase_and_clean path name gm).
Proof.
  intros Hall path' g' H.
  apply group_at_erase_and_clean in H as [H | [H _]]; [eapply Hall; eauto | exact H].
Qed.

Lemma erase_and_clean_keys_named path name gm :
  keys_named gm -> keys_named (erase_and_clean path name gm).
Proof.
  intros Hall path' g' H.
  apply group_at_erase_and_clean in H as [H | (_ & g0 & H & Hn)];
    [eapply Hall; eauto |].
  rewrite Hn. eapply Hall; eauto.
Qed.

(** ** The hierarchy invariant *)

Lemma hierarchy_ok_new sysid : hierarchy_ok (MavSystem_new sysid).
Proof.
  split; cbn.
  - intros path name p. rewrite unit_at_empty. discriminate.
  - intros full p. rewrite lookup_empty. discriminate.
  - apply all_nonempty_empty.
  - apply keys_named_empty.
  - intros path name p. rewrite unit_at_empty. discriminate.
  - intros path name p. rewrite unit_at_empty. discriminate.
Qed.

Lemma hierarchy_ok_heap s h :
  hierarchy_ok s ->
  (forall p d, heap s !! p = Some d ->
     exists d', h !! p = Some d' /\ get_name d' = get_name d /\
                get_parent d' = get_parent d) ->
  hierarchy_ok (with_heap h s).
Proof.
  intros [H1 H2 H3 H4 H5 H6] Hh. split; cbn; try assumption.
  intros path name p Hp. destruct (H6 path name p Hp) as (d & Hd & Hn & Hpar).
  destruct (Hh p d Hd) as (d' & Hd' & Hn' & Hpar').
  exists d'. split; [exact Hd' |]. split; congruence.
Qed.

Lemma hierarchy_ok_alloc s d : hierarchy_ok s -> hierarchy_ok (alloc d s).2.
Proof.
  intros Hok. cbn. apply hierarchy_ok_heap; [exact Hok |].
  intros p d0 Hd0. exists d0. split; [| auto].
  rewrite lookup_insert_ne; [exact Hd0 |]. intros <-.
  pose proof (alloc_fresh d s) as Hf. cbn in Hf. congruence.
Qed.

Lemma hierarchy_ok_method s f p :
  hierarchy_ok s ->
  (forall d, get_name (f d) = get_name d /\ get_parent (f d) = get_parent d) ->
  hierarchy_ok (on_unit f p s).
Proof.
  intros Hok Hf. apply hierarchy_ok_heap; [exact Hok |].
  intros q d Hd. rewrite lookup_alter. case_decide; subst.
  - rewrite Hd. cbn. exists (f d). split; [reflexivity | apply Hf].
  - exists d. auto.
Qed.

Lemma register_as_performed s fullname item d path :
  heap s !! item = Some d -> path <> [] ->
  Forall seg_ok (path ++ [get_name d]) ->
  fullname = join_path (path ++ [get_name d]) ->
  string_trim fullname = fullname ->
  _data_register_hierarchy fullname item s
  = with_store (<[fullname := item]> (_data_from_path s))
      (hook_in path (get_name d) item (mav_data_groups s))
      (<[item := set_parent (Some path) d]> (heap s)) s.
Proof.
  intros Hd Hp Hsegs Hfull Htrim. unfold _data_register_hierarchy.
  assert (Hsplit : removelast (string_split slash fullname) = path).
  { rewrite Hfull, split_join;
      [apply removelast_last
      | intros E; apply app_eq_nil in E as [_ ?]; discriminate
      | exact Hsegs]. }
  rewrite Htrim, Hd, Hsplit. destruct path; [congruence | reflexivity].
Qed.

Lemma hierarchy_ok_register s fullname item :
  hierarchy_ok s -> registration_ok s fullname item ->
  hierarchy_ok (_data_register_hierarchy fullname item s).
Proof.
  intros [H1 H2 H3 H4 H5 H6] (d & path & Hd & Hp & Hsegs & Hfull & Htrim & Hnew).
  rewrite (register_as_performed s fullname item d path Hd Hp Hsegs Hfull Htrim).
  split; cbn [with_store _data_from_path mav_data_groups heap].
  - intros path' name' p. rewrite unit_at_hook_in by exact Hp.
    position_cases Hpos.
    + destruct Hpos as [-> ->]. intros [= <-]. rewrite Hfull. apply lookup_insert_eq.
    + intros Hu. rewrite lookup_insert_ne; [apply H1, Hu |].
      rewrite Hfull. intros E.
      apply join_path_inj in E; [| exact Hsegs | eapply H5; eauto].
      apply Hpos. destruct E; auto.
  - intros full p. rewrite lookup_insert. case_decide as E.
    + intros [= <-]. exists path, (get_name d). split; [congruence |].
      rewrite unit_at_hook_in by exact Hp. rewrite decide_True by auto. reflexivity.
    + intros Hf. destruct (H2 full p Hf) as (path' & name' & Hfull' & Hu).
      exists path', name'. split; [exact Hfull' |].
      rewrite unit_at_hook_in by exact Hp. position_cases Hpos; [| exact Hu].
      destruct Hpos as [-> ->]. congruence.
  - apply hook_in_all_nonempty; assumption.
  - apply hook_in_keys_named; assumption.
  - intros path' name' p. rewrite unit_at_hook_in by exact Hp.
    position_cases Hpos.
    + destruct Hpos as [-> ->]. intros _. exact Hsegs.
    + apply H5.
  - intros path' name' p. rewrite unit_at_hook_in by exact Hp.
    position_cases Hpos.
    + destruct Hpos as [-> ->]. intros [= <-].
      rewrite lookup_insert_eq. eexists. split; [reflexivity |]. auto.
    + intros Hu. destruct (H6 _ _ _ Hu) as (d' & Hd' & Hn & Hpar).
      exists d'. split; [| auto].
      rewrite lookup_insert_ne; [exact Hd' |].
      intros <-. apply (Hnew (join_path (path' ++ [name']))). apply H1, Hu.
Qed.

Lemma del_data_as_performed s src d path :
  heap s !! src = Some d -> get_parent d = Some path ->
  is_Some (unit_at path (get_name d) (mav_data_groups s)) ->
  _del_data src s
  = with_store (delete (join_path (path ++ [get_name d])) (_data_from_path s))
      (erase_and_clean path (get_name d) (mav_data_groups s))
      (delete src (heap s)) s.
Proof.
  intros Hd Hpar [q Hq]. unfold _del_data, _data_unregister_hierarchy.
  rewrite Hd. cbn [with_store heap mav_data_groups _data_from_path].
  rewrite Hd, Hpar, Hq. unfold get_fullname. rewrite Hpar. reflexivity.
Qed.

Lemma hierarchy_ok_del s src full :
  hierarchy_ok s -> _data_from_path s !! full = Some src ->
  hierarchy_ok (_del_data src s).
Proof.
  intros [H1 H2 H3 H4 H5 H6] Hsrc.
  destruct (H2 full src Hsrc) as (path & name & Hfull & Hu).
  destruct (H6 path name src Hu) as (d & Hd & Hn & Hpar).
  pose proof (H5 path name src Hu) as Hsegs.
  rewrite (del_data_as_performed s src d path Hd Hpar) by (rewrite Hn; eauto).
  rewrite Hn.
  split; cbn [with_store _data_from_path mav_data_groups heap].
  - intros path' name' p. rewrite unit_at_erase_and_clean by exact H4.
    position_cases Hpos; [discriminate |].
    intros Hu'. rewrite lookup_delete_ne; [apply H1, Hu' |].
    intros E. apply join_path_inj in E; [| exact Hsegs | eapply H5; eauto].
    apply Hpos. destruct E; auto.
  - intros full' p. rewrite lookup_delete. case_decide as E; [discriminate |].
    intros Hf. destruct (H2 full' p Hf) as (path' & name' & Hfull' & Hu').
    exists path', name'. split; [exact Hfull' |].
    rewrite unit_at_erase_and_clean by exact H4.
    position_cases Hpos; [| exact Hu'].
    destruct Hpos as [-> ->]. congruence.
  - apply erase_and_clean_all_nonempty; assumption.
  - apply erase_and_clean_keys_named; assumption.
  - intros path' name' p. rewrite unit_at_erase_and_clean by exact H4.
    position_cases Hpos; [discriminate | apply H5].
  - intros path' name' p. rewrite unit_at_erase_and_clean by exact H4.
    position_cases Hpos; [discriminate |].
    intros Hu'. destruct (H6 _ _ _ Hu') as (d' & Hd' & Hn' & Hpar').
    exists d'. split; [| auto].
    rewrite lookup_delete_ne; [exact Hd' |].
    intros <-. apply Hpos. split; congruence.
Qed.

Lemma hierarchy_run_ok s : hierarchy_run s -> hierarchy_ok s.
Proof.
  induction 1.
  - apply hierarchy_ok_new.
  - apply hierarchy_ok_alloc; assumption.
  - apply hierarchy_ok_register; assumption.
  - eapply hierarchy_ok_del; eassumption.
  - apply hierarchy_ok_method; assumption.
Qed.

(** C4 (as the code has it).  After every sequence of registrations of
    units under their own full path (at least one group, the unit not
    registered before) and of removals of registered units by [_del_data],
    the flat map and the group tree correspond: a unit found by walking
    the tree is in the flat map under its full slash-delimited path, every
    unit of the flat map is found in the tree at the place its path names,
    no unit is found at two places or under two paths, and no group without
    child groups and without units is attached anywhere. *)
Theorem hierarchy_invariant (s : MavSystem) :
  hierarchy_run s ->
  (forall path name p,
      unit_at path name (mav_data_groups s) = Some p ->
      _data_from_path s !! join_path (path ++ [name]) = Some p) /\
  (forall full p,
      _data_from_path s !! full = Some p ->
      exists path name,
        full = join_path (path ++ [name]) /\
        unit_at path name (mav_data_groups s) = Some p) /\
  (forall path name path' name' p,
      unit_at path name (mav_data_groups s) = Some p ->
      unit_at path' name' (mav_data_groups s) = Some p ->
      path = path' /\ name = name') /\
  (forall full full' p,
      _data_from_path s !! full = Some p ->
      _data_from_path s !! full' = Some p -> full = full') /\
  (forall path g,
      group_at path (mav_data_groups s) = Some g -> groupempty g = false).
Proof.
  intros Hrun. destruct (hierarchy_run_ok s Hrun) as [H1 H2 H3 H4 H5 H6].
  assert (Hplace : forall path name path' name' p,
             unit_at path name (mav_data_groups s) = Some p ->
             unit_at path' name' (mav_data_groups s) = Some p ->
             path = path' /\ name = name').
  { intros path name path' name' p Hu Hu'.
    destruct (H6 _ _ _ Hu) as (d & Hd & Hn & Hpar).
    destruct (H6 _ _ _ Hu') as (d' & Hd' & Hn' & Hpar').
    split; congruence. }
  split; [exact H1 |]. split; [exact H2 |]. split; [exact Hplace |].
  split; [| exact H3].
  intros full full' p Hf Hf'.
  destruct (H2 _ _ Hf) as (path & name & -> & Hu).
  destruct (H2 _ _ Hf') as (path' & name' & -> & Hu').
  destruct (Hplace _ _ _ _ _ Hu Hu') as [-> ->]. reflexivity.
Qed.

Lemma not_registered_by_evaluation (s : MavSystem) (item : ptr) :
  map_Forall (fun (_ : string) p => p <> item) (_data_from_path s) ->
  forall full, _data_from_path s !! full <> Some item.
Proof. intros H full Hf. exact (H full item Hf eq_refl). Qed.

Lemma first_unit_removed_run : hierarchy_run first_unit_removed.
Proof.
  apply (run_del _ 0%nat "power/battery_voltage"); [| vm_compute; reflexivity].
  apply run_register.
  - apply run_alloc. apply run_register.
    + apply run_alloc, run_new.
    + exists (unit_named "battery_voltage"), ["power"%string].
      split; [vm_compute; reflexivity |]. split; [discriminate |].
      split; [repeat constructor; discriminate |].
      split; [reflexivity |]. split; [reflexivity |].
      apply not_registered_by_evaluation.
      apply (bool_decide_unpack _). vm_compute. exact I.
  - exists (unit_named "battery_current"), ["power"%string].
    split; [vm_compute; reflexivity |]. split; [discriminate |].
    split; [repeat constructor; discriminate |].
    split; [reflexivity |]. split; [reflexivity |].
    apply not_registered_by_evaluation.
    apply (bool_decide_unpack _). vm_compute. exact I.
Qed.

Lemma hierarchy_invariant_witness :
  (forall full p,
      _data_from_path first_unit_removed !! full = Some p ->
      exists path name,
        full = join_path (path ++ [name]) /\
        unit_at path name (mav_data_groups first_unit_removed) = Some p) /\
  (forall path g,
      group_at path (mav_data_groups first_unit_removed) = Some g ->
      groupempty g = false).
Proof.
  destruct (hierarchy_invariant first_unit_removed first_unit_removed_run)
    as (_ & H2 & _ & _ & H5).
  split; [exact H2 | exact H5].
Defined.

(** C4 as stated fails: a path without a slash names no group, so the unit
    enters the flat map and the walk returns before it is hooked into the
    tree. *)
Lemma registration_without_group_not_in_tree :
  _data_from_path top_level_unit !! "battery_voltage"%string = Some 0%nat /\
  forall path name, unit_at path name (mav_data_groups top_level_unit) <> Some 0%nat.
Proof.
  split; [vm_compute; reflexivity |].
  intros path name.
  change (mav_data_groups top_level_unit) with (∅ : gmap string DataGroup).
  rewrite unit_at_empty. discriminate.
Qed.

(** the systems that registrations and removals lead to have the store
    that the track calls and the passes rely on *)
Lemma hierarchy_ok_store_ok (s : MavSystem) : hierarchy_ok s -> store_ok s.
Proof.
  intros [H1 H2 H3 H4 H5 H6]. split.
  - intros full p Hf. destruct (H2 _ _ Hf) as (path & name & _ & Hu).
    destruct (H6 _ _ _ Hu) as (d & Hd & _). eauto.
  - intros full full' p Hf Hf'.
    destruct (H2 _ _ Hf) as (path & name & -> & Hu).
    destruct (H2 _ _ Hf') as (path' & name' & -> & Hu').
    destruct (H6 _ _ _ Hu) as (d & Hd & Hn & Hpar).
    destruct (H6 _ _ _ Hu') as (d' & Hd' & Hn' & Hpar').
    assert (d = d') by congruence. subst d'.
    assert (path = path') by congruence. subst. reflexivity.
Qed.

(** ** Registering and deleting *)

Lemma group_eta (g : DataGroup) : mkGroup (groupname g) (groups g) (data g) = g.
Proof. destruct g; reflexivity. Qed.

Lemma groupname_hooked g rest name item gm :
  groupname (hooked g rest name item gm)
  = groupname (default (mkGroup g ∅ ∅) (gm !! g)).
Proof. unfold hooked. destruct rest; reflexivity. Qed.

Lemma erase_and_clean_hook_in path name item gm :
  path <> [] -> all_nonempty gm -> keys_named gm ->
  unit_at path name gm = None ->
  erase_and_clean path name (hook_in path name item gm) = gm.
Proof.
  revert gm. induction path as [| g rest IH]; [congruence |].
  intros gm _ Hne Hkeys Hu.
  rewrite hook_in_cons, erase_and_clean_cons, lookup_insert_eq.
  rewrite unit_at_cons in Hu.
  rewrite groupname_hooked.
  destruct (gm !! g) as [grp |] eqn:Hg; cbn [default].
  - pose proof (keys_named_top g grp gm Hkeys Hg) as Hname.
    pose proof (Hne [g] grp) as Hgrp. cbn in Hgrp. rewrite Hg in Hgrp.
    specialize (Hgrp eq_refl).
    assert (Hback : cleaned rest name (hooked g rest name item gm) = grp).
    { unfold hooked, cleaned. rewrite Hg. cbn [default].
      destruct rest as [| g2 rest]; cbn [groupname groups data].
      - rewrite delete_insert_id by exact Hu. apply group_eta.
      - rewrite IH; [apply group_eta | discriminate
                    | eapply all_nonempty_below; eauto
                    | eapply keys_named_below; eauto | exact Hu]. }
    rewrite Hback, Hgrp, insert_insert_eq. apply insert_id, Hg.
  - assert (Hback : cleaned rest name (hooked g rest name item gm) = mkGroup g ∅ ∅).
    { unfold hooked, cleaned. rewrite Hg. cbn [default].
      destruct rest as [| g2 rest]; cbn [groupname groups data].
      - rewrite delete_insert_id by apply lookup_empty. reflexivity.
      - rewrite IH; [reflexivity | discriminate | apply all_nonempty_empty
                    | apply keys_named_empty | apply unit_at_empty]. }
    rewrite Hback. cbn. apply delete_insert_id, Hg.
Qed.

Lemma with_store_id (s : MavSystem) :
  with_store (_data_from_path s) (mav_data_groups s) (heap s) s = s.
Proof. destruct s; reflexivity. Qed.

(** X1.  Registering a newly created unit under a free, well-formed path
    and deleting it again restores the system exactly: the flat map, the
    group tree (every group created for the unit is pruned, no other group
    is touched) and the heap are what they were. *)
Theorem register_then_delete_restores
    (s : MavSystem) (d : Data) (path : grouppath) :
  hierarchy_ok s ->
  path <> [] ->
  Forall seg_ok (path ++ [get_name d]) ->
  string_trim (join_path (path ++ [get_name d])) = join_path (path ++ [get_name d]) ->
  _data_from_path s !! join_path (path ++ [get_name d]) = None ->
  _del_data (alloc d s).1
    (_data_register_hierarchy (join_path (path ++ [get_name d])) (alloc d s).1
       (alloc d s).2) = s.
Proof.
  intros Hok Hp Hsegs Htrim Hfree.
  pose proof (alloc_fresh d s) as Hfresh.
  set (p := (alloc d s).1) in *.
  set (full := join_path (path ++ [get_name d])) in *.
  assert (Hd : heap (alloc d s).2 !! p = Some d) by apply lookup_insert_eq.
  rewrite (register_as_performed _ full p d path Hd Hp Hsegs eq_refl Htrim).
  cbn [alloc snd with_heap with_store _data_from_path mav_data_groups heap].
  destruct Hok as [H1 H2 H3 H4 H5 H6].
  assert (Hu : unit_at path (get_name d) (mav_data_groups s) = None).
  { destruct (unit_at path (get_name d) (mav_data_groups s)) as [q |] eqn:E;
      [| reflexivity].
    apply H1 in E. fold full in E. congruence. }
  erewrite (del_data_as_performed _ p (set_parent (Some path) d) path).
  - cbn [with_store _data_from_path mav_data_groups heap set_parent get_name].
    fold full. rewrite delete_insert_id by exact Hfree.
    rewrite erase_and_clean_hook_in by assumption.
    rewrite delete_insert_eq, delete_insert_id by exact Hfresh.
    destruct s; reflexivity.
  - apply lookup_insert_eq.
  - reflexivity.
  - cbn [with_store mav_data_groups set_parent get_name].
    rewrite unit_at_hook_in by exact Hp. rewrite decide_True by auto. eauto.
Qed.

Lemma view_alloc d s : store_ok s -> view (alloc d s).2 = view s.
Proof.
  intros [Hlive _]. apply map_eq. intros k. rewrite !view_lookup. cbn.
  destruct (_data_from_path s !! k) as [q |] eqn:E; [| reflexivity]. cbn.
  rewrite lookup_insert_ne; [reflexivity |].
  intros <-. destruct (Hlive _ _ E) as [d0 Hd0].
  pose proof (alloc_fresh d s) as Hf. cbn in Hf. congruence.
Qed.

Lemma view_register s fullname item d path :
  store_ok s ->
  heap s !! item = Some d -> path <> [] ->
  Forall seg_ok (path ++ [get_name d]) ->
  fullname = join_path (path ++ [get_name d]) ->
  string_trim fullname = fullname ->
  (forall full, _data_from_path s !! full <> Some item) ->
  view (_data_register_hierarchy fullname item s)
  = <[fullname := set_parent (Some path) d]> (view s).
Proof.
  intros Hok Hd Hp Hsegs Hfull Htrim Hnew.
  rewrite (register_as_performed s fullname item d path Hd Hp Hsegs Hfull Htrim).
  apply map_eq. intros k. rewrite view_lookup.
  cbn [with_store _data_from_path heap].
  destruct (decide (k = fullname)) as [-> | Hk].
  - rewrite !lookup_insert_eq. cbn. apply lookup_insert_eq.
  - rewrite !lookup_insert_ne by congruence. rewrite view_lookup.
    destruct (_data_from_path s !! k) as [q |] eqn:E; [| reflexivity]. cbn.
    rewrite lookup_insert_ne; [reflexivity |]. intros <-. exact (Hnew _ E).
Qed.

Lemma view_del s src full :
  hierarchy_ok s -> _data_from_path s !! full = Some src ->
  view (_del_data src s) = delete full (view s) /\
  heap (_del_data src s) !! src = None.
Proof.
  intros Hok Hsrc. pose proof (hierarchy_ok_store_ok s Hok) as [_ Hinj].
  destruct Hok as [H1 H2 H3 H4 H5 H6].
  destruct (H2 full src Hsrc) as (path & name & Hfull & Hu).
  destruct (H6 path name src Hu) as (d & Hd & Hn & Hpar).
  rewrite (del_data_as_performed s src d path Hd Hpar) by (rewrite Hn; eauto).
  rewrite Hn, <- Hfull. cbn [with_store _data_from_path heap].
  split; [| apply lookup_delete_eq].
  apply map_eq. intros k. rewrite view_lookup.
  cbn [with_store _data_from_path heap].
  destruct (decide (k = full)) as [-> | Hk].
  - rewrite !lookup_delete_eq. reflexivity.
  - rewrite !lookup_delete_ne by congruence. rewrite view_lookup.
    destruct (_data_from_path s !! k) as [q |] eqn:E; [| reflexivity]. cbn.
    rewrite lookup_delete_ne; [reflexivity |]. intros <-.
    apply Hk. eapply Hinj; eauto.
Qed.

Lemma set_parent_same d path : get_parent d = Some path -> set_parent (Some path) d = d.
Proof. destruct d; cbn. intros ->. reflexivity. Qed.

Lemma placed_fullname d path :
  get_parent d = Some path -> get_fullname d = join_path (path ++ [get_name d]).
Proof. unfold get_fullname. intros ->. reflexivity. Qed.

(** registering a fresh copy of [src] in a system that holds nothing at
    its path *)
Lemma register_copy src s :
  hierarchy_ok s -> placed src ->
  let s' := _data_register_hierarchy (get_fullname src) (alloc src s).1 (alloc src s).2 in
  hierarchy_ok s' /\ view s' = <[get_fullname src := src]> (view s).
Proof.
  intros Hok (path & Hpar & Hp & Hsegs & Htrim).
  pose proof (hierarchy_ok_store_ok s Hok) as Hstore.
  pose proof (alloc_fresh src s) as Hfresh.
  assert (Hd : heap (alloc src s).2 !! (alloc src s).1 = Some src)
    by apply lookup_insert_eq.
  assert (Hnew : forall full, _data_from_path (alloc src s).2 !! full
                              <> Some (alloc src s).1).
  { intros full Hf. cbn [alloc snd with_heap with_store _data_from_path] in Hf.
    destruct Hstore as [Hlive _]. destruct (Hlive _ _ Hf) as [d0 Hd0]. congruence. }
  pose proof (placed_fullname src path Hpar) as Hfull.
  split.
  - apply hierarchy_ok_register; [apply hierarchy_ok_alloc, Hok |].
    exists src, path. repeat split; assumption.
  - rewrite (view_register _ _ _ src path); try assumption.
    + rewrite set_parent_same by exact Hpar. rewrite view_alloc by exact Hstore.
      reflexivity.
    + apply hierarchy_ok_store_ok, hierarchy_ok_alloc, Hok.
Qed.

Lemma add_data_vacant src s :
  hierarchy_ok s -> placed src ->
  (forall d, view s !! get_fullname src = Some d -> is_present d = false) ->
  (_add_data src s).1 = true /\
  hierarchy_ok (_add_data src s).2 /\
  view (_add_data src s).2 = <[get_fullname src := src]> (view s).
Proof.
  intros Hok Hsrc Hempty. unfold _add_data.
  destruct (_get_data (get_fullname src) s) as [[p mydata] |] eqn:E.
  - assert (Hv : view s !! get_fullname src = Some mydata).
    { apply view_get_Some. eauto. }
    rewrite (Hempty _ Hv).
    apply get_data_Some in E as [Hf Hh].
    destruct (view_del s p _ Hok Hf) as [Hview _].
    pose proof (hierarchy_ok_del s p _ Hok Hf) as Hok1.
    destruct (register_copy src (_del_data p s) Hok1 Hsrc) as [Hok2 Hview2].
    cbn zeta in Hok2, Hview2.
    destruct (alloc src (_del_data p s)) as [q s2] eqn:Ea.
    cbn [fst snd] in *. split; [reflexivity |]. split; [exact Hok2 |].
    rewrite Hview2, Hview. apply insert_delete_eq.
  - destruct (register_copy src s Hok Hsrc) as [Hok2 Hview2].
    destruct (alloc src s) as [q s2] eqn:Ea.
    cbn [fst snd] in *. auto.
Qed.

Lemma in_key_order_NoDup (m : gmap string ptr) : NoDup (in_key_order m).*1.
Proof.
  unfold in_key_order.
  rewrite (merge_sort_Permutation key_le (map_to_list m)).
  apply NoDup_fst_map_to_list.
Qed.

Lemma in_key_order_empty : in_key_order ∅ = [].
Proof.
  apply length_zero_iff_nil. rewrite length_in_key_order. apply map_size_empty.
Qed.

(** a unit of a well-formed system knows its place *)
Lemma hierarchy_ok_placed s full p :
  hierarchy_ok s -> trimmed_keys s -> _data_from_path s !! full = Some p ->
  exists d, heap s !! p = Some d /\ get_fullname d = full /\ placed d.
Proof.
  intros [H1 H2 H3 H4 H5 H6] Htrim Hf.
  destruct (H2 full p Hf) as (path & name & Hfull & Hu).
  destruct (H6 path name p Hu) as (d & Hd & Hn & Hpar).
  pose proof (H5 path name p Hu) as Hsegs.
  assert (Hfn : get_fullname d = full).
  { rewrite (placed_fullname d path Hpar), Hn. auto. }
  exists d. split; [exact Hd |]. split; [exact Hfn |].
  exists path. split; [exact Hpar |]. split.
  - intros ->. rewrite unit_at_nil in Hu. discriminate.
  - split; [rewrite Hn; exact Hsegs |]. rewrite Hfn. eapply Htrim; eauto.
Qed.

Lemma members_register fullname item s :
  members (_data_register_hierarchy fullname item s) = members s.
Proof.
  unfold _data_register_hierarchy.
  destruct (removelast _), (heap s !! item); reflexivity.
Qed.

Lemma members_del src s : members (_del_data src s) = members s.
Proof.
  unfold _del_data, _data_unregister_hierarchy.
  destruct (heap s !! src) as [d |] eqn:E; [| reflexivity].
  cbn [with_store heap]. rewrite E.
  destruct (get_parent d); [| reflexivity].
  cbn [with_store mav_data_groups].
  destruct (unit_at _ _ _); reflexivity.
Qed.

Lemma members_add_data src s : members (_add_data src s).2 = members s.
Proof.
  unfold _add_data.
  destruct (_get_data (get_fullname src) s) as [[p mydata] |].
  - destruct (is_present mydata).
    + destruct (data_merge_in mydata src); reflexivity.
    + cbn. rewrite members_register. cbn.
      change (with_store ∅ ∅ ∅ (_del_data p s)) with (members (_del_data p s)).
      apply members_del.
  - cbn. rewrite members_register. reflexivity.
Qed.



(** the walk over units whose paths are all free in the receiving system *)
Lemma merge_fold_vacant other (l : list (string * ptr)) done added (s0 : MavSystem) :
  hierarchy_ok other -> trimmed_keys other ->
  NoDup l.*1 ->
  (forall k p, (k, p) ∈ l -> _data_from_path other !! k = Some p) ->
  hierarchy_ok s0 ->
  (forall k, k ∈ l.*1 -> view s0 !! k = None) ->
  let r := fold_left (merge_step other) l (done, added, s0) in
  r.1.1 = done ++ replicate (length l) true /\
  hierarchy_ok r.2 /\
  members r.2 = members s0 /\
  (forall k, view r.2 !! k
             = if decide (k ∈ l.*1) then view other !! k else view s0 !! k).
Proof.
  intros Hother Htrim. revert done added s0.
  induction l as [| [k p] l IH]; intros done added s0 Hnd Hin Hok Hvac; cbn zeta.
  { cbn. rewrite app_nil_r. split; [reflexivity |]. split; [exact Hok |].
    split; [reflexivity |]. intros k.
    rewrite decide_False by apply not_elem_of_nil. reflexivity. }
  cbn [fold_left]. cbn [fmap list_fmap fst] in Hnd, Hvac |- *.
  apply NoDup_cons in Hnd as [Hk Hnd].
  assert (Hf : _data_from_path other !! k = Some p) by (apply Hin; left).
  destruct (hierarchy_ok_placed other k p Hother Htrim Hf) as (d & Hd & Hfn & Hpl).
  destruct (add_data_vacant d s0 Hok Hpl) as (Hres & Hok1 & Hview1).
  { rewrite Hfn, Hvac by left. discriminate. }
  rewrite Hfn in Hview1.
  assert (Hstep : merge_step other (done, added, s0) (k, p)
                  = (done ++ [true], added || true, (_add_data d s0).2)).
  { unfold merge_step. cbn [snd]. rewrite Hd.
    destruct (_add_data d s0) as [ok s1]. cbn [fst snd] in *. subst ok.
    reflexivity. }
  rewrite Hstep.
  destruct (IH (done ++ [true]) (added || true) (_add_data d s0).2)
    as (Hdone' & Hok' & Hmem' & Hview').
  - exact Hnd.
  - intros k' p' H'. apply Hin. right. exact H'.
  - exact Hok1.
  - intros k' Hk'. rewrite Hview1, lookup_insert_ne by (intros <-; auto).
    apply Hvac. right. exact Hk'.
  - split; [rewrite Hdone', <- app_assoc; reflexivity |].
    split; [exact Hok' |]. split; [rewrite Hmem'; apply members_add_data |].
    intros k'. rewrite Hview', Hview1.
    destruct (decide (k' = k)) as [-> | Hne].
    + rewrite decide_False by exact Hk. rewrite decide_True by left.
      rewrite lookup_insert_eq, view_lookup, Hf. cbn. auto.
    + rewrite lookup_insert_ne by congruence.
      destruct (decide (k' ∈ l.*1)) as [Hl | Hl].
      * rewrite decide_True by (right; exact Hl). reflexivity.
      * rewrite decide_False; [reflexivity |].
        intros H'. apply elem_of_cons in H' as [? | ?]; auto.
Qed.

Lemma view_keys other k :
  k ∈ (in_key_order (_data_from_path other)).*1 <-> is_Some (_data_from_path other !! k).
Proof.
  rewrite list_elem_of_fmap. split.
  - intros ([k' p] & -> & H). apply in_key_order_spec in H. eauto.
  - intros [p H]. exists (k, p). split; [reflexivity | apply in_key_order_spec, H].
Qed.



(** X5.  The walk of [merge_in] over a system whose paths are all free in
    the receiving system adds every unit: each step reports success, and
    afterwards the units by path are those of both systems together, with
    a flat map and a tree that correspond.  The members other than the
    store are left as they were. *)
Theorem merge_loop_disjoint (other s : MavSystem) :
  hierarchy_ok other -> trimmed_keys other -> hierarchy_ok s ->
  (forall k, is_Some (_data_from_path other !! k) -> view s !! k = None) ->
  (merge_loop other s).1.1 = replicate (size (_data_from_path other)) true /\
  view (merge_loop other s).2 = view other ∪ view s /\
  hierarchy_ok (merge_loop other s).2 /\
  members (merge_loop other s).2 = members s.
Proof.
  intros Hother Htrim Hok Hvac. rewrite merge_loop_unfold.
  destruct (merge_fold_vacant other (in_key_order (_data_from_path other))
              [] false s Hother Htrim)
    as (Hdone & Hok' & Hmem & Hview).
  - apply in_key_order_NoDup.
  - intros k p. apply in_key_order_spec.
  - exact Hok.
  - intros k Hk. apply Hvac, view_keys, Hk.
  - rewrite length_in_key_order in Hdone.
    split; [exact Hdone |]. split; [| split; [exact Hok' | exact Hmem]].
    apply map_eq. intros k. rewrite Hview, lookup_union.
    case_decide as Hk.
    + apply view_keys in Hk as [p Hp].
      destruct (hierarchy_ok_placed other k p Hother Htrim Hp) as (d & Hd & _).
      rewrite (view_lookup other), Hp. cbn. rewrite Hd.
      rewrite Hvac by eauto. reflexivity.
    + rewrite (view_lookup other).
      destruct (_data_from_path other !! k) as [p |] eqn:E.
      * exfalso. apply Hk, view_keys. eauto.
      * cbn. destruct (view s !! k); reflexivity.
Qed.

Lemma one_unit_registered_run : hierarchy_run one_unit_registered.
Proof.
  apply run_register; [apply run_alloc, run_new |].
  exists (unit_named "battery_voltage"), ["power"%string].
  split; [vm_compute; reflexivity |]. split; [discriminate |].
  split; [repeat constructor; discriminate |].
  split; [reflexivity |]. split; [reflexivity |].
  apply not_registered_by_evaluation.
  apply (bool_decide_unpack _). vm_compute. exact I.
Qed.

Lemma register_then_delete_restores_witness :
  _del_data 1%nat
    (_data_register_hierarchy "power/battery_current" 1%nat
       (alloc (unit_named "battery_current") one_unit_registered).2)
  = one_unit_registered.
Proof.
  apply (register_then_delete_restores one_unit_registered
           (unit_named "battery_current") ["power"%string]).
  - apply hierarchy_run_ok, one_unit_registered_run.
  - discriminate.
  - repeat constructor; discriminate.
  - reflexivity.
  - vm_compute. reflexivity.
Defined.

(** X2.  [_del_data] removes exactly the unit it is given: in a system
    whose flat map and tree correspond, the path of the unit resolves to
    nothing afterwards, the object is gone, every other path resolves to
    the unit it resolved to, and the correspondence still holds. *)
Theorem del_data_removes_one (s : MavSystem) (src : ptr) (full : string) :
  hierarchy_ok s -> _data_from_path s !! full = Some src ->
  view (_del_data src s) = delete full (view s) /\
  heap (_del_data src s) !! src = None /\
  hierarchy_ok (_del_data src s).
Proof.
  intros Hok Hf. destruct (view_del s src full Hok Hf) as [Hv Hh].
  split; [exact Hv |]. split; [exact Hh |]. eapply hierarchy_ok_del; eauto.
Qed.

Lemma two_units_registered_run : hierarchy_run two_units_registered.
Proof.
  apply run_register; [apply run_alloc, one_unit_registered_run |].
  exists (unit_named "battery_current"), ["power"%string].
  split; [vm_compute; reflexivity |]. split; [discriminate |].
  split; [repeat constructor; discriminate |].
  split; [reflexivity |]. split; [reflexivity |].
  apply not_registered_by_evaluation.
  apply (bool_decide_unpack _). vm_compute. exact I.
Qed.

Lemma del_data_removes_one_witness :
  view first_unit_removed = delete "power/battery_voltage"%string (view two_units_registered) /\
  heap first_unit_removed !! 0%nat = None /\
  hierarchy_ok first_unit_removed.
Proof.
  apply (del_data_removes_one two_units_registered 0%nat "power/battery_voltage").
  - apply hierarchy_run_ok, two_units_registered_run.
  - vm_compute. reflexivity.
Defined.

(** X3.  [_add_data] on a path that holds nothing, or only a unit without
    elements, succeeds, and afterwards the path holds a copy equal to the
    incoming unit; every other path holds what it held, and the flat map
    and the tree still correspond. *)
Theorem add_data_copies (src : Data) (s : MavSystem) :
  hierarchy_ok s -> placed src ->
  (forall d, view s !! get_fullname src = Some d -> is_present d = false) ->
  (_add_data src s).1 = true /\
  view (_add_data src s).2 = <[get_fullname src := src]> (view s) /\
  hierarchy_ok (_add_data src s).2.
Proof.
  intros Hok Hsrc Hempty.
  destruct (add_data_vacant src s Hok Hsrc Hempty) as (H1 & H2 & H3). auto.
Qed.


Lemma add_data_copies_witness :
  (_add_data incoming_voltage one_unit_registered).1 = true /\
  view (_add_data incoming_voltage one_unit_registered).2
  = <[get_fullname incoming_voltage := incoming_voltage]> (view one_unit_registered) /\
  hierarchy_ok (_add_data incoming_voltage one_unit_registered).2.
Proof.
  apply (add_data_copies incoming_voltage one_unit_registered).
  - apply hierarchy_run_ok, one_unit_registered_run.
  - exists ["power"%string]. split; [reflexivity |]. split; [discriminate |].
    split; [repeat constructor; discriminate | reflexivity].
  - intros d. vm_compute. intros [= <-]. reflexivity.
Defined.

Lemma trimmed_keys_by_evaluation (s : MavSystem) :
  map_Forall (fun (full : string) (_ : ptr) => string_trim full = full)
             (_data_from_path s) ->
  trimmed_keys s.
Proof. intros H full p Hf. exact (H full p Hf). Qed.


Lemma cleanup_heap (l : list (string * ptr)) (h : gmap ptr Data) (q : ptr) :
  fold_left (fun h (it : string * ptr) => delete it.2 h) l h !! q
  = if decide (q ∈ l.*2) then None else h !! q.
Proof.
  revert h. induction l as [| [k p] l IH]; intros h; cbn [fold_left].
  { rewrite decide_False by apply not_elem_of_nil. reflexivity. }
  rewrite IH. cbn [fmap list_fmap snd].
  destruct (decide (q ∈ l.*2)) as [Hl | Hl].
  - rewrite decide_True by (right; exact Hl). reflexivity.
  - destruct (decide (q = p)) as [-> | Hne].
    + rewrite decide_True by left. apply lookup_delete_eq.
    + rewrite decide_False by (intros H; apply elem_of_cons in H as [? | ?]; auto).
      apply lookup_delete_ne. congruence.
Qed.

Lemma in_key_order_values (m : gmap string ptr) (p : ptr) :
  p ∈ (in_key_order m).*2 <-> exists path, m !! path = Some p.
Proof.
  rewrite list_elem_of_fmap. split.
  - intros ([k q] & -> & H). exists k. apply in_key_order_spec, H.
  - intros [k H]. exists (k, p). split; [reflexivity | apply in_key_order_spec, H].
Qed.

Lemma cleanup_spec (s : MavSystem) (p : ptr) :
  ((exists path, _data_from_path s !! path = Some p) ->
   heap (_data_cleanup s) !! p = None) /\
  ((forall path, _data_from_path s !! path <> Some p) ->
   heap (_data_cleanup s) !! p = heap s !! p).
Proof.
  unfold _data_cleanup. cbn [with_store heap]. rewrite cleanup_heap. split.
  - intros H. rewrite decide_True; [reflexivity | apply in_key_order_values, H].
  - intros H. rewrite decide_False; [reflexivity |].
    intros [path Hp]%in_key_order_values. exact (H path Hp).
Qed.

(** X6.  [_data_cleanup] empties the flat map and the tree and frees
    exactly the objects that the flat map refers to: an object that no
    path leads to stays allocated. *)
Theorem data_cleanup_frees_registered (s : MavSystem) :
  _data_from_path (_data_cleanup s) = ∅ /\
  mav_data_groups (_data_cleanup s) = ∅ /\
  (forall path p, _data_from_path s !! path = Some p ->
                  heap (_data_cleanup s) !! p = None) /\
  (forall p, (forall path, _data_from_path s !! path <> Some p) ->
             heap (_data_cleanup s) !! p = heap s !! p) /\
  members (_data_cleanup s) = members s.
Proof.
  split; [reflexivity |]. split; [reflexivity |]. split; [| split].
  - intros path p H. apply cleanup_spec. eauto.
  - intros p H. apply cleanup_spec, H.
  - reflexivity.
Qed.

(** X7.  [_data_register_hierarchy] does not look at what a path holds:
    registering a unit under a path that is taken displaces the unit that
    was there.  The displaced object stays allocated, no path leads to it
    any more, and [_data_cleanup] does not free it. *)
Theorem register_over_taken_path_leaks
    (s : MavSystem) (full : string) (item q : ptr) (dq : Data) :
  store_ok s ->
  _data_from_path s !! full = Some q -> heap s !! q = Some dq -> item <> q ->
  let s' := _data_register_hierarchy full item s in
  _data_from_path s' !! full = Some item /\
  (forall path, _data_from_path s' !! path <> Some q) /\
  heap s' !! q = Some dq /\
  heap (_data_cleanup s') !! q = Some dq.
Proof.
  intros [_ Hinj] Hf Hq Hne s'.
  assert (Hgone : forall path, _data_from_path s' !! path <> Some q).
  { intros path. unfold s'. rewrite register_flat, lookup_insert.
    case_decide as E; [congruence |].
    intros H. apply E. symmetry. eapply Hinj; eauto. }
  assert (Hstill : heap s' !! q = Some dq).
  { unfold s'. rewrite register_heap_ne by congruence. exact Hq. }
  split; [unfold s'; rewrite register_flat; apply lookup_insert_eq |].
  split; [exact Hgone |]. split; [exact Hstill |].
  destruct (cleanup_spec s' q) as [_ H]. rewrite H by exact Hgone. exact Hstill.
Qed.


Lemma register_over_taken_path_leaks_witness :
  let s' := _data_register_hierarchy "power/battery_voltage" 1%nat voltage_unit_twice in
  _data_from_path s' !! "power/battery_voltage"%string = Some 1%nat /\
  (forall path, _data_from_path s' !! path <> Some 0%nat) /\
  heap s' !! 0%nat = Some (set_parent (Some ["power"%string]) (unit_named "battery_voltage")) /\
  heap (_data_cleanup s') !! 0%nat
  = Some (set_parent (Some ["power"%string]) (unit_named "battery_voltage")).
Proof.
  apply (register_over_taken_path_leaks voltage_unit_twice "power/battery_voltage"
           1%nat 0%nat).
  - apply store_ok_by_evaluation; apply (bool_decide_unpack _); vm_compute; exact I.
  - vm_compute. reflexivity.
  - vm_compute. reflexivity.
  - discriminate.
Defined.

Lemma current_unit_registered_run : hierarchy_run current_unit_registered.
Proof.
  apply run_register; [apply run_alloc, run_new |].
  exists (unit_named "battery_current"), ["power"%string].
  split; [vm_compute; reflexivity |]. split; [discriminate |].
  split; [repeat constructor; discriminate |].
  split; [reflexivity |]. split; [reflexivity |].
  apply not_registered_by_evaluation.
  apply (bool_decide_unpack _). vm_compute. exact I.
Qed.

Lemma vacant_by_evaluation (other s : MavSystem) :
  map_Forall (fun (k : string) (_ : ptr) => view s !! k = None)
             (_data_from_path other) ->
  forall k, is_Some (_data_from_path other !! k) -> view s !! k = None.
Proof. intros H k [p Hp]. exact (H k p Hp). Qed.

Lemma merge_loop_disjoint_witness :
  (merge_loop current_unit_registered one_unit_registered).1.1 = [true] /\
  view (merge_loop current_unit_registered one_unit_registered).2
  = view current_unit_registered ∪ view one_unit_registered /\
  hierarchy_ok (merge_loop current_unit_registered one_unit_registered).2 /\
  members (merge_loop current_unit_registered one_unit_registered).2
  = members one_unit_registered.
Proof.
  apply (merge_loop_disjoint current_unit_registered one_unit_registered).
  - apply hierarchy_run_ok, current_unit_registered_run.
  - apply trimmed_keys_by_evaluation.
    apply (bool_decide_unpack _). vm_compute. exact I.
  - apply hierarchy_run_ok, one_unit_registered_run.
  - apply vacant_by_evaluation.
    apply (bool_decide_unpack _). vm_compute. exact I.
Defined.

(** ** Merging, unit by unit *)

Lemma data_merge_in_place mine src merged :
  data_merge_in mine src = Some merged ->
  get_name merged = get_name mine /\ get_parent merged = get_parent mine.
Proof.
  unfold data_merge_in.
  destruct (content mine), (content src); intros [= <-]; split; reflexivity.
Qed.

(** [_add_data] only touches the path of the incoming unit, and what it
    leaves there is what [attempt] says *)
Lemma add_data_attempt src s :
  hierarchy_ok s -> placed src ->
  (_add_data src s).1 = (attempt (view s !! get_fullname src) src).1 /\
  hierarchy_ok (_add_data src s).2 /\
  view (_add_data src s).2
  = <[get_fullname src := (attempt (view s !! get_fullname src) src).2]> (view s).
Proof.
  intros Hok Hsrc.
  destruct (view s !! get_fullname src) as [mine |] eqn:Hv.
  - destruct (is_present mine) eqn:Hpres.
    + (* a unit with samples: the merge is left to the unit *)
      apply view_get_Some in Hv as (p & Hg).
      pose proof Hg as Hg'. apply get_data_Some in Hg' as [Hf Hh].
      pose proof (hierarchy_ok_store_ok s Hok) as [Hlive Hinj].
      unfold _add_data, attempt. rewrite Hg, Hpres.
      destruct (data_merge_in mine src) as [merged |] eqn:Hm; cbn [fst snd].
      * split; [reflexivity |]. split.
        -- apply hierarchy_ok_heap; [exact Hok |].
           intros q d Hd. destruct (decide (q = p)) as [-> | Hne].
           ++ rewrite lookup_insert_eq. exists merged. split; [reflexivity |].
              replace d with mine by congruence.
              apply (data_merge_in_place mine src), Hm.
           ++ rewrite lookup_insert_ne by congruence. eauto.
        -- apply map_eq. intros k. rewrite !view_lookup.
           cbn [with_heap with_store _data_from_path heap].
           destruct (decide (k = get_fullname src)) as [-> | Hne].
           ++ rewrite Hf, lookup_insert_eq. cbn. apply lookup_insert_eq.
           ++ rewrite lookup_insert_ne by congruence. rewrite view_lookup.
              destruct (_data_from_path s !! k) as [q |] eqn:Hq; [| reflexivity].
              cbn. apply lookup_insert_ne. intros <-. apply Hne.
              eapply Hinj; eauto.
      * split; [reflexivity |]. split; [exact Hok |].
        symmetry. apply insert_id. apply view_get_Some. eauto.
    + destruct (add_data_vacant src s Hok Hsrc) as (H1 & H2 & H3).
      { intros d Hd. congruence. }
      unfold attempt. rewrite Hpres. auto.
  - destruct (add_data_vacant src s Hok Hsrc) as (H1 & H2 & H3).
    { intros d Hd. congruence. }
    unfold attempt. auto.
Qed.

(** the walk of [merge_in] over units registered under their own paths:
    each unit meets the unit that the receiving system held at its path
    before the walk *)
Lemma merge_fold_attempts other (l : list (string * ptr)) done added
    (s0 : MavSystem) :
  hierarchy_ok other -> trimmed_keys other ->
  NoDup l.*1 ->
  (forall k p, (k, p) ∈ l -> _data_from_path other !! k = Some p) ->
  hierarchy_ok s0 ->
  let r := fold_left (merge_step other) l (done, added, s0) in
  r.1.1 = done ++ List.map (fun it : string * ptr => added_at other s0 it.1) l /\
  hierarchy_ok r.2 /\
  (forall k, view r.2 !! k
             = if decide (k ∈ l.*1)
               then (fun src => (attempt (view s0 !! k) src).2) <$> view other !! k
               else view s0 !! k).
Proof.
  intros Hother Htrim. revert done added s0.
  induction l as [| [k p] l IH]; intros done added s0 Hnd Hin Hok; cbn zeta.
  { cbn. rewrite app_nil_r. split; [reflexivity |]. split; [exact Hok |].
    intros k. rewrite decide_False by apply not_elem_of_nil. reflexivity. }
  cbn [fold_left]. cbn [fmap list_fmap fst] in Hnd |- *.
  apply NoDup_cons in Hnd as [Hk Hnd].
  assert (Hf : _data_from_path other !! k = Some p) by (apply Hin; left).
  destruct (hierarchy_ok_placed other k p Hother Htrim Hf) as (d & Hd & Hfn & Hpl).
  assert (Hvo : view other !! k = Some d).
  { rewrite view_lookup, Hf. exact Hd. }
  destruct (add_data_attempt d s0 Hok Hpl) as (Hres & Hok1 & Hview1).
  rewrite Hfn in Hres, Hview1.
  assert (Hstep : merge_step other (done, added, s0) (k, p)
                  = (done ++ [added_at other s0 k], added || added_at other s0 k,
                     (_add_data d s0).2)).
  { unfold merge_step, added_at. cbn [snd]. rewrite Hd, Hvo.
    destruct (_add_data d s0) as [ok s1]. cbn [fst snd] in *. subst ok.
    reflexivity. }
  rewrite Hstep.
  destruct (IH (done ++ [added_at other s0 k]) (added || added_at other s0 k)
               (_add_data d s0).2)
    as (Hdone' & Hok' & Hview').
  - exact Hnd.
  - intros k' p' H'. apply Hin. right. exact H'.
  - exact Hok1.
  - assert (Hrest : forall k', k' ∈ l.*1 ->
                               view (_add_data d s0).2 !! k' = view s0 !! k').
    { intros k' Hk'. rewrite Hview1. apply lookup_insert_ne. intros <-. auto. }
    split; [| split; [exact Hok' |]].
    + rewrite Hdone', <- app_assoc. cbn [List.map app fst]. do 2 f_equal.
      apply map_ext_in. intros [k' p'] Hin'. cbn [fst]. unfold added_at.
      rewrite Hrest; [reflexivity |].
      apply list_elem_of_fmap. exists (k', p'). split; [reflexivity |].
      apply list_elem_of_In. exact Hin'.
    + intros k'. rewrite Hview'.
      destruct (decide (k' = k)) as [-> | Hne].
      * rewrite decide_False by exact Hk. rewrite decide_True by left.
        rewrite Hview1, lookup_insert_eq, Hvo. reflexivity.
      * destruct (decide (k' ∈ l.*1)) as [Hl | Hl].
        -- rewrite decide_True by (right; exact Hl). rewrite (Hrest k' Hl).
           reflexivity.
        -- rewrite decide_False.
           ++ rewrite Hview1. apply lookup_insert_ne. congruence.
           ++ intros H'. apply elem_of_cons in H' as [? | ?]; auto.
Qed.

(** C3 (as the code has it).  [merge_in] returns [true] in every case,
    and the flag [added] alone decides whether the pipeline and the
    absolute time are recomputed; the walk records one outcome per unit of
    the other system.  Between two systems whose flat map and group tree
    correspond, every unit of the other system is attempted, whatever
    became of the units before it: it meets the unit that the receiving
    system held at its path before the call, so that a vacant path and a
    unit without samples take a copy of it, a unit that accepts it holds
    the merged samples, and a unit that refuses it is kept while the walk
    goes on; paths that the other system does not have keep their units.
    The flag [added] is set exactly when at least one unit was merged or
    copied. *)
Theorem merge_in_attempts_every_unit
    (get_data_at_time : list (float * float) -> float -> option float)
    (has_bad_timestamps : Data -> bool) (make_periodic : Data -> Data)
    (regex_match : string -> string -> bool) (uninitialised : float)
    (_postprocess_glideperf_vel : MavSystem -> MavSystem)
    (other s : MavSystem) :
  let outcome := merge_loop other s in
  let result := merge_in get_data_at_time has_bad_timestamps make_periodic
                  regex_match uninitialised _postprocess_glideperf_vel other s in
  length outcome.1.1 = size (_data_from_path other) /\
  (outcome.1.2 = true <-> true ∈ outcome.1.1) /\
  result.1 = true /\
  result.2 = (if outcome.1.2
              then determine_absolute_time
                     (postprocess get_data_at_time has_bad_timestamps make_periodic
                        regex_match uninitialised _postprocess_glideperf_vel
                        outcome.2)
              else outcome.2) /\
  (hierarchy_ok other -> trimmed_keys other -> hierarchy_ok s ->
   outcome.1.1
   = List.map (fun it : string * ptr => added_at other s it.1)
              (in_key_order (_data_from_path other)) /\
   (forall k src, view other !! k = Some src ->
                  view outcome.2 !! k = Some (attempt (view s !! k) src).2) /\
   (forall k, view other !! k = None -> view outcome.2 !! k = view s !! k) /\
   (outcome.1.2 = true <->
    exists k src, view other !! k = Some src /\
                  (attempt (view s !! k) src).1 = true) /\
   hierarchy_ok outcome.2).
Proof.
  intros outcome result.
  destruct (merge_fold other (in_key_order (_data_from_path other)) [] false s)
    as (new & H1 & H2 & H3).
  rewrite <- merge_loop_unfold in H1, H3. fold outcome in H1, H3.
  cbn in H1, H3.
  assert (Hflag : outcome.1.2 = true <-> true ∈ outcome.1.1).
  { rewrite H1, H3. rewrite existsb_exists. split.
    - intros (ok & Hin & ->). apply list_elem_of_In. exact Hin.
    - intros Hin. exists true. split; [apply list_elem_of_In; exact Hin | reflexivity]. }
  split; [rewrite H1, H2; apply length_in_key_order |].
  split; [exact Hflag |].
  split; [| split].
  - subst result. unfold merge_in. fold outcome.
    destruct outcome as [[done added] s1]. reflexivity.
  - subst result. unfold merge_in. fold outcome.
    destruct outcome as [[done added] s1]. reflexivity.
  - intros Hother Htrim Hok.
    destruct (merge_fold_attempts other (in_key_order (_data_from_path other))
                [] false s Hother Htrim)
      as (Hdone & Hok' & Hview).
    { apply in_key_order_NoDup. }
    { intros k p Hin. apply in_key_order_spec, Hin. }
    { exact Hok. }
    rewrite <- merge_loop_unfold in Hdone, Hok', Hview.
    fold outcome in Hdone, Hok', Hview. cbn [app] in Hdone.
    assert (Hkeys : forall k, k ∈ (in_key_order (_data_from_path other)).*1
                              <-> is_Some (view other !! k)).
    { intros k. rewrite view_keys, view_lookup. split.
      - intros [p Hp]. rewrite Hp. cbn.
        pose proof (hierarchy_ok_store_ok other Hother) as [Hlive _].
        eapply Hlive, Hp.
      - intros [d Hd]. destruct (_data_from_path other !! k); [eauto | discriminate]. }
    split; [exact Hdone |]. split; [| split; [| split; [| exact Hok']]].
    + intros k src Hsrc. rewrite Hview, decide_True by (apply Hkeys; eauto).
      rewrite Hsrc. reflexivity.
    + intros k Hnone. rewrite Hview, decide_False; [reflexivity |].
      intros Hin. apply Hkeys in Hin as [d Hd]. congruence.
    + rewrite Hflag, Hdone. split.
      * intros Hin. apply list_elem_of_fmap in Hin as ([k p] & Ha & Hin).
        cbn [fst] in Ha. unfold added_at in Ha.
        destruct (view other !! k) as [src |] eqn:Hsrc; [| discriminate].
        exists k, src. auto.
      * intros (k & src & Hsrc & Ha).
        assert (Hin : k ∈ (in_key_order (_data_from_path other)).*1)
          by (apply Hkeys; eauto).
        apply list_elem_of_fmap in Hin as ([k' p] & -> & Hin).
        apply list_elem_of_fmap. exists (k', p). split; [| exact Hin].
        cbn [fst] in *. unfold added_at. rewrite Hsrc. auto.
Qed.

Lemma events_at_current_path_run : hierarchy_run events_at_current_path.
Proof.
  apply run_register; [apply run_alloc, run_new |].
  eexists _, ["power"%string].
  split; [vm_compute; reflexivity |]. split; [discriminate |].
  split; [repeat constructor; discriminate |].
  split; [reflexivity |]. split; [reflexivity |].
  apply not_registered_by_evaluation.
  apply (bool_decide_unpack _). vm_compute. exact I.
Qed.

Lemma merge_in_attempts_every_unit_witness :
  (merge_loop two_units_registered events_at_current_path).1.1 = [false; true] /\
  (merge_loop two_units_registered events_at_current_path).1.2 = true /\
  view (merge_loop two_units_registered events_at_current_path).2
    !! "power/battery_current"
  = view events_at_current_path !! "power/battery_current" /\
  view (merge_loop two_units_registered events_at_current_path).2
    !! "power/battery_voltage"
  = view two_units_registered !! "power/battery_voltage".
Proof.
  destruct (merge_in_attempts_every_unit (fun _ _ => None) (fun _ => false)
              (fun d => d) (fun _ _ => false) 0%float (fun s => s)
              two_units_registered events_at_current_path)
    as (_ & Hflag & _ & _ & H).
  destruct H as (Hdone & Hsome & _ & _ & _).
  - apply hierarchy_run_ok, two_units_registered_run.
  - apply trimmed_keys_by_evaluation.
    apply (bool_decide_unpack _). vm_compute. exact I.
  - apply hierarchy_run_ok, events_at_current_path_run.
  - split; [rewrite Hdone; vm_compute; reflexivity |].
    split; [apply Hflag; rewrite Hdone; vm_compute; right; left |].
    split.
    + erewrite Hsome by (vm_compute; reflexivity). vm_compute. reflexivity.
    + erewrite Hsome by (vm_compute; reflexivity). vm_compute. reflexivity.
Defined.

(** ** Shifting and recomputing the absolute time *)

Lemma wrap64_idem z : wrap64 (wrap64 z) = wrap64 z.
Proof. unfold wrap64. apply Z.mod_mod. unfold two64. lia. Qed.

Lemma wrap64_add_l a b : wrap64 (wrap64 a + b) = wrap64 (a + b).
Proof. unfold wrap64. apply Zplus_mod_idemp_l. Qed.

Lemma wrap64_sub_r a b : wrap64 (a - wrap64 b) = wrap64 (a - b).
Proof. unfold wrap64. apply Zminus_mod_idemp_r. Qed.

Lemma wrap64_sub_l a b : wrap64 (wrap64 a - b) = wrap64 (a - b).
Proof. unfold wrap64. apply Zminus_mod_idemp_l. Qed.

Lemma wrap64_small z : 0 <= z < two64 -> wrap64 z = z.
Proof. intros H. unfold wrap64. apply Z.mod_small, H. Qed.

Lemma to_i64_in_range (x : float) (z : Z) :
  trunc_double x = Some z -> - 2 ^ 63 <= z < 2 ^ 63 -> to_i64 x = z.
Proof.
  intros Htrunc Hrange. unfold to_i64. rewrite Htrunc.
  destruct (Z.leb_spec (- 2 ^ 63) z), (Z.ltb_spec z (2 ^ 63)); cbn [andb]; lia.
Qed.

(** X9.  When the integer part of [delay*1E6] is a value of [int64_t],
    [shift_time] moves the offset guess and the difference
    [absolute - relative] of every reference pair by that number of
    microseconds, modulo [2^64]; the absolute stamps of the pairs, the
    offset in force, the clock and the units are left as they are. *)
Theorem shift_time_moves_references (delay : float) (s : MavSystem) (udelay : Z) :
  trunc_double (delay * 1e6) = Some udelay ->
  - 2 ^ 63 <= udelay < 2 ^ 63 ->
  let s' := shift_time delay s in
  _time_offset_guess_usec s' = wrap64 (_time_offset_guess_usec s + udelay) /\
  List.map (fun it : Z * Z => wrap64 (it.2 - it.1)) (_time_offset_raw s')
  = List.map (fun it : Z * Z => wrap64 (it.2 - it.1 + udelay)) (_time_offset_raw s) /\
  List.map snd (_time_offset_raw s') = List.map snd (_time_offset_raw s) /\
  _time_offset_usec s' = _time_offset_usec s /\
  with_offsets 0 0 [] s' = with_offsets 0 0 [] s.
Proof.
  intros Htrunc Hrange. cbn zeta. unfold shift_time.
  rewrite (to_i64_in_range _ _ Htrunc Hrange).
  cbn [with_offsets _time_offset_guess_usec _time_offset_raw _time_offset_usec].
  split; [reflexivity |]. rewrite !map_map. cbn [fst snd].
  split; [| split; [reflexivity | split; reflexivity]].
  apply map_ext. intros [rel epoch]. cbn [fst snd].
  rewrite wrap64_sub_r. f_equal. lia.
Qed.

Lemma shift_time_moves_references_witness :
  _time_offset_guess_usec (shift_time 2.5%float two_references) = 2500000 /\
  List.map fst (_time_offset_raw (shift_time 2.5%float two_references))
  = [two64 - 1500000; two64 - 500000].
Proof.
  destruct (shift_time_moves_references 2.5%float two_references 2500000)
    as (Hguess & _).
  - vm_compute. reflexivity.
  - lia.
  - split; [rewrite Hguess; vm_compute; reflexivity | vm_compute; reflexivity].
Defined.

Lemma SFmul_opp_l x y : SFmul prec emax (SFopp x) y = SFopp (SFmul prec emax x y).
Proof.
  destruct x as [sx | sx | | sx mx ex], y as [sy | sy | | sy my ey];
    cbn [SFmul SFopp]; try reflexivity;
    try (destruct sx, sy; reflexivity).
  unfold binary_round_aux.
  destruct (shr_fexp prec emax (Z.pos (mx * my)) (ex + ey) loc_Exact) as [mrs' e'].
  destruct (shr_fexp prec emax _ e' loc_Exact) as [mrs'' e''].
  destruct (shr_m mrs'') as [| m | m]; cbn [SFopp].
  - destruct sx, sy; reflexivity.
  - destruct (e'' <=? emax - prec)%Z; cbn [SFopp]; destruct sx, sy; reflexivity.
  - reflexivity.
Qed.

(** the integer part of the opposite delay is the opposite integer *)
Lemma trunc_double_opp (delay : float) :
  trunc_double (- delay * 1e6) = Z.opp <$> trunc_double (delay * 1e6).
Proof.
  unfold trunc_double. rewrite !mul_spec, opp_spec. unfold SF64mul.
  rewrite SFmul_opp_l.
  destruct (SFmul prec emax (Prim2SF delay) (Prim2SF 1e6)) as [s | s | | s m e];
    cbn [SFopp]; try reflexivity.
  destruct s; cbn [negb fmap option_fmap option_map]; f_equal; lia.
Qed.

(** X10.  Shifting by a delay and then by the opposite delay restores the
    system, when the integer parts of [delay*1E6] and of its opposite are
    values of [int64_t] and the offset guess and the relative stamps of the
    reference pairs are 64-bit values. *)
Theorem shift_time_back (delay : float) (s : MavSystem) (udelay : Z) :
  trunc_double (delay * 1e6) = Some udelay ->
  - 2 ^ 63 < udelay < 2 ^ 63 ->
  0 <= _time_offset_guess_usec s < two64 ->
  Forall (fun it : Z * Z => 0 <= it.1 < two64) (_time_offset_raw s) ->
  shift_time (- delay) (shift_time delay s) = s.
Proof.
  intros Htrunc Hrange Hg Hraw. unfold shift_time.
  cbn [with_offsets _time_offset_guess_usec _time_offset_raw _time_offset_usec
       id _time _time_min _time_max _time_valid _have_time_update
       _time_maxfwdjump_sec _time_maxbackjump_sec deferredLoad
       _data_from_path mav_data_groups heap].
  rewrite (to_i64_in_range (delay * 1e6) udelay Htrunc) by lia.
  rewrite (to_i64_in_range (- delay * 1e6) (- udelay)); [| | lia].
  2: { rewrite trunc_double_opp, Htrunc. reflexivity. }
  set (u := udelay).
  rewrite wrap64_add_l, map_map. cbn [fst snd].
  replace (_time_offset_guess_usec s + u + - u) with (_time_offset_guess_usec s) by lia.
  rewrite (wrap64_small _ Hg).
  assert (Hmap : List.map (fun x : Z * Z => (wrap64 (wrap64 (x.1 - u) - - u), x.2))
                          (_time_offset_raw s) = _time_offset_raw s).
  { induction Hraw as [| [rel epoch] l Hit Hl IH]; [reflexivity |].
    cbn [List.map fst snd] in *. rewrite IH. f_equal.
    rewrite wrap64_sub_l. replace (rel - u - - u) with rel by lia.
    rewrite wrap64_small by exact Hit. reflexivity. }
  rewrite Hmap. destruct s; reflexivity.
Qed.

Lemma shift_time_back_witness :
  shift_time (- 2.5)%float (shift_time 2.5%float two_references) = two_references.
Proof.
  apply (shift_time_back 2.5%float two_references 2500000).
  - vm_compute. reflexivity.
  - lia.
  - vm_compute. split; [discriminate | reflexivity].
  - repeat constructor; vm_compute; try discriminate; reflexivity.
Defined.

(** X8.  [update_time_offset] records the reference pair whenever the
    absolute stamp is positive, also when [update_rel_time] rejects the
    relative stamp as a jump; the clock is what [update_rel_time] alone
    leaves.  A pair with the absolute stamp 0 is not recorded. *)
Theorem update_time_offset_records_pair
    (s : MavSystem) (nowtime_relative_usec epoch_usec : Z) (allowjumps : bool) :
  let s1 := (update_rel_time nowtime_relative_usec allowjumps s).2 in
  let s' := update_time_offset nowtime_relative_usec epoch_usec allowjumps s in
  _time_offset_raw s'
  = (if (0 <? epoch_usec)%Z
     then _time_offset_raw s ++ [(nowtime_relative_usec, epoch_usec)]
     else _time_offset_raw s) /\
  with_offsets 0 0 [] s' = with_offsets 0 0 [] s1 /\
  _time_offset_usec s' = _time_offset_usec s /\
  _time_offset_guess_usec s' = _time_offset_guess_usec s.
Proof.
  cbn zeta. unfold update_time_offset.
  assert (Hraw : _time_offset_raw (update_rel_time nowtime_relative_usec allowjumps s).2
                 = _time_offset_raw s /\
                 _time_offset_usec (update_rel_time nowtime_relative_usec allowjumps s).2
                 = _time_offset_usec s /\
                 _time_offset_guess_usec (update_rel_time nowtime_relative_usec allowjumps s).2
                 = _time_offset_guess_usec s).
  { unfold update_rel_time. cbv zeta.
    repeat match goal with |- context [if ?b then _ else _] => destruct b end;
      auto. }
  destruct Hraw as (Hr & Ho & Hg).
  destruct (0 <? epoch_usec)%Z; cbn [with_offsets _time_offset_raw _time_offset_usec
    _time_offset_guess_usec]; rewrite ?Hr, ?Ho, ?Hg; auto.
Qed.

Lemma on_units_as_heap (f : Data -> Data) (l : list (string * ptr)) (s : MavSystem) :
  fold_left (fun s (it : string * ptr) => on_unit f it.2 s) l s
  = with_heap (fold_left (fun h (it : string * ptr) => alter f it.2 h) l (heap s)) s.
Proof.
  revert s. induction l as [| it l IH]; intros s; cbn [fold_left].
  - destruct s; reflexivity.
  - rewrite IH. destruct s; reflexivity.
Qed.

Lemma alter_fold_lookup (f : Data -> Data) (l : list (string * ptr))
    (h : gmap ptr Data) (p : ptr) :
  (forall d, f (f d) = f d) ->
  fold_left (fun h (it : string * ptr) => alter f it.2 h) l h !! p
  = if decide (p ∈ l.*2) then f <$> h !! p else h !! p.
Proof.
  intros Hf. revert h. induction l as [| [k q] l IH]; intros h; cbn [fold_left].
  { rewrite decide_False by apply not_elem_of_nil. reflexivity. }
  rewrite IH. cbn [fmap list_fmap snd].
  destruct (decide (p = q)) as [-> | Hne].
  - rewrite (decide_True (P := q ∈ q :: l.*2)) by left.
    rewrite lookup_alter_eq.
    destruct (decide (q ∈ l.*2)); destruct (h !! q); cbn; rewrite ?Hf; reflexivity.
  - rewrite lookup_alter_ne by congruence.
    destruct (decide (p ∈ l.*2)) as [Hl | Hl].
    + rewrite decide_True by (right; exact Hl). reflexivity.
    + rewrite decide_False; [reflexivity |].
      intros H. apply elem_of_cons in H as [? | ?]; auto.
Qed.

(** X11.  [determine_absolute_time] is idempotent: it reads only the
    reference pairs and the guess, which it does not change, so a second
    call leaves the system as the first call left it. *)
Theorem determine_absolute_time_idempotent (s : MavSystem) :
  determine_absolute_time (determine_absolute_time s) = determine_absolute_time s.
Proof.
  unfold determine_absolute_time.
  set (offset := match _time_offset_raw s with
                 | [] => _time_offset_guess_usec s
                 | _ => mean_offset_usec (_time_offset_raw s)
                 end).
  rewrite !on_units_as_heap.
  cbn [with_heap with_store with_offsets _time_offset_raw _time_offset_guess_usec
       _time_offset_usec _data_from_path mav_data_groups heap
       id _time _time_min _time_max _time_valid _have_time_update
       _time_maxfwdjump_sec _time_maxbackjump_sec deferredLoad].
  fold offset.
  set (h1 := fold_left _ _ (heap s)).
  assert (Hh : fold_left (fun h (it : string * ptr) =>
                            alter (set_epoch_datastart offset) it.2 h)
                 (in_key_order (_data_from_path s)) h1 = h1).
  { apply map_eq. intros p. subst h1.
    rewrite !alter_fold_lookup by reflexivity.
    case_decide; [| reflexivity].
    destruct (heap s !! p); reflexivity. }
  rewrite Hh. reflexivity.
Qed.

(** ** Angles *)

Lemma angle360_down_stuck (fuel : nat) (x : float) :
  (360 <=? x)%float = true -> (x - 360 = x)%float ->
  angle360_down fuel x = None.
Proof.
  intros Hge Hsame. induction fuel as [| fuel IH]; [reflexivity |].
  cbn [angle360_down]. rewrite Hge, Hsame. exact IH.
Qed.

Lemma angle360_up_stuck (fuel : nat) (x : float) :
  (x <? 0)%float = true -> (x + 360 = x)%float ->
  angle360_up fuel x = None.
Proof.
  intros Hlt Hsame. induction fuel as [| fuel IH]; [reflexivity |].
  cbn [angle360_up]. rewrite Hlt, Hsame. exact IH.
Qed.

Lemma Prim2SF_360 : Prim2SF 360 = S754_finite false 6333186975989760 (-44).
Proof. vm_compute. reflexivity. Qed.

Lemma Prim2SF_0 : Prim2SF 0 = S754_zero false.
Proof. vm_compute. reflexivity. Qed.

Lemma negative_below_360 (x : float) :
  (x <? 0)%float = true -> (360 <=? x)%float = false.
Proof.
  intros Hlt. rewrite leb_spec. rewrite ltb_spec in Hlt. unfold SFleb, SFltb in *.
  rewrite Prim2SF_360. rewrite Prim2SF_0 in Hlt.
  destruct (Prim2SF x) as [sx | sx | | sx mx ex]; cbn [SFcompare] in Hlt |- *;
    try discriminate; destruct sx; try discriminate; reflexivity.
Qed.

Lemma negative_not_nan (x : float) : (x <? 0)%float = true -> is_nan x = false.
Proof.
  intros Hlt. unfold is_nan. apply negb_false_iff.
  rewrite ltb_spec in Hlt. rewrite FloatAxioms.eqb_spec. unfold SFltb, SFeqb in *.
  rewrite Prim2SF_0 in Hlt.
  destruct (Prim2SF x) as [sx | sx | | sx mx ex]; cbn [SFcompare] in Hlt |- *;
    try discriminate.
  - destruct sx; [reflexivity | discriminate].
  - destruct sx; [| discriminate].
    rewrite Z.compare_refl. simpl. rewrite Pos.compare_refl. reflexivity.
Qed.

Lemma is_infinity_SF (x : float) :
  is_infinity x = true -> exists s, Prim2SF x = S754_infinity s.
Proof.
  unfold is_infinity. rewrite FloatAxioms.eqb_spec, FloatAxioms.abs_spec. unfold SFeqb.
  change (Prim2SF infinity) with (S754_infinity false).
  destruct (Prim2SF x) as [sx | sx | | sx mx ex]; cbn [SFabs SFcompare];
    try discriminate; eauto.
Qed.

(** X12.  [angle360] does not return on a finite angle that is so large
    that subtracting 360 does not change it, or so far below zero that
    adding 360 does not change it: the loop runs for ever. *)
Theorem angle360_hangs (x : float) :
  is_nan x || is_infinity x = false ->
  ((360 <=? x)%float = true /\ (x - 360 = x)%float) \/
  ((x <? 0)%float = true /\ (x + 360 = x)%float) ->
  forall fuel, angle360 fuel x = None.
Proof.
  intros Hfin Hcase fuel. unfold angle360. rewrite Hfin.
  destruct Hcase as [[Hge Hsame] | [Hlt Hsame]].
  - rewrite angle360_down_stuck by assumption. reflexivity.
  - destruct fuel as [| fuel]; [reflexivity |].
    cbn [angle360_down]. rewrite (negative_below_360 x Hlt).
    apply angle360_up_stuck; assumption.
Qed.

Lemma angle360_hangs_witness : angle360 1000 0x1p+100%float = None.
Proof.
  apply (angle360_hangs 0x1p+100%float).
  - reflexivity.
  - left. split; reflexivity.
Defined.

(** X13.  The result of [angle360] is not always below 360: for a negative
    angle so small that adding 360 gives 360 itself, the result is 360. *)
Theorem angle360_returns_360 (x : float) (fuel : nat) :
  (x <? 0)%float = true -> (x + 360 = 360)%float ->
  angle360 (S (S fuel)) x = Some 360%float.
Proof.
  intros Hlt Hsum. unfold angle360.
  assert (Hfin : is_nan x || is_infinity x = false).
  { rewrite (negative_not_nan x Hlt). cbn [orb].
    destruct (is_infinity x) eqn:E; [| reflexivity]. exfalso.
    apply is_infinity_SF in E as [s E].
    apply (f_equal Prim2SF) in Hsum. rewrite add_spec, E, Prim2SF_360 in Hsum.
    discriminate. }
  rewrite Hfin. cbn [angle360_down]. rewrite (negative_below_360 x Hlt).
  cbn [angle360_up]. rewrite Hlt, Hsum. reflexivity.
Qed.

Lemma angle360_returns_360_witness :
  angle360 2 (- 0x1p-60)%float = Some 360%float.
Proof.
  apply (angle360_returns_360 (- 0x1p-60)%float 0); reflexivity.
Defined.

(** ** The flight book, once more *)

Lemma events_end_app flying l l' :
  events_end flying (l ++ l') = events_end flying l ≫= fun b => events_end b l'.
Proof.
  revert flying. induction l as [| ev l IH]; intros flying; [reflexivity |].
  cbn [app events_end].
  destruct flying; destruct (String.eqb _ _); cbn; auto.
Qed.

Section FlightbookEvents.

Variable get_data_at_time : list (float * float) -> float -> option float.

Lemma flightbook_step_alternates thr st sample :
  events_end false (takeofflanding st) = Some (flying st) ->
  events_end false (takeofflanding (flightbook_step get_data_at_time thr st sample))
  = Some (flying (flightbook_step get_data_at_time thr st sample)).
Proof.
  intros Hst. destruct sample as [t alt]. unfold flightbook_step.
  destruct (get_data_at_time thr t) as [throttle |]; [| exact Hst].
  destruct (gtb alt 1 && gtb throttle 20) eqn:Hfly; cbn [negb andb].
  - destruct (flying st) eqn:Hf; cbn [negb andb]; [rewrite Hf; exact Hst |].
    cbn [takeofflanding flying]. rewrite events_end_app, Hst. reflexivity.
  - destruct (flying st) eqn:Hf; cbn [negb andb]; [| rewrite Hf; exact Hst].
    cbn [takeofflanding flying]. rewrite events_end_app, Hst. reflexivity.
Qed.

Lemma flightbook_fold_alternates thr alt st :
  events_end false (takeofflanding st) = Some (flying st) ->
  let fb := fold_left (flightbook_step get_data_at_time thr) alt st in
  events_end false (takeofflanding fb) = Some (flying fb).
Proof.
  revert st. induction alt as [| sample alt IH]; intros st Hst; [exact Hst |].
  cbn [fold_left]. apply IH, flightbook_step_alternates, Hst.
Qed.

End FlightbookEvents.

(** X14.  The events that the loop of the flight-book pass records
    alternate: the first one is a take-off, a take-off is followed by a
    landing and a landing by a take-off, and the loop ends in flight
    exactly when the last event is a take-off.  This holds for every
    altitude and throttle series and every interpolation. *)
Theorem flightbook_events_alternate
    (get_data_at_time : list (float * float) -> float -> option float)
    (alt throttle_percent : list (float * float)) :
  let fb := flightbook_loop get_data_at_time alt throttle_percent in
  events_end false (takeofflanding fb) = Some (flying fb).
Proof.
  apply flightbook_fold_alternates. reflexivity.
Qed.

(** ** Running a pass again *)

Lemma item_or_return_found k path units s body p d :
  _get_data path s = Some (p, d) -> kind_of (content d) = k ->
  MAVSYSTEM_DATA_ITEM_OR_RETURN k path units s body = body p s.
Proof.
  intros Hg Hk. apply get_data_Some in Hg as [Hf Hh].
  unfold MAVSYSTEM_DATA_ITEM_OR_RETURN, data_item. rewrite Hf, Hh.
  rewrite decide_True by exact Hk. reflexivity.
Qed.

Section FlightbookFrame.

Variable get_data_at_time : list (float * float) -> float -> option float.

Variable s : MavSystem.
Variables data_alt data_throttle : Data.
Variables alt throttle : list (float * float).

Hypothesis Hok : store_ok s.
Hypothesis Halt : view s !! "airstate/alt GND"%string = Some data_alt.
Hypothesis Halt_c : content data_alt = TimeseriesFloat alt.
Hypothesis Hthr : view s !! "airstate/throttle"%string = Some data_throttle.
Hypothesis Hthr_c : content data_throttle = TimeseriesFloat throttle.
Hypothesis Hsync :
  get_epoch_datastart data_alt = get_epoch_datastart data_throttle.
Hypothesis R1 : resolves KEventString "flightbook/takeoff_landing" s.
Hypothesis R2 : resolves KParamUInt "flightbook/number flights" s.
Hypothesis R3 : resolves KParamDouble "flightbook/total flight time" s.
Hypothesis R4 : resolves KParamDouble "flightbook/first takeoff" s.
Hypothesis R5 : resolves KParamDouble "flightbook/last landing" s.

Lemma flightbook_pass_frame :
  let s' := _postprocess_flightbook get_data_at_time s in
  store_ok s' /\
  forall path,
    path <> "flightbook/takeoff_landing"%string ->
    path <> "flightbook/number flights"%string ->
    path <> "flightbook/total flight time"%string ->
    path <> "flightbook/first takeoff"%string ->
    path <> "flightbook/last landing"%string ->
    view s' !! path = view s !! path.
Proof using All.
  intros s'. subst s'.
  cbv beta delta [_postprocess_flightbook].
  assert (Ka : kind_of (content data_alt) = KTimeseriesFloat)
    by (rewrite Halt_c; reflexivity).
  assert (Kt : kind_of (content data_throttle) = KTimeseriesFloat)
    by (rewrite Hthr_c; reflexivity).
  open_require Halt Ka. open_require Hthr Kt.
  rewrite <- Hsync, Z.eqb_refl. cbn [negb].
  open_item_view Hok R1 p1 s1 d1 Hok1 F1 Fr1 V1 C1 K1.
  carry_resolves R2 Fr1 V1 R2'.
  carry_resolves R3 Fr1 V1 R3'.
  carry_resolves R4 Fr1 V1 R4'.
  carry_resolves R5 Fr1 V1 R5'.
  open_item_view Hok1 R2' p2 s2 d2 Hok2 F2 Fr2 V2 C2 K2.
  carry_resolves R3' Fr2 V2 R3''.
  carry_resolves R4' Fr2 V2 R4''.
  carry_resolves R5' Fr2 V2 R5''.
  open_item_view Hok2 R3'' p3 s3 d3 Hok3 F3 Fr3 V3 C3 K3.
  carry_resolves R4'' Fr3 V3 R4'''.
  carry_resolves R5'' Fr3 V3 R5'''.
  open_item_view Hok3 R4''' p4 s4 d4 Hok4 F4 Fr4 V4 C4 K4.
  carry_resolves R5''' Fr4 V4 R5''''.
  open_item_view Hok4 R5'''' p5 s5 d5 Hok5 F5 Fr5 V5 C5 K5.
  assert (G1 : _data_from_path s5 !! "flightbook/takeoff_landing"%string = Some p1).
  { rewrite Fr5, Fr4, Fr3, Fr2 by path_ne. exact F1. }
  assert (G2 : _data_from_path s5 !! "flightbook/number flights"%string = Some p2).
  { rewrite Fr5, Fr4, Fr3 by path_ne. exact F2. }
  assert (G3 : _data_from_path s5 !! "flightbook/total flight time"%string = Some p3).
  { rewrite Fr5, Fr4 by path_ne. exact F3. }
  assert (G4 : _data_from_path s5 !! "flightbook/first takeoff"%string = Some p4).
  { rewrite Fr5 by path_ne. exact F4. }
  clear Fr1 Fr2 Fr3 Fr4 Fr5 F1 F2 F3 F4 R1 R2 R3 R4 R5 R2' R3' R4' R5' R3'' R4'' R5''
        R4''' R5''' R5''''.
  cbv zeta. rewrite !reset_output_eq, fold_on_unit.
  split; [repeat apply store_ok_on_unit; exact Hok5 |].
  intros path N1 N2 N3 N4 N5.
  repeat view_step.
  rewrite V5, V4, V3, V2, V1.
  rewrite !lookup_alter_ne by congruence.
  rewrite !lookup_insert_ne by congruence. reflexivity.
Qed.

End FlightbookFrame.

Lemma add_events_all (l : list (float * string)) d l0 :
  content d = EventString l0 ->
  fold_left (fun d (ev : float * string) => add_elem_event ev.2 ev.1 d) l d
  = set_content (EventString (l0 ++ l)) d.
Proof.
  revert d l0. induction l as [| [t v] l IH]; intros d l0 Hc; cbn [fold_left].
  - rewrite app_nil_r, <- Hc. destruct d; reflexivity.
  - rewrite (IH _ (l0 ++ [(t, v)])).
    + unfold add_elem_event. rewrite Hc, <- app_assoc. reflexivity.
    + unfold add_elem_event. rewrite Hc. reflexivity.
Qed.

Lemma add_row_all (l : list (float * float)) d l0 :
  content d = TimeseriesFloat l0 ->
  fold_left (fun d (tv : float * float) => add_elem_float tv.2 tv.1 d) l d
  = set_content (TimeseriesFloat (l0 ++ l)) d.
Proof.
  revert d l0. induction l as [| [t v] l IH]; intros d l0 Hc; cbn [fold_left].
  - rewrite app_nil_r, <- Hc. destruct d; reflexivity.
  - rewrite (IH _ (l0 ++ [(t, v)])).
    + unfold add_elem_float. rewrite Hc, <- app_assoc. reflexivity.
    + unfold add_elem_float. rewrite Hc. reflexivity.
Qed.

(** a derived output is what the pass would write into it again *)
Lemma refill_event_unit epoch l o :
  content o = EventString l -> get_epoch_datastart o = epoch ->
  get_type o = DATA_DERIVED ->
  fold_left (fun d (ev : float * string) => add_elem_event ev.2 ev.1 d) l
            (reset_unit epoch o) = o.
Proof.
  intros Hc He Ht. rewrite (add_events_all l _ []).
  - destruct o; cbn in *; subst; reflexivity.
  - cbn. rewrite Hc. reflexivity.
Qed.

Lemma refill_row_unit epoch l o :
  content o = TimeseriesFloat l -> get_epoch_datastart o = epoch ->
  get_type o = DATA_DERIVED ->
  fold_left (fun d (tv : float * float) => add_elem_float tv.2 tv.1 d) l
            (reset_unit epoch o) = o.
Proof.
  intros Hc He Ht. rewrite (add_row_all l _ []).
  - destruct o; cbn in *; subst; reflexivity.
  - cbn. rewrite Hc. reflexivity.
Qed.

Lemma refill_param_double epoch v o :
  content o = ParamDouble [v] -> get_epoch_datastart o = epoch ->
  get_type o = DATA_DERIVED ->
  add_elem_param_double v (reset_unit epoch o) = o.
Proof.
  intros Hc He Ht. unfold add_elem_param_double.
  destruct o; cbn in *; subst; reflexivity.
Qed.

Lemma refill_param_uint epoch v o :
  content o = ParamUInt [v] -> get_epoch_datastart o = epoch ->
  get_type o = DATA_DERIVED ->
  add_elem_param_uint v (reset_unit epoch o) = o.
Proof.
  intros Hc He Ht. unfold add_elem_param_uint.
  destruct o; cbn in *; subst; reflexivity.
Qed.

Ltac through_alters :=
  repeat (rewrite lookup_alter_eq || rewrite lookup_alter_ne by path_ne).

Lemma derived_output_found s epoch path c :
  derived_output s epoch path c ->
  exists p d, _get_data path s = Some (p, d) /\
              _data_from_path s !! path = Some p /\ view s !! path = Some d /\
              content d = c /\
              get_epoch_datastart d = epoch /\ get_type d = DATA_DERIVED.
Proof.
  intros (d & Hv & Hc & He & Ht).
  pose proof Hv as Hv'. apply view_get_Some in Hv' as (p & Hg).
  pose proof Hg as Hg'. apply get_data_Some in Hg' as [Hf _].
  exists p, d. auto 10.
Qed.

(** X15.  The flight-book pass can be run again: its outputs are cleared
    before they are filled, so a second run leaves under every path the
    unit that the first run left. *)
Theorem flightbook_pass_idempotent
    (get_data_at_time : list (float * float) -> float -> option float)
    (s : MavSystem) (data_alt data_throttle : Data)
    (alt throttle : list (float * float)) :
  store_ok s ->
  view s !! "airstate/alt GND"%string = Some data_alt ->
  content data_alt = TimeseriesFloat alt ->
  view s !! "airstate/throttle"%string = Some data_throttle ->
  content data_throttle = TimeseriesFloat throttle ->
  get_epoch_datastart data_alt = get_epoch_datastart data_throttle ->
  (Z.of_nat (length alt) < 2 ^ 32)%Z ->
  resolves KEventString "flightbook/takeoff_landing" s ->
  resolves KParamUInt "flightbook/number flights" s ->
  resolves KParamDouble "flightbook/total flight time" s ->
  resolves KParamDouble "flightbook/first takeoff" s ->
  resolves KParamDouble "flightbook/last landing" s ->
  view (_postprocess_flightbook get_data_at_time
          (_postprocess_flightbook get_data_at_time s))
  = view (_postprocess_flightbook get_data_at_time s).
Proof.
  intros Hok Halt Halt_c Hthr Hthr_c Hsync Hsize R1 R2 R3 R4 R5.
  destruct (flightbook_pass_outputs get_data_at_time s data_alt data_throttle
              alt throttle Hok Halt Halt_c Hthr Hthr_c Hsync Hsize R1 R2 R3 R4 R5)
    as (O1 & O2 & O3 & O4 & O5).
  destruct (flightbook_pass_frame get_data_at_time s data_alt data_throttle
              alt throttle Hok Halt Halt_c Hthr Hthr_c Hsync R1 R2 R3 R4 R5)
    as (Hok1 & Hfr).
  remember (_postprocess_flightbook get_data_at_time s) as s1 eqn:Es1.
  clear Es1 R1 R2 R3 R4 R5.
  apply derived_output_found in O1 as (p1 & o1 & G1 & F1 & V1 & C1 & E1 & T1).
  apply derived_output_found in O2 as (p2 & o2 & G2 & F2 & V2 & C2 & E2 & T2).
  apply derived_output_found in O3 as (p3 & o3 & G3 & F3 & V3 & C3 & E3 & T3).
  apply derived_output_found in O4 as (p4 & o4 & G4 & F4 & V4 & C4 & E4 & T4).
  apply derived_output_found in O5 as (p5 & o5 & G5 & F5 & V5 & C5 & E5 & T5).
  assert (Halt1 : view s1 !! "airstate/alt GND"%string = Some data_alt)
    by (rewrite Hfr by path_ne; exact Halt).
  assert (Hthr1 : view s1 !! "airstate/throttle"%string = Some data_throttle)
    by (rewrite Hfr by path_ne; exact Hthr).
  cbv beta delta [_postprocess_flightbook].
  assert (Ka : kind_of (content data_alt) = KTimeseriesFloat)
    by (rewrite Halt_c; reflexivity).
  assert (Kt : kind_of (content data_throttle) = KTimeseriesFloat)
    by (rewrite Hthr_c; reflexivity).
  open_require Halt1 Ka. open_require Hthr1 Kt.
  rewrite <- Hsync, Z.eqb_refl. cbn [negb].
  rewrite (item_or_return_found _ _ _ _ _ p1 o1 G1) by (rewrite C1; reflexivity).
  rewrite (item_or_return_found _ _ _ _ _ p2 o2 G2) by (rewrite C2; reflexivity).
  rewrite (item_or_return_found _ _ _ _ _ p3 o3 G3) by (rewrite C3; reflexivity).
  rewrite (item_or_return_found _ _ _ _ _ p4 o4 G4) by (rewrite C4; reflexivity).
  rewrite (item_or_return_found _ _ _ _ _ p5 o5 G5) by (rewrite C5; reflexivity).
  cbv zeta. unfold float_series. rewrite Halt_c, Hthr_c.
  rewrite !reset_output_eq, fold_on_unit.
  repeat view_step.
  apply map_eq. intros k.
  destruct (decide (k = "flightbook/takeoff_landing"%string)) as [-> | N1].
  { through_alters. rewrite V1. cbn. f_equal. apply refill_event_unit; assumption. }
  destruct (decide (k = "flightbook/number flights"%string)) as [-> | N2].
  { through_alters. rewrite V2. cbn. f_equal. apply refill_param_uint; assumption. }
  destruct (decide (k = "flightbook/total flight time"%string)) as [-> | N3].
  { through_alters. rewrite V3. cbn. f_equal. apply refill_param_double; assumption. }
  destruct (decide (k = "flightbook/first takeoff"%string)) as [-> | N4].
  { through_alters. rewrite V4. cbn. f_equal. apply refill_param_double; assumption. }
  destruct (decide (k = "flightbook/last landing"%string)) as [-> | N5].
  { through_alters. rewrite V5. cbn. f_equal. apply refill_param_double; assumption. }
  rewrite !lookup_alter_ne by congruence. reflexivity.
Qed.

Section PowerstatsFrame.

Variable get_data_at_time : list (float * float) -> float -> option float.

Variable s : MavSystem.
Variables data_battery_volt data_battery_amps : Data.
Variables volt amps : list (float * float).

Hypothesis Hok : store_ok s.
Hypothesis Hvolt : view s !! "power/battery_voltage"%string = Some data_battery_volt.
Hypothesis Hvolt_c : content data_battery_volt = TimeseriesFloat volt.
Hypothesis Hamps : view s !! "power/battery_current"%string = Some data_battery_amps.
Hypothesis Hamps_c : content data_battery_amps = TimeseriesFloat amps.
Hypothesis Hsync :
  get_epoch_datastart data_battery_volt = get_epoch_datastart data_battery_amps.
Hypothesis R1 : resolves KTimeseriesFloat "power/power" s.
Hypothesis R2 : resolves KTimeseriesFloat "power/inst. consumption" s.
Hypothesis R3 : resolves KTimeseriesFloat "power/inst. charge" s.
Hypothesis R4 : resolves KTimeseriesFloat "power/cum. consumption" s.
Hypothesis R5 : resolves KTimeseriesFloat "power/cum. charge" s.

Lemma powerstats_pass_frame :
  let s' := _postprocess_powerstats get_data_at_time s in
  store_ok s' /\
  forall path,
    path <> "power/power"%string ->
    path <> "power/inst. consumption"%string ->
    path <> "power/inst. charge"%string ->
    path <> "power/cum. consumption"%string ->
    path <> "power/cum. charge"%string ->
    view s' !! path = view s !! path.
Proof using All.
  intros s'. subst s'.
  cbv beta delta [_postprocess_powerstats].
  assert (Kv : kind_of (content data_battery_volt) = KTimeseriesFloat)
    by (rewrite Hvolt_c; reflexivity).
  assert (Ka : kind_of (content data_battery_amps) = KTimeseriesFloat)
    by (rewrite Hamps_c; reflexivity).
  open_require Hvolt Kv. open_require Hamps Ka.
  rewrite Hsync, Z.eqb_refl. cbn [negb].
  open_item_view Hok R1 p1 s1 d1 Hok1 F1 Fr1 V1 C1 K1.
  carry_resolves R2 Fr1 V1 R2'. carry_resolves R3 Fr1 V1 R3'.
  carry_resolves R4 Fr1 V1 R4'. carry_resolves R5 Fr1 V1 R5'.
  open_item_view Hok1 R2' p2 s2 d2 Hok2 F2 Fr2 V2 C2 K2.
  carry_resolves R3' Fr2 V2 R3''. carry_resolves R4' Fr2 V2 R4''.
  carry_resolves R5' Fr2 V2 R5''.
  open_item_view Hok2 R3'' p3 s3 d3 Hok3 F3 Fr3 V3 C3 K3.
  carry_resolves R4'' Fr3 V3 R4'''. carry_resolves R5'' Fr3 V3 R5'''.
  open_item_view Hok3 R4''' p4 s4 d4 Hok4 F4 Fr4 V4 C4 K4.
  carry_resolves R5''' Fr4 V4 R5''''.
  open_item_view Hok4 R5'''' p5 s5 d5 Hok5 F5 Fr5 V5 C5 K5.
  assert (G1 : _data_from_path s5 !! "power/power"%string = Some p1).
  { rewrite Fr5, Fr4, Fr3, Fr2 by path_ne. exact F1. }
  assert (G2 : _data_from_path s5 !! "power/inst. consumption"%string = Some p2).
  { rewrite Fr5, Fr4, Fr3 by path_ne. exact F2. }
  assert (G3 : _data_from_path s5 !! "power/inst. charge"%string = Some p3).
  { rewrite Fr5, Fr4 by path_ne. exact F3. }
  assert (G4 : _data_from_path s5 !! "power/cum. consumption"%string = Some p4).
  { rewrite Fr5 by path_ne. exact F4. }
  clear Fr1 Fr2 Fr3 Fr4 Fr5 F1 F2 F3 F4 R1 R2 R3 R4 R5 R2' R3' R4' R5' R3'' R4'' R5''
        R4''' R5''' R5''''.
  cbv zeta. rewrite !reset_output_eq, !fold_on_unit.
  split; [repeat apply store_ok_on_unit; exact Hok5 |].
  intros path N1 N2 N3 N4 N5.
  repeat view_step.
  rewrite V5, V4, V3, V2, V1.
  rewrite !lookup_alter_ne by congruence.
  rewrite !lookup_insert_ne by congruence. reflexivity.
Qed.

End PowerstatsFrame.

(** X16.  The power pass can be run again: its five outputs are cleared
    before they are filled, so a second run leaves under every path the
    unit that the first run left. *)
Theorem powerstats_pass_idempotent
    (get_data_at_time : list (float * float) -> float -> option float)
    (s : MavSystem) (data_battery_volt data_battery_amps : Data)
    (volt amps : list (float * float)) :
  store_ok s ->
  view s !! "power/battery_voltage"%string = Some data_battery_volt ->
  content data_battery_volt = TimeseriesFloat volt ->
  view s !! "power/battery_current"%string = Some data_battery_amps ->
  content data_battery_amps = TimeseriesFloat amps ->
  get_epoch_datastart data_battery_volt = get_epoch_datastart data_battery_amps ->
  resolves KTimeseriesFloat "power/power" s ->
  resolves KTimeseriesFloat "power/inst. consumption" s ->
  resolves KTimeseriesFloat "power/inst. charge" s ->
  resolves KTimeseriesFloat "power/cum. consumption" s ->
  resolves KTimeseriesFloat "power/cum. charge" s ->
  view (_postprocess_powerstats get_data_at_time
          (_postprocess_powerstats get_data_at_time s))
  = view (_postprocess_powerstats get_data_at_time s).
Proof.
  intros Hok Hvolt Hvolt_c Hamps Hamps_c Hsync R1 R2 R3 R4 R5.
  destruct (powerstats_pass_outputs get_data_at_time s data_battery_volt
              data_battery_amps volt amps Hok Hvolt Hvolt_c Hamps Hamps_c Hsync
              R1 R2 R3 R4 R5)
    as (O1 & O3 & O5 & O2 & O4).
  destruct (powerstats_pass_frame get_data_at_time s data_battery_volt
              data_battery_amps volt amps Hok Hvolt Hvolt_c Hamps Hamps_c Hsync
              R1 R2 R3 R4 R5)
    as (Hok1 & Hfr).
  remember (_postprocess_powerstats get_data_at_time s) as s1 eqn:Es1.
  clear Es1 R1 R2 R3 R4 R5.
  apply derived_output_found in O1 as (p1 & o1 & G1 & F1 & V1 & C1 & E1 & T1).
  apply derived_output_found in O2 as (p2 & o2 & G2 & F2 & V2 & C2 & E2 & T2).
  apply derived_output_found in O3 as (p3 & o3 & G3 & F3 & V3 & C3 & E3 & T3).
  apply derived_output_found in O4 as (p4 & o4 & G4 & F4 & V4 & C4 & E4 & T4).
  apply derived_output_found in O5 as (p5 & o5 & G5 & F5 & V5 & C5 & E5 & T5).
  assert (Hvolt1 : view s1 !! "power/battery_voltage"%string = Some data_battery_volt)
    by (rewrite Hfr by path_ne; exact Hvolt).
  assert (Hamps1 : view s1 !! "power/battery_current"%string = Some data_battery_amps)
    by (rewrite Hfr by path_ne; exact Hamps).
  cbv beta delta [_postprocess_powerstats].
  assert (Kv : kind_of (content data_battery_volt) = KTimeseriesFloat)
    by (rewrite Hvolt_c; reflexivity).
  assert (Ka : kind_of (content data_battery_amps) = KTimeseriesFloat)
    by (rewrite Hamps_c; reflexivity).
  open_require Hvolt1 Kv. open_require Hamps1 Ka.
  rewrite Hsync, Z.eqb_refl. cbn [negb].
  rewrite (item_or_return_found _ _ _ _ _ p1 o1 G1) by (rewrite C1; reflexivity).
  rewrite (item_or_return_found _ _ _ _ _ p2 o2 G2) by (rewrite C2; reflexivity).
  rewrite (item_or_return_found _ _ _ _ _ p3 o3 G3) by (rewrite C3; reflexivity).
  rewrite (item_or_return_found _ _ _ _ _ p4 o4 G4) by (rewrite C4; reflexivity).
  rewrite (item_or_return_found _ _ _ _ _ p5 o5 G5) by (rewrite C5; reflexivity).
  cbv zeta. unfold float_series. rewrite Hvolt_c, Hamps_c.
  rewrite !reset_output_eq, !fold_on_unit.
  repeat view_step.
  apply map_eq. intros k.
  destruct (decide (k = "power/power"%string)) as [-> | N1].
  { through_alters. rewrite V1. cbn. f_equal. apply refill_row_unit; assumption. }
  destruct (decide (k = "power/inst. consumption"%string)) as [-> | N2].
  { through_alters. rewrite V2. cbn. f_equal. apply refill_row_unit; assumption. }
  destruct (decide (k = "power/inst. charge"%string)) as [-> | N3].
  { through_alters. rewrite V3. cbn. f_equal. apply refill_row_unit; assumption. }
  destruct (decide (k = "power/cum. consumption"%string)) as [-> | N4].
  { through_alters. rewrite V4. cbn. f_equal. apply refill_row_unit; assumption. }
  destruct (decide (k = "power/cum. charge"%string)) as [-> | N5].
  { through_alters. rewrite V5. cbn. f_equal. apply refill_row_unit; assumption. }
  rewrite !lookup_alter_ne by congruence. reflexivity.
Qed.

Lemma flightbook_pass_idempotent_witness :
  view (_postprocess_flightbook interpolate
          (_postprocess_flightbook interpolate scenario_flight))
  = view (_postprocess_flightbook interpolate scenario_flight).
Proof.
  eapply (flightbook_pass_idempotent interpolate scenario_flight).
  - store_ok_evaluate.
  - vm_compute. reflexivity.
  - cbn [content]. reflexivity.
  - vm_compute. reflexivity.
  - cbn [content]. reflexivity.
  - reflexivity.
  - vm_compute. reflexivity.
  - left. vm_compute. reflexivity.
  - left. vm_compute. reflexivity.
  - left. vm_compute. reflexivity.
  - left. vm_compute. reflexivity.
  - left. vm_compute. reflexivity.
Defined.

Lemma powerstats_pass_idempotent_witness :
  view (_postprocess_powerstats interpolate
          (_postprocess_powerstats interpolate scenario_power))
  = view (_postprocess_powerstats interpolate scenario_power).
Proof.
  eapply (powerstats_pass_idempotent interpolate scenario_power).
  - store_ok_evaluate.
  - vm_compute. reflexivity.
  - cbn [content]. reflexivity.
  - vm_compute. reflexivity.
  - cbn [content]. reflexivity.
  - reflexivity.
  - left. vm_compute. reflexivity.
  - left. vm_compute. reflexivity.
  - left. vm_compute. reflexivity.
  - left. vm_compute. reflexivity.
  - left. vm_compute. reflexivity.
Defined.

(** ** Flight performance samples *)

(** X17.  [track_flightperf] appends the air speed, the ground speed, the
    climb rate and the throttle at the current time.  It resolves (and on
    first use creates) the unit "airstate/alt MSL" as well, but never
    writes to it: the altitude argument is ignored. *)
Theorem track_flightperf_ignores_altitude
    (s : MavSystem)
    (airspeed_ms groundspeed_ms alt_MSL_m climb_ms throttle_percent : float) :
  store_ok s ->
  resolves KTimeseriesFloat "airstate/airspeed" s ->
  resolves KTimeseriesFloat "airstate/groundspeed" s ->
  resolves KTimeseriesFloat "airstate/alt MSL" s ->
  resolves KTimeseriesFloat "airstate/climb" s ->
  resolves KTimeseriesFloat "airstate/throttle" s ->
  let s' := track_flightperf airspeed_ms groundspeed_ms alt_MSL_m climb_ms
              throttle_percent s in
  series_at "airstate/airspeed" s'
  = series_at "airstate/airspeed" s ++ [(_time s, airspeed_ms)] /\
  series_at "airstate/groundspeed" s'
  = series_at "airstate/groundspeed" s ++ [(_time s, groundspeed_ms)] /\
  series_at "airstate/climb" s'
  = series_at "airstate/climb" s ++ [(_time s, climb_ms)] /\
  series_at "airstate/throttle" s'
  = series_at "airstate/throttle" s ++ [(_time s, throttle_percent)] /\
  series_at "airstate/alt MSL" s' = series_at "airstate/alt MSL" s /\
  (exists p, holds KTimeseriesFloat "airstate/alt MSL" p s').
Proof.
  intros Hok Rair Rgnd Rmsl Rclb Rthr s'. subst s'.
  cbv beta delta [track_flightperf].
  open_item_frame Hok Rair p1 s1 Hok1 Hh1 Hs1 Hd1 Hhold1 Hres1 Ht1.
  assert (Rgnd1 := Hres1 _ "airstate/groundspeed"%string ltac:(path_ne) Rgnd).
  assert (Rmsl1 := Hres1 _ "airstate/alt MSL"%string ltac:(path_ne) Rmsl).
  assert (Rclb1 := Hres1 _ "airstate/climb"%string ltac:(path_ne) Rclb).
  assert (Rthr1 := Hres1 _ "airstate/throttle"%string ltac:(path_ne) Rthr).
  open_item_frame Hok1 Rgnd1 p2 s2 Hok2 Hh2 Hs2 Hd2 Hhold2 Hres2 Ht2.
  assert (Rmsl2 := Hres2 _ "airstate/alt MSL"%string ltac:(path_ne) Rmsl1).
  assert (Rclb2 := Hres2 _ "airstate/climb"%string ltac:(path_ne) Rclb1).
  assert (Rthr2 := Hres2 _ "airstate/throttle"%string ltac:(path_ne) Rthr1).
  open_item_frame Hok2 Rmsl2 p3 s3 Hok3 Hh3 Hs3 Hd3 Hhold3 Hres3 Ht3.
  assert (Rclb3 := Hres3 _ "airstate/climb"%string ltac:(path_ne) Rclb2).
  assert (Rthr3 := Hres3 _ "airstate/throttle"%string ltac:(path_ne) Rthr2).
  open_item_frame Hok3 Rclb3 p4 s4 Hok4 Hh4 Hs4 Hd4 Hhold4 Hres4 Ht4.
  assert (Rthr4 := Hres4 _ "airstate/throttle"%string ltac:(path_ne) Rthr3).
  open_item_frame Hok4 Rthr4 p5 s5 Hok5 Hh5 Hs5 Hd5 Hhold5 Hres5 Ht5.
  assert (H1 : holds KTimeseriesFloat "airstate/airspeed" p1 s5).
  { apply Hhold5; [path_ne |]. apply Hhold4; [path_ne |].
    apply Hhold3; [path_ne |]. apply Hhold2; [path_ne |]. exact Hh1. }
  assert (H2 : holds KTimeseriesFloat "airstate/groundspeed" p2 s5).
  { apply Hhold5; [path_ne |]. apply Hhold4; [path_ne |].
    apply Hhold3; [path_ne |]. exact Hh2. }
  assert (H3 : holds KTimeseriesFloat "airstate/alt MSL" p3 s5).
  { apply Hhold5; [path_ne |]. apply Hhold4; [path_ne |]. exact Hh3. }
  assert (H4 : holds KTimeseriesFloat "airstate/climb" p4 s5).
  { apply Hhold5; [path_ne |]. exact Hh4. }
  assert (T : _time s5 = _time s) by congruence.
  assert (S5 : forall path, series_at path s5 = series_at path s).
  { intros path. rewrite Hs5, Hs4, Hs3, Hs2, Hs1. reflexivity. }
  clear Hhold1 Hhold2 Hhold3 Hhold4 Hhold5 Hres1 Hres2 Hres3 Hres4 Hres5.
  cbv zeta. rewrite !time_on_unit, T.
  split; [| split; [| split; [| split; [| split]]]].
  6: { exists p3. store_side. }
  all: rewrite !(series_at_add_float "airstate/throttle" p5) by store_side;
    rewrite !(series_at_add_float "airstate/climb" p4) by store_side;
    rewrite !(series_at_add_float "airstate/groundspeed" p2) by store_side;
    rewrite !(series_at_add_float "airstate/airspeed" p1) by store_side;
    rewrite !S5; reflexivity.
Qed.

Lemma track_flightperf_ignores_altitude_witness :
  let s0 := MavSystem_new 1 in
  series_at "airstate/throttle" (track_flightperf 20 18 500 1 60 s0)
  = series_at "airstate/throttle" s0 ++ [(_time s0, 60%float)] /\
  series_at "airstate/alt MSL" (track_flightperf 20 18 500 1 60 s0)
  = series_at "airstate/alt MSL" s0 /\
  (exists p, holds KTimeseriesFloat "airstate/alt MSL" p
               (track_flightperf 20 18 500 1 60 s0)).
Proof.
  intros s0.
  destruct (track_flightperf_ignores_altitude s0 20 18 500 1 60 (store_ok_new 1)
              (resolves_new _ _ 1) (resolves_new _ _ 1) (resolves_new _ _ 1)
              (resolves_new _ _ 1) (resolves_new _ _ 1))
    as (_ & _ & _ & H4 & H5 & H6).
  split; [exact H4 |]. split; [exact H5 | exact H6].
Defined.

(** ** Timing repair *)

Section BadTiming.

Variable has_bad_timestamps : Data -> bool.
Variable make_periodic : Data -> Data.

Lemma bad_timing_fold (l : list (string * ptr)) (s : MavSystem) :
  (forall it d, it ∈ l -> heap s !! it.2 = Some d ->
                is_timed d && has_bad_timestamps d = false) ->
  fold_left
    (fun s (it : string * ptr) =>
       match heap s !! it.2 with
       | Some ds =>
           if is_timed ds && has_bad_timestamps ds then
             let bak_name := get_name ds +:+ "_orig" in
             let (data_orig, s) := alloc (set_name bak_name ds) s in
             let fullname := get_fullname (set_name bak_name ds) in
             let s := _data_register_hierarchy fullname data_orig s in
             on_unit make_periodic it.2 s
           else s
       | None => s
       end) l s = s.
Proof.
  induction l as [| it l IH]; intros Hgood; [reflexivity |].
  cbn [fold_left].
  destruct (heap s !! it.2) as [ds |] eqn:E.
  - rewrite (Hgood it ds) by (try left; assumption).
    apply IH. intros it' d H. apply Hgood. right. exact H.
  - apply IH. intros it' d H. apply Hgood. right. exact H.
Qed.

End BadTiming.

(** X18.  The timing repair leaves a system alone in which no timed unit
    reports bad time stamps: no backup is created and no unit is
    re-aligned. *)
Theorem bad_timing_nothing_to_fix
    (has_bad_timestamps : Data -> bool) (make_periodic : Data -> Data)
    (s : MavSystem) :
  (forall path p d,
      _data_from_path s !! path = Some p -> heap s !! p = Some d ->
      is_timed d && has_bad_timestamps d = false) ->
  _postprocess_bad_timing has_bad_timestamps make_periodic s = s.
Proof.
  intros Hgood. unfold _postprocess_bad_timing.
  apply bad_timing_fold. intros [path p] d Hin Hd.
  apply (Hgood path p d); [apply in_key_order_spec, Hin | exact Hd].
Qed.

Lemma bad_timing_nothing_to_fix_witness :
  _postprocess_bad_timing (fun d => Nat.ltb 1000 (data_size d)) clear sys_with_power
  = sys_with_power.
Proof.
  apply (bad_timing_nothing_to_fix (fun d => Nat.ltb 1000 (data_size d)) clear
           sys_with_power).
  intros path p d Hp Hd.
  assert (H : map_Forall
                (fun (_ : string) (q : ptr) =>
                   forall d', heap sys_with_power !! q = Some d' ->
                              is_timed d' && Nat.ltb 1000 (data_size d') = false)
                (_data_from_path sys_with_power)).
  { apply map_Forall_to_list. vm_compute.
    repeat constructor; cbn; intros d' [= <-]; reflexivity. }
  exact (H path p Hp d Hd).
Defined.

(** ** Baselines after a merge *)

Lemma determine_absolute_time_rebases (s : MavSystem) path p d :
  _data_from_path (determine_absolute_time s) !! path = Some p ->
  heap (determine_absolute_time s) !! p = Some d ->
  get_epoch_datastart d = _time_offset_usec (determine_absolute_time s).
Proof.
  unfold determine_absolute_time.
  set (offset := match _time_offset_raw s with
                 | [] => _time_offset_guess_usec s
                 | _ => mean_offset_usec (_time_offset_raw s)
                 end).
  rewrite on_units_as_heap.
  cbn [with_heap with_store with_offsets _time_offset_usec _data_from_path heap].
  intros Hf. rewrite alter_fold_lookup by reflexivity.
  rewrite decide_True by (apply in_key_order_values; eauto).
  destruct (heap s !! p) as [d0 |]; [| discriminate].
  cbn. intros [= <-]. reflexivity.
Qed.

(** X19.  After a merge that added at least one unit, every unit of the
    receiving system has the absolute offset of the receiving system as
    its baseline, also the units that came from the other system with a
    baseline of their own. *)
Theorem merge_in_rebases_units
    (get_data_at_time : list (float * float) -> float -> option float)
    (has_bad_timestamps : Data -> bool) (make_periodic : Data -> Data)
    (regex_match : string -> string -> bool) (uninitialised : float)
    (_postprocess_glideperf_vel : MavSystem -> MavSystem)
    (other s : MavSystem) :
  true ∈ (merge_loop other s).1.1 ->
  let s' := (merge_in get_data_at_time has_bad_timestamps make_periodic
               regex_match uninitialised _postprocess_glideperf_vel other s).2 in
  forall path p d,
    _data_from_path s' !! path = Some p -> heap s' !! p = Some d ->
    get_epoch_datastart d = _time_offset_usec s'.
Proof.
  intros Hadded s'. subst s'. unfold merge_in.
  assert (Hflag : (merge_loop other s).1.2 = true).
  { rewrite merge_loop_unfold in Hadded |- *.
    destruct (merge_fold other (in_key_order (_data_from_path other)) [] false s)
      as (new & Hdone & _ & Hflag).
    rewrite Hflag. rewrite Hdone in Hadded. cbn in Hadded |- *.
    apply existsb_exists. exists true. split; [| reflexivity].
    apply list_elem_of_In, Hadded. }
  destruct (merge_loop other s) as [[done added] s1]. cbn [fst snd] in Hflag.
  subst added. cbn [snd]. apply determine_absolute_time_rebases.
Qed.



Lemma merge_in_rebases_units_witness :
  exists d, heap merged_other_day !! 0%nat = Some d /\
            get_epoch_datastart d = 1700000000000000.
Proof.
  destruct (heap merged_other_day !! 0%nat) as [d |] eqn:E;
    [| vm_compute in E; discriminate E].
  exists d. split; [reflexivity |].
  rewrite (merge_in_rebases_units interpolate (fun _ => false) (fun d => d)
             word_match 0%float (fun s => s) other_day two_references
             ltac:(vm_compute; left) "power/battery_current" 0%nat d
             ltac:(vm_compute; reflexivity) E).
  vm_compute. reflexivity.
Defined.

(** ** The guess of the offset *)

(** X20.  Without reference pairs the absolute offset is the guess: after
    [update_time_offset_guess] with a positive absolute stamp that is not
    before the relative stamp, [determine_absolute_time] sets the offset
    to their difference; a guess with the absolute stamp 0 is ignored. *)
Theorem offset_from_guess (s : MavSystem) (nowtime_relative_usec epoch_usec : Z) :
  _time_offset_raw s = [] ->
  0 <= nowtime_relative_usec <= epoch_usec -> epoch_usec < two64 ->
  _time_offset_usec
    (determine_absolute_time
       (update_time_offset_guess nowtime_relative_usec epoch_usec s))
  = (if (0 <? epoch_usec)%Z then epoch_usec - nowtime_relative_usec
     else _time_offset_guess_usec s).
Proof.
  intros Hraw Hrange Hmax.
  unfold determine_absolute_time. rewrite on_units_as_heap.
  cbn [with_heap with_store with_offsets _time_offset_usec].
  unfold update_time_offset_guess.
  destruct (0 <? epoch_usec)%Z;
    cbn [with_offsets _time_offset_raw _time_offset_guess_usec]; rewrite Hraw;
    [| reflexivity].
  apply wrap64_small. lia.
Qed.

Lemma offset_from_guess_witness :
  _time_offset_usec
    (determine_absolute_time
       (update_time_offset_guess 1000000 1700000001000000 (MavSystem_new 1)))
  = 1700000000000000.
Proof.
  apply (offset_from_guess (MavSystem_new 1) 1000000 1700000001000000).
  - reflexivity.
  - lia.
  - reflexivity.
Defined.

(** ** The position-based glide pass *)

Section GlideperfPos.

Variable get_data_at_time : list (float * float) -> float -> option float.

Lemma hdist_fold_prefix ys zs (l : list (float * float)) (st : hdist_loop) :
  exists more,
    dist_row (fold_left (hdist_step get_data_at_time ys zs) l st)
    = dist_row st ++ more.
Proof.
  revert st. induction l as [| [t x] l IH]; intros st; cbn [fold_left].
  - exists []. rewrite app_nil_r. reflexivity.
  - destruct (IH (hdist_step get_data_at_time ys zs st (t, x))) as [more Hmore].
    rewrite Hmore. unfold hdist_step.
    destruct (get_data_at_time ys t) as [y |]; [| cbn; eauto].
    destruct (get_data_at_time zs t) as [z |]; [| cbn; eauto].
    destruct (k_pos st); cbn [dist_row]; [eauto |].
    rewrite <- app_assoc. eauto.
Qed.

End GlideperfPos.

(** X21.  The position pass appends to whatever "glideperf/cum. horz.
    dist." holds: it does not clear its output.  The distance it cumulates
    starts from the local [hdist_pre], which is never initialised: the
    first sample it appends is the length of the first leg plus that
    unspecified value. *)
Theorem glideperf_pos_appends
    (get_data_at_time : list (float * float) -> float -> option float)
    (regex_match : string -> string -> bool) (uninitialised : float)
    (s : MavSystem) (px py pz : ptr) (data_x data_y data_z : Data) :
  store_ok s ->
  get_data_pattern regex_match "\bPN\b" s = Some (px, data_x) ->
  get_data_pattern regex_match "\bPE\b" s = Some (py, data_y) ->
  get_data_pattern regex_match "\bPD\b" s = Some (pz, data_z) ->
  resolves KTimeseriesFloat "glideperf/cum. horz. dist." s ->
  let row :=
    dist_row (fold_left (hdist_step get_data_at_time (float_series data_y)
                                    (float_series data_z))
                        (float_series data_x)
                        (mkHdistLoop 0 uninitialised uninitialised uninitialised [])) in
  series_at "glideperf/cum. horz. dist."
    (_postprocess_glideperf_pos get_data_at_time regex_match uninitialised s)
  = series_at "glideperf/cum. horz. dist." s ++ row /\
  (forall t0 x0 t1 x1 rest y0 z0 y1 z1,
      float_series data_x = (t0, x0) :: (t1, x1) :: rest ->
      get_data_at_time (float_series data_y) t0 = Some y0 ->
      get_data_at_time (float_series data_z) t0 = Some z0 ->
      get_data_at_time (float_series data_y) t1 = Some y1 ->
      get_data_at_time (float_series data_z) t1 = Some z1 ->
      head row
      = Some (t1, round32 (sqrt (round32 (x1 - x0) * round32 (x1 - x0)
                                 + round32 (y1 - y0) * round32 (y1 - y0))
                           + uninitialised))).
Proof.
  intros Hok Hx Hy Hz R row. split.
  - cbv beta delta [_postprocess_glideperf_pos]. rewrite Hx, Hy, Hz.
    open_item Hok R p s1 d E Hok1 Hg Hc Hfr Ht. clear E.
    cbv zeta. fold row.
    rewrite fold_on_unit, on_unit_compose.
    destruct (on_unit_spec
                ((fun d => fold_left (fun d a => add_elem_float a.2 a.1 d) row d)
                   ∘ set_type DATA_DERIVED)
                "glideperf/cum. horz. dist." p d s1 Hok1 Hg) as (_ & Hg' & _).
    rewrite (series_at_get _ _ _ _ Hg'). cbn [compose].
    rewrite (add_row_all row _ (series_at "glideperf/cum. horz. dist." s)).
    + reflexivity.
    + cbn [set_type content]. rewrite Hc. apply series_at_content, R.
  - intros t0 x0 t1 x1 rest y0 z0 y1 z1 Hxs Hy0 Hz0 Hy1 Hz1.
    subst row. rewrite Hxs. cbn [fold_left].
    destruct (hdist_fold_prefix get_data_at_time (float_series data_y)
                (float_series data_z) rest
                (hdist_step get_data_at_time (float_series data_y) (float_series data_z)
                   (hdist_step get_data_at_time (float_series data_y)
                      (float_series data_z)
                      (mkHdistLoop 0 uninitialised uninitialised uninitialised [])
                      (t0, x0)) (t1, x1))) as [more Hmore].
    rewrite Hmore. unfold hdist_step at 1 2.
    rewrite Hy0, Hz0. cbn [k_pos x_pre y_pre hdist_pre dist_row].
    rewrite Hy1, Hz1. cbn [k_pos x_pre y_pre hdist_pre dist_row app head].
    reflexivity.
Qed.

Lemma glideperf_pos_appends_witness :
  series_at "glideperf/cum. horz. dist."
    (_postprocess_glideperf_pos interpolate word_match 7%float position_log)
  = [(1, 12); (2, 17)]%float.
Proof.
  edestruct (glideperf_pos_appends interpolate word_match 7%float position_log)
    as [E _].
  - store_ok_evaluate.
  - vm_compute. reflexivity.
  - vm_compute. reflexivity.
  - vm_compute. reflexivity.
  - left. vm_compute. reflexivity.
  - rewrite E. vm_compute. reflexivity.
Defined.

(** ** The vehicle state and the link statistics *)

Lemma content_at_view k path s :
  content_at k path s
  = match view s !! path with Some d => content d | None => no_samples k end.
Proof.
  unfold content_at. rewrite view_get.
  destruct (_get_data path s) as [[p d] |]; reflexivity.
Qed.

Lemma members_alloc d s : members (alloc d s).2 = members s.
Proof. reflexivity. Qed.

Lemma data_item_members k path units s p s' :
  data_item k path units s = Some (p, s') -> members s' = members s.
Proof.
  unfold data_item. destruct (_data_from_path s !! path) as [q |].
  - destruct (heap s !! q) as [d |]; [| discriminate].
    case_decide; [| discriminate]. intros [= _ <-]. reflexivity.
  - intros [= _ <-]. rewrite members_register. reflexivity.
Qed.

(** the access macro, in a function that returns more than the system *)
Lemma item_or_return_with_view {A : Type} k path units s
    (ret : MavSystem -> A) (body : ptr -> MavSystem -> A) :
  store_ok s -> resolves k path s ->
  exists p s' d,
    MAVSYSTEM_DATA_ITEM_OR_RETURN_with k path units s ret body = body p s' /\
    store_ok s' /\
    _data_from_path s' !! path = Some p /\
    (forall path', path' <> path ->
       _data_from_path s' !! path' = _data_from_path s !! path') /\
    view s' = <[path := d]> (view s) /\
    content d = content_at k path s /\ kind_of (content d) = k /\
    members s' = members s.
Proof.
  intros Hok Hres.
  destruct (data_item_spec k path units s Hok Hres)
    as (p & s' & d & E & Hok' & Hg & Hc & Hk & Hfr & Ht).
  exists p, s', d. unfold MAVSYSTEM_DATA_ITEM_OR_RETURN_with. rewrite E.
  split; [reflexivity |]. split; [exact Hok' |].
  split; [apply get_data_Some in Hg; tauto |].
  split; [intros path' Hne; apply Hfr, Hne |].
  split; [| split; [exact Hc | split; [exact Hk | eapply data_item_members; eauto]]].
  apply map_eq. intros path'. rewrite lookup_insert, !view_get.
  case_decide as E'.
  - subst path'. rewrite Hg. reflexivity.
  - rewrite (proj2 (Hfr path' ltac:(congruence))). reflexivity.
Qed.

Ltac open_item_with Hok Hres p s1 d Hok1 Hf Hfr Hv Hc Hk Hm :=
  match goal with
  | |- context [MAVSYSTEM_DATA_ITEM_OR_RETURN_with ?k ?path ?u ?s ?ret ?body] =>
      let E := fresh "E" in
      destruct (item_or_return_with_view k path u s ret body Hok Hres)
        as (p & s1 & d & E & Hok1 & Hf & Hfr & Hv & Hc & Hk & Hm);
      rewrite E; cbv beta; clear E
  end.

Lemma last_snoc_event (l : list (float * string)) x : last (l ++ [x]) = Some x.
Proof. apply last_snoc. Qed.

Lemma add_on_change_events str time d :
  kind_of (content d) = KEventString ->
  event_series (add_on_change str time d)
  = on_change (event_series d) time str /\
  kind_of (content (add_on_change str time d)) = KEventString.
Proof.
  intros Hk. unfold add_on_change, on_change, get_latest, data_size,
    event_series, add_elem_event.
  destruct (content d) as [l | l | l | l | l | l] eqn:Hc; try discriminate.
  destruct l as [| ev l] using rev_ind.
  - cbn. auto.
  - rewrite length_app, Nat.add_comm. cbn [length Nat.add Nat.eqb negb].
    rewrite last_snoc.
    destruct (String.eqb ev.2 str); cbn [negb]; cbn; rewrite ?Hc; auto.
Qed.

Lemma no_repeat_on_change l time str :
  no_repeat l -> no_repeat (on_change l time str).
Proof.
  intros Hl. unfold on_change.
  destruct (last l) as [ev |] eqn:Hlast.
  - destruct (String.eqb ev.2 str) eqn:E; [exact Hl |].
    apply String.eqb_neq in E.
    intros i a b Ha Hb.
    apply lookup_snoc_Some in Hb as [[Hi Hb] | [Hi Hb]].
    + apply (Hl i a b); [| exact Hb].
      rewrite lookup_app_l in Ha by lia. exact Ha.
    + inversion Hb; subst b. cbn [snd].
      rewrite last_lookup in Hlast.
      rewrite lookup_app_l in Ha by lia.
      replace (pred (length l)) with i in Hlast by lia.
      congruence.
  - apply last_None in Hlast. subst l. cbn.
    intros i a b Ha Hb. destruct i; discriminate.
Qed.

Lemma time_members s s' : members s' = members s -> _time s' = _time s.
Proof. intros H. apply (f_equal _time) in H. exact H. Qed.

Lemma resolves_after_item_with (path : string) s s' k' path' d :
  path' <> path ->
  (forall q, q <> path -> _data_from_path s' !! q = _data_from_path s !! q) ->
  view s' = <[path := d]> (view s) ->
  resolves k' path' s -> resolves k' path' s'.
Proof. apply resolves_after_item. Qed.

Lemma events_of_content d path s :
  content d = content_at KEventString path s -> event_series d = events_at path s.
Proof.
  intros Hc. unfold event_series, events_at. rewrite Hc, content_at_view.
  destruct (view s !! path); reflexivity.
Qed.

Lemma uints_of_content d path s :
  content d = content_at KTimeseriesUInt path s ->
  match content d with TimeseriesUInt l => l | _ => [] end = uint_series_at path s.
Proof.
  intros Hc. unfold uint_series_at. rewrite Hc, content_at_view.
  destruct (view s !! path); reflexivity.
Qed.

Lemma content_at_after_item k path path' s s' d :
  view s' = <[path := d]> (view s) -> path' <> path ->
  content_at k path' s' = content_at k path' s.
Proof.
  intros Hv Hne. rewrite !content_at_view, Hv, lookup_insert_ne by congruence.
  reflexivity.
Qed.

Ltac through_inserts :=
  repeat (rewrite lookup_insert_eq || rewrite lookup_insert_ne by path_ne).

Section TrackSystem.

Variable s : MavSystem.
Variable v : Vehicle.
Variables stype status atype basemode custmode : Z.

Hypothesis Hok : store_ok s.
Hypothesis R1 : resolves KEventString "mission/armed" s.
Hypothesis R2 : resolves KEventString "mission/stabilized" s.
Hypothesis R3 : resolves KEventString "mission/guided" s.
Hypothesis R4 : resolves KEventString "mission/manual" s.
Hypothesis R5 : resolves KEventString "system/status" s.
Hypothesis R6 : resolves KTimeseriesUInt "system/custom_mode" s.

Lemma track_system_spec :
  let r := track_system stype status atype basemode custmode (v, s) in
  events_at "mission/armed" r.2
  = on_change (events_at "mission/armed" s) (_time s)
      (if flag_set basemode MAVLink.MAV_MODE_FLAG_SAFETY_ARMED
       then "armed" else "disarmed") /\
  events_at "mission/stabilized" r.2
  = on_change (events_at "mission/stabilized" s) (_time s)
      (if flag_set basemode MAVLink.MAV_MODE_FLAG_STABILIZE_ENABLED
       then "stabilized on" else "stabilized off") /\
  events_at "mission/guided" r.2
  = on_change (events_at "mission/guided" s) (_time s)
      (if flag_set basemode MAVLink.MAV_MODE_FLAG_GUIDED_ENABLED
       then "guided on" else "guided off") /\
  events_at "mission/manual" r.2
  = on_change (events_at "mission/manual" s) (_time s)
      (if flag_set basemode MAVLink.MAV_MODE_FLAG_MANUAL_INPUT_ENABLED
       then "manual on" else "manual off") /\
  events_at "system/status" r.2
  = on_change (events_at "system/status" s) (_time s) (strstate status) /\
  uint_series_at "system/custom_mode" r.2
  = uint_series_at "system/custom_mode" s ++ [(_time s, custmode)] /\
  r.1 = mkVehicle
          stype
          (if mavtype v =? stype then mavtype_str v else _mavtype2str stype)
          atype
          (if aptype v =? atype then aptype_str v else _aptype2str atype)
          (flag_set basemode MAVLink.MAV_MODE_FLAG_SAFETY_ARMED || has_been_armed v)
          (_mavlink_summary v).
Proof using All.
  intros r. subst r.
  cbv beta delta [track_system]. cbv beta iota.
  open_item_with Hok R1 p1 s1 d1 Hok1 F1 Fr1 V1 C1 K1 M1.
  carry_resolves R2 Fr1 V1 R2'. carry_resolves R3 Fr1 V1 R3'.
  carry_resolves R4 Fr1 V1 R4'. carry_resolves R5 Fr1 V1 R5'.
  carry_resolves R6 Fr1 V1 R6'.
  open_item_with Hok1 R2' p2 s2 d2 Hok2 F2 Fr2 V2 C2 K2 M2.
  carry_resolves R3' Fr2 V2 R3''. carry_resolves R4' Fr2 V2 R4''.
  carry_resolves R5' Fr2 V2 R5''. carry_resolves R6' Fr2 V2 R6''.
  open_item_with Hok2 R3'' p3 s3 d3 Hok3 F3 Fr3 V3 C3 K3 M3.
  carry_resolves R4'' Fr3 V3 R4'''. carry_resolves R5'' Fr3 V3 R5'''.
  carry_resolves R6'' Fr3 V3 R6'''.
  open_item_with Hok3 R4''' p4 s4 d4 Hok4 F4 Fr4 V4 C4 K4 M4.
  carry_resolves R5''' Fr4 V4 R5''''. carry_resolves R6''' Fr4 V4 R6''''.
  open_item_with Hok4 R5'''' p5 s5 d5 Hok5 F5 Fr5 V5 C5 K5 M5.
  carry_resolves R6'''' Fr5 V5 R6'''''.
  open_item_with Hok5 R6''''' p6 s6 d6 Hok6 F6 Fr6 V6 C6 K6 M6.
  assert (G1 : _data_from_path s6 !! "mission/armed"%string = Some p1).
  { rewrite Fr6, Fr5, Fr4, Fr3, Fr2 by path_ne. exact F1. }
  assert (G2 : _data_from_path s6 !! "mission/stabilized"%string = Some p2).
  { rewrite Fr6, Fr5, Fr4, Fr3 by path_ne. exact F2. }
  assert (G3 : _data_from_path s6 !! "mission/guided"%string = Some p3).
  { rewrite Fr6, Fr5, Fr4 by path_ne. exact F3. }
  assert (G4 : _data_from_path s6 !! "mission/manual"%string = Some p4).
  { rewrite Fr6, Fr5 by path_ne. exact F4. }
  assert (G5 : _data_from_path s6 !! "system/status"%string = Some p5).
  { rewrite Fr6 by path_ne. exact F5. }
  assert (T : _time s6 = _time s).
  { rewrite (time_members _ _ M6), (time_members _ _ M5), (time_members _ _ M4),
      (time_members _ _ M3), (time_members _ _ M2). apply time_members, M1. }
  clear Fr1 Fr2 Fr3 Fr4 Fr5 Fr6 F1 F2 F3 F4 F5 R1 R2 R3 R4 R5 R6 R2' R3' R4' R5' R6'
        R3'' R4'' R5'' R6'' R4''' R5''' R6''' R5'''' R6'''' R6'''''.
  rewrite (content_at_after_item _ _ _ _ _ _ V1) in C2 by path_ne.
  rewrite (content_at_after_item _ _ _ _ _ _ V2),
          (content_at_after_item _ _ _ _ _ _ V1) in C3 by path_ne.
  rewrite (content_at_after_item _ _ _ _ _ _ V3),
          (content_at_after_item _ _ _ _ _ _ V2),
          (content_at_after_item _ _ _ _ _ _ V1) in C4 by path_ne.
  rewrite (content_at_after_item _ _ _ _ _ _ V4),
          (content_at_after_item _ _ _ _ _ _ V3),
          (content_at_after_item _ _ _ _ _ _ V2),
          (content_at_after_item _ _ _ _ _ _ V1) in C5 by path_ne.
  rewrite (content_at_after_item _ _ _ _ _ _ V5),
          (content_at_after_item _ _ _ _ _ _ V4),
          (content_at_after_item _ _ _ _ _ _ V3),
          (content_at_after_item _ _ _ _ _ _ V2),
          (content_at_after_item _ _ _ _ _ _ V1) in C6 by path_ne.
  apply events_of_content in C1, C2, C3, C4, C5.
  apply uints_of_content in C6.
  cbv zeta. rewrite !time_on_unit, T.
  destruct (mavtype v =? stype) eqn:Em, (aptype v =? atype) eqn:Ea;
    cbn [negb fst snd];
    unfold events_at at 1 3 5 7 9; unfold uint_series_at at 1;
    repeat view_step; rewrite V6, V5, V4, V3, V2, V1;
    through_alters; through_inserts; cbn [fmap option_fmap option_map];
    rewrite ?(proj1 (add_on_change_events _ _ _ K1)),
            ?(proj1 (add_on_change_events _ _ _ K2)),
            ?(proj1 (add_on_change_events _ _ _ K3)),
            ?(proj1 (add_on_change_events _ _ _ K4)),
            ?(proj1 (add_on_change_events _ _ _ K5)),
            ?C1, ?C2, ?C3, ?C4, ?C5.
  all: repeat match goal with
              | H : (_ =? _) = true |- _ => apply Z.eqb_eq in H
              end.
  all: split; [reflexivity |]; split; [reflexivity |]; split; [reflexivity |];
       split; [reflexivity |]; split; [reflexivity |]; split.
  all: try (rewrite <- C6; unfold add_elem_uint;
            destruct (content d6); try discriminate; reflexivity).
  all: destruct (flag_set basemode MAV_MODE_FLAG_SAFETY_ARMED); cbn [orb];
       congruence.
Qed.

End TrackSystem.

(** X22.  [track_system] enters a state into each of its five event logs
    only when the log is empty or its latest entry is another state, so a
    log in which no state follows itself stays such a log; the custom mode
    is recorded on every call.  The hypotheses are the guard of the access
    macro on the six paths. *)
Theorem track_system_logs_changes
    (s : MavSystem) (v : Vehicle) (stype status atype basemode custmode : Z) :
  store_ok s ->
  resolves KEventString "mission/armed" s ->
  resolves KEventString "mission/stabilized" s ->
  resolves KEventString "mission/guided" s ->
  resolves KEventString "mission/manual" s ->
  resolves KEventString "system/status" s ->
  resolves KTimeseriesUInt "system/custom_mode" s ->
  let s' := (track_system stype status atype basemode custmode (v, s)).2 in
  events_at "mission/armed" s'
  = on_change (events_at "mission/armed" s) (_time s)
      (if flag_set basemode MAVLink.MAV_MODE_FLAG_SAFETY_ARMED
       then "armed" else "disarmed") /\
  events_at "mission/stabilized" s'
  = on_change (events_at "mission/stabilized" s) (_time s)
      (if flag_set basemode MAVLink.MAV_MODE_FLAG_STABILIZE_ENABLED
       then "stabilized on" else "stabilized off") /\
  events_at "mission/guided" s'
  = on_change (events_at "mission/guided" s) (_time s)
      (if flag_set basemode MAVLink.MAV_MODE_FLAG_GUIDED_ENABLED
       then "guided on" else "guided off") /\
  events_at "mission/manual" s'
  = on_change (events_at "mission/manual" s) (_time s)
      (if flag_set basemode MAVLink.MAV_MODE_FLAG_MANUAL_INPUT_ENABLED
       then "manual on" else "manual off") /\
  events_at "system/status" s'
  = on_change (events_at "system/status" s) (_time s) (strstate status) /\
  uint_series_at "system/custom_mode" s'
  = uint_series_at "system/custom_mode" s ++ [(_time s, custmode)] /\
  (forall path,
      path ∈ ["mission/armed"; "mission/stabilized"; "mission/guided";
              "mission/manual"; "system/status"]%string ->
      no_repeat (events_at path s) -> no_repeat (events_at path s')).
Proof.
  intros Hok R1 R2 R3 R4 R5 R6 s'.
  destruct (track_system_spec s v stype status atype basemode custmode
              Hok R1 R2 R3 R4 R5 R6) as (E1 & E2 & E3 & E4 & E5 & E6 & _).
  fold s' in E1, E2, E3, E4, E5, E6.
  repeat (split; [assumption |]).
  intros path Hin Hnr.
  repeat (apply elem_of_cons in Hin as [-> | Hin];
          [first [rewrite E1 | rewrite E2 | rewrite E3 | rewrite E4 | rewrite E5];
           apply no_repeat_on_change, Hnr |]).
  inversion Hin.
Qed.

(** X23.  [track_system] takes over the vehicle type and the autopilot
    type of the heartbeat, renames them when they change, and sets
    [has_been_armed] when the armed flag of the base mode is set; the flag
    is never reset.  The link statistics are left alone. *)
Theorem track_system_identity
    (s : MavSystem) (v : Vehicle) (stype status atype basemode custmode : Z) :
  store_ok s ->
  resolves KEventString "mission/armed" s ->
  resolves KEventString "mission/stabilized" s ->
  resolves KEventString "mission/guided" s ->
  resolves KEventString "mission/manual" s ->
  resolves KEventString "system/status" s ->
  resolves KTimeseriesUInt "system/custom_mode" s ->
  let v' := (track_system stype status atype basemode custmode (v, s)).1 in
  mavtype v' = stype /\
  mavtype_str v'
  = (if mavtype v =? stype then mavtype_str v else _mavtype2str stype) /\
  aptype v' = atype /\
  aptype_str v'
  = (if aptype v =? atype then aptype_str v else _aptype2str atype) /\
  has_been_armed v'
  = flag_set basemode MAVLink.MAV_MODE_FLAG_SAFETY_ARMED || has_been_armed v /\
  (has_been_armed v = true -> has_been_armed v' = true) /\
  _mavlink_summary v' = _mavlink_summary v.
Proof.
  intros Hok R1 R2 R3 R4 R5 R6 v'.
  destruct (track_system_spec s v stype status atype basemode custmode
              Hok R1 R2 R3 R4 R5 R6) as (_ & _ & _ & _ & _ & _ & E).
  fold v' in E. rewrite E. cbn.
  repeat (split; [reflexivity |]). split; [| reflexivity].
  intros ->. apply orb_true_r.
Qed.

Lemma track_system_logs_changes_witness :
  let s0 := MavSystem_new 1 in
  let s' := (track_system 2 4 3 144 0 (Vehicle_defaults 255 255, s0)).2 in
  events_at "mission/armed" s'
  = on_change (events_at "mission/armed" s0) (_time s0) "armed" /\
  events_at "system/status" s'
  = on_change (events_at "system/status" s0) (_time s0) "active" /\
  uint_series_at "system/custom_mode" s'
  = uint_series_at "system/custom_mode" s0 ++ [(_time s0, 0)].
Proof.
  intros s0 s'.
  destruct (track_system_logs_changes s0 (Vehicle_defaults 255 255) 2 4 3 144 0
              (store_ok_new 1)
              (resolves_new _ _ 1) (resolves_new _ _ 1) (resolves_new _ _ 1)
              (resolves_new _ _ 1) (resolves_new _ _ 1) (resolves_new _ _ 1))
    as (E1 & _ & _ & _ & E5 & E6 & _).
  split; [exact E1 |]. split; [exact E5 | exact E6].
Defined.

Lemma track_system_identity_witness :
  let v' := (track_system 2 4 3 144 0 (Vehicle_defaults 255 255, MavSystem_new 1)).1 in
  mavtype v' = 2 /\ mavtype_str v' = "quadrotor"%string /\
  aptype_str v' = "ArduPilotMega"%string /\ has_been_armed v' = true.
Proof.
  intros v'.
  destruct (track_system_identity (MavSystem_new 1) (Vehicle_defaults 255 255)
              2 4 3 144 0 (store_ok_new 1)
              (resolves_new _ _ 1) (resolves_new _ _ 1) (resolves_new _ _ 1)
              (resolves_new _ _ 1) (resolves_new _ _ 1) (resolves_new _ _ 1))
    as (E1 & E2 & _ & E4 & E5 & _).
  split; [exact E1 |]. split; [exact E2 |]. split; [exact E4 | exact E5].
Defined.

Section LinkFacts.

Variable counter_modulus : Z.
Variable bytes_modulus : Z.

Lemma count_adds_up_l a b c :
  ((a + b + c) mod counter_modulus + 1) mod counter_modulus
  = ((a + 1) mod counter_modulus + b + c) mod counter_modulus.
Proof.
  replace ((a + 1) mod counter_modulus + b + c)
    with ((b + c) + (a + 1) mod counter_modulus) by lia.
  rewrite Zplus_mod_idemp_r, Zplus_mod_idemp_l. f_equal. lia.
Qed.

Lemma count_adds_up_m a b c :
  ((a + b + c) mod counter_modulus + 1) mod counter_modulus
  = (a + (b + 1) mod counter_modulus + c) mod counter_modulus.
Proof.
  replace (a + (b + 1) mod counter_modulus + c)
    with ((a + c) + (b + 1) mod counter_modulus) by lia.
  rewrite Zplus_mod_idemp_r, Zplus_mod_idemp_l. f_equal. lia.
Qed.

Lemma count_adds_up_r a b c :
  ((a + b + c) mod counter_modulus + 1) mod counter_modulus
  = (a + b + (c + 1) mod counter_modulus) mod counter_modulus.
Proof.
  rewrite Zplus_mod_idemp_r, Zplus_mod_idemp_l. f_equal. lia.
Qed.

Lemma track_mavlink_spec (s : MavSystem) (v : Vehicle)
    (data_length_bytes msgid : Z) (whatwasdone : mavlink_parsed_e) :
  store_ok s ->
  resolves KTimeseriesFloat "radio/throughput" s ->
  let r := track_mavlink counter_modulus bytes_modulus data_length_bytes msgid
             whatwasdone (v, s) in
  let m := _mavlink_summary v in
  let m' := _mavlink_summary r.1 in
  let bytes := (_link_throughput_bytes m + data_length_bytes) mod bytes_modulus in
  num_received m' = (num_received m + 1) mod counter_modulus /\
  num_interpreted m'
  = (match whatwasdone with
     | MAVLINK_INTERPRETED => (num_interpreted m + 1) mod counter_modulus
     | _ => num_interpreted m
     end) /\
  num_uninterpreted m'
  = (match whatwasdone with
     | MAVLINK_UNINTERPRETED => (num_uninterpreted m + 1) mod counter_modulus
     | _ => num_uninterpreted m
     end) /\
  num_error m'
  = (match whatwasdone with
     | MAVLINK_ERROR => (num_error m + 1) mod counter_modulus
     | _ => num_error m
     end) /\
  (counters_add_up counter_modulus m -> counters_add_up counter_modulus m') /\
  _link_throughput_bytes m' = (if _have_time_update s then 0 else bytes) /\
  series_at "radio/throughput" r.2
  = (if _have_time_update s
     then series_at "radio/throughput" s
          ++ [(_time s, round32 (double_of_Z bytes / 128))]
     else series_at "radio/throughput" s) /\
  mavlink_msgids_interpreted m'
  = (match whatwasdone with
     | MAVLINK_INTERPRETED => {[msgid]} ∪ mavlink_msgids_interpreted m
     | _ => mavlink_msgids_interpreted m
     end) /\
  mavlink_msgids_uninterpreted m'
  = (match whatwasdone with
     | MAVLINK_UNINTERPRETED => {[msgid]} ∪ mavlink_msgids_uninterpreted m
     | _ => mavlink_msgids_uninterpreted m
     end).
Proof.
  intros Hok R r m m' bytes. subst r m m' bytes.
  cbv beta delta [track_mavlink]. cbv beta iota.
  open_item_with Hok R p1 s1 d1 Hok1 F1 Fr1 V1 C1 K1 M1.
  assert (Hh : holds KTimeseriesFloat "radio/throughput" p1 s1).
  { exists d1. split; [| exact K1]. apply get_data_Some. split; [exact F1 |].
    pose proof (view_lookup s1 "radio/throughput") as Hv.
    rewrite V1, lookup_insert_eq, F1 in Hv. cbn in Hv. congruence. }
  assert (Hs : series_at "radio/throughput" s1 = series_at "radio/throughput" s).
  { destruct Hh as (d & Hg & _). unfold series_at at 1. rewrite Hg.
    assert (d = d1).
    { apply get_data_Some in Hg as [_ Hg].
      pose proof (view_lookup s1 "radio/throughput") as Hv.
      rewrite V1, lookup_insert_eq, F1 in Hv. cbn in Hv. congruence. }
    subst d. unfold float_series. rewrite C1. unfold content_at, series_at, float_series.
    destruct (_get_data "radio/throughput" s) as [[q d] |]; reflexivity. }
  assert (T : _time s1 = _time s) by (apply time_members, M1).
  assert (U : _have_time_update s1 = _have_time_update s).
  { apply (f_equal _have_time_update) in M1. exact M1. }
  cbv zeta. rewrite U, T.
  destruct (_have_time_update s), whatwasdone;
    cbn [fst snd _mavlink_summary num_received num_interpreted num_uninterpreted
         num_error _link_throughput_bytes mavlink_msgids_interpreted
         mavlink_msgids_uninterpreted];
    rewrite ?(series_at_add_float "radio/throughput" p1) by assumption;
    rewrite ?decide_True by reflexivity; rewrite ?Hs;
    (split; [reflexivity |]);
    do 3 (split; [reflexivity |]);
    (split; [| split; [reflexivity | split; [reflexivity | split; reflexivity]]]);
    unfold counters_add_up, count; cbn [num_received num_interpreted
      num_uninterpreted num_error]; intros ->.
  all: first [apply count_adds_up_l | apply count_adds_up_m | apply count_adds_up_r].
Qed.

End LinkFacts.

(** X24.  [track_mavlink] counts every packet once: the number of received
    packets grows by one, and so does exactly one of the counters of
    interpreted, uninterpreted and faulty packets, the one that the caller
    names, while the other two keep their values; so the statistics that
    add up before the call add up after it (modulo the width of the
    counters).  The message id is entered into the id set of the
    interpreted or of the uninterpreted packets, and into none for a
    faulty packet.  The bytes are accumulated until the clock has been set;
    from then on each call reports the accumulated bytes divided by 128 as
    one throughput sample and starts again at 0.  The hypotheses are the
    guard of the access macro. *)
Theorem track_mavlink_counts
    (counter_modulus bytes_modulus : Z) (s : MavSystem) (v : Vehicle)
    (data_length_bytes msgid : Z) (whatwasdone : mavlink_parsed_e) :
  store_ok s ->
  resolves KTimeseriesFloat "radio/throughput" s ->
  let r := track_mavlink counter_modulus bytes_modulus data_length_bytes msgid
             whatwasdone (v, s) in
  let m := _mavlink_summary v in
  let m' := _mavlink_summary r.1 in
  let bytes := (_link_throughput_bytes m + data_length_bytes) mod bytes_modulus in
  num_received m' = (num_received m + 1) mod counter_modulus /\
  num_interpreted m'
  = (match whatwasdone with
     | MAVLINK_INTERPRETED => (num_interpreted m + 1) mod counter_modulus
     | _ => num_interpreted m
     end) /\
  num_uninterpreted m'
  = (match whatwasdone with
     | MAVLINK_UNINTERPRETED => (num_uninterpreted m + 1) mod counter_modulus
     | _ => num_uninterpreted m
     end) /\
  num_error m'
  = (match whatwasdone with
     | MAVLINK_ERROR => (num_error m + 1) mod counter_modulus
     | _ => num_error m
     end) /\
  (counters_add_up counter_modulus m -> counters_add_up counter_modulus m') /\
  _link_throughput_bytes m' = (if _have_time_update s then 0 else bytes) /\
  series_at "radio/throughput" r.2
  = (if _have_time_update s
     then series_at "radio/throughput" s
          ++ [(_time s, round32 (double_of_Z bytes / 128))]
     else series_at "radio/throughput" s) /\
  mavlink_msgids_interpreted m'
  = (match whatwasdone with
     | MAVLINK_INTERPRETED => {[msgid]} ∪ mavlink_msgids_interpreted m
     | _ => mavlink_msgids_interpreted m
     end) /\
  mavlink_msgids_uninterpreted m'
  = (match whatwasdone with
     | MAVLINK_UNINTERPRETED => {[msgid]} ∪ mavlink_msgids_uninterpreted m
     | _ => mavlink_msgids_uninterpreted m
     end).
Proof.
  intros Hok R. apply track_mavlink_spec; assumption.
Qed.

Lemma track_mavlink_counts_witness :
  let r := track_mavlink (2 ^ 32) (2 ^ 32) 256 30 MAVLINK_INTERPRETED
             (Vehicle_defaults 255 255, sys_at_100s) in
  num_received (_mavlink_summary r.1) = 1 /\
  num_interpreted (_mavlink_summary r.1) = 1 /\
  num_uninterpreted (_mavlink_summary r.1) = 0 /\
  num_error (_mavlink_summary r.1) = 0 /\
  counters_add_up (2 ^ 32) (_mavlink_summary r.1) /\
  _link_throughput_bytes (_mavlink_summary r.1) = 0 /\
  series_at "radio/throughput" r.2 = [(100, 2)]%float.
Proof.
  intros r.
  destruct (track_mavlink_counts (2 ^ 32) (2 ^ 32) sys_at_100s
              (Vehicle_defaults 255 255) 256 30 MAVLINK_INTERPRETED)
    as (E1 & N1 & N2 & N3 & E2 & E3 & E4 & _).
  - store_ok_evaluate.
  - left. reflexivity.
  - fold r in E1, N1, N2, N3, E2, E3, E4.
    split; [exact E1 |]. split; [exact N1 |]. split; [exact N2 |].
    split; [exact N3 |]. split; [apply E2; reflexivity |].
    split; [exact E3 |]. rewrite E4. vm_compute. reflexivity.
Defined.

(** ** Satellites and fix type *)

Lemma item_or_return_as_with k path units s body :
  MAVSYSTEM_DATA_ITEM_OR_RETURN k path units s body
  = MAVSYSTEM_DATA_ITEM_OR_RETURN_with k path units s (fun s => s) body.
Proof. reflexivity. Qed.

(** X25.  [track_gps_status(n_sat, fix_type)] always records the number of
    satellites; the fix type is recorded unless it is 255, the value that
    stands for an unknown fix.  The hypotheses are the guard of the access
    macro. *)
Theorem track_gps_status_fix (s : MavSystem) (n_sat fix_type : Z) :
  store_ok s ->
  resolves KTimeseriesUInt "GPS/num sat" s ->
  resolves KTimeseriesUInt "GPS/fix type" s ->
  let s' := track_gps_status_sat n_sat fix_type s in
  uint_series_at "GPS/num sat" s'
  = uint_series_at "GPS/num sat" s ++ [(_time s, n_sat)] /\
  uint_series_at "GPS/fix type" s'
  = (if (fix_type <? 255)%Z
     then uint_series_at "GPS/fix type" s ++ [(_time s, fix_type)]
     else uint_series_at "GPS/fix type" s).
Proof.
  intros Hok R1 R2 s'. subst s'.
  cbv beta delta [track_gps_status_sat]. rewrite item_or_return_as_with.
  open_item_with Hok R1 p1 s1 d1 Hok1 F1 Fr1 V1 C1 K1 M1.
  carry_resolves R2 Fr1 V1 R2'.
  rewrite item_or_return_as_with.
  open_item_with Hok1 R2' p2 s2 d2 Hok2 F2 Fr2 V2 C2 K2 M2.
  assert (G1 : _data_from_path s2 !! "GPS/num sat"%string = Some p1).
  { rewrite Fr2 by path_ne. exact F1. }
  assert (T : _time s2 = _time s).
  { rewrite (time_members _ _ M2). apply time_members, M1. }
  rewrite (content_at_after_item _ _ _ _ _ _ V1) in C2 by path_ne.
  apply uints_of_content in C1, C2.
  cbv zeta. rewrite !time_on_unit, T.
  destruct (fix_type <? 255)%Z;
    unfold uint_series_at at 1 3;
    repeat view_step; rewrite V2, V1;
    through_alters; through_inserts; cbn [fmap option_fmap option_map];
    rewrite <- ?C1, <- ?C2; unfold add_elem_uint;
    destruct (content d1), (content d2); try discriminate; split; reflexivity.
Qed.

Lemma track_gps_status_fix_witness :
  let s0 := MavSystem_new 1 in
  uint_series_at "GPS/num sat" (track_gps_status_sat 7 255 s0)
  = uint_series_at "GPS/num sat" s0 ++ [(_time s0, 7)] /\
  uint_series_at "GPS/fix type" (track_gps_status_sat 7 255 s0)
  = uint_series_at "GPS/fix type" s0.
Proof.
  intros s0.
  exact (track_gps_status_fix s0 7 255 (store_ok_new 1)
           (resolves_new _ _ 1) (resolves_new _ _ 1)).
Defined.

(** ** The timing repair, unit by unit *)

Lemma set_parent_own (d : Data) : set_parent (get_parent d) d = d.
Proof. destruct d; reflexivity. Qed.

Lemma register_flat_heap (fullname : string) (item : ptr) (d : Data) (s : MavSystem) :
  heap s !! item = Some d ->
  _data_from_path (_data_register_hierarchy fullname item s)
  = <[fullname := item]> (_data_from_path s) /\
  exists par, heap (_data_register_hierarchy fullname item s)
              = <[item := set_parent par d]> (heap s).
Proof.
  intros Hd. unfold _data_register_hierarchy. rewrite Hd.
  destruct (removelast (string_split slash (string_trim fullname))) as [| g rest].
  - split; [reflexivity |]. exists (get_parent d). cbn.
    rewrite set_parent_own. symmetry. apply insert_id, Hd.
  - split; [reflexivity |]. eexists. reflexivity.
Qed.

Section BadTimingSteps.

Variable has_bad_timestamps : Data -> bool.
Variable make_periodic : Data -> Data.

Lemma bad_timing_as_steps (s : MavSystem) :
  _postprocess_bad_timing has_bad_timestamps make_periodic s
  = fold_left (repair_step has_bad_timestamps make_periodic) (in_key_order (_data_from_path s)) s.
Proof. reflexivity. Qed.

Lemma repair_step_bad (s : MavSystem) (k : string) (p : ptr) (d : Data) :
  heap s !! p = Some d -> is_timed d && has_bad_timestamps d = true ->
  exists par,
    _data_from_path (repair_step has_bad_timestamps make_periodic s (k, p))
    = <[backup_path d := fresh (dom (heap s))]> (_data_from_path s) /\
    heap (repair_step has_bad_timestamps make_periodic s (k, p))
    = alter make_periodic p
        (<[fresh (dom (heap s)) := set_parent par (backup_of d)]> (heap s)).
Proof.
  intros Hd Hbad. unfold repair_step. cbn [snd]. rewrite Hd, Hbad.
  cbv zeta. unfold alloc.
  set (q := fresh (dom (heap s))).
  set (s1 := with_heap _ s).
  assert (Hq : heap s1 !! q = Some (backup_of d)) by apply lookup_insert_eq.
  destruct (register_flat_heap (get_fullname (backup_of d)) q _ s1 Hq)
    as (Hflat & par & Hheap).
  exists par. fold (backup_of d). split.
  - cbn [on_unit with_heap with_store _data_from_path]. rewrite Hflat. reflexivity.
  - cbn [on_unit with_heap with_store heap]. rewrite Hheap.
    subst s1. cbn [with_heap with_store heap]. rewrite insert_insert_eq. reflexivity.
Qed.

Lemma repair_step_good (s : MavSystem) (k : string) (p : ptr) (d : Data) :
  heap s !! p = Some d -> is_timed d && has_bad_timestamps d = false ->
  repair_step has_bad_timestamps make_periodic s (k, p) = s.
Proof.
  intros Hd Hgood. unfold repair_step. cbn [snd]. rewrite Hd, Hgood.
  reflexivity.
Qed.

Lemma bad_timing_steps (l : list (string * ptr)) :
  forall s : MavSystem,
  NoDup l.*2 ->
  (forall k p, (k, p) ∈ l -> is_Some (heap s !! p)) ->
  (forall k p d, (k, p) ∈ l -> heap s !! p = Some d ->
                 is_timed d && has_bad_timestamps d = true ->
                 _data_from_path s !! backup_path d = None) ->
  (forall k1 p1 d1 k2 p2 d2,
      (k1, p1) ∈ l -> (k2, p2) ∈ l ->
      heap s !! p1 = Some d1 -> heap s !! p2 = Some d2 ->
      is_timed d1 && has_bad_timestamps d1 = true ->
      is_timed d2 && has_bad_timestamps d2 = true ->
      backup_path d1 = backup_path d2 -> p1 = p2) ->
  (forall k p, _data_from_path s !! k = Some p ->
               _data_from_path (fold_left (repair_step has_bad_timestamps make_periodic) l s) !! k = Some p) /\
  (forall p d, heap s !! p = Some d -> p ∈ l.*2 ->
               is_timed d && has_bad_timestamps d = true ->
               heap (fold_left (repair_step has_bad_timestamps make_periodic) l s) !! p = Some (make_periodic d)) /\
  (forall p d, heap s !! p = Some d ->
               p ∉ l.*2 \/ is_timed d && has_bad_timestamps d = false ->
               heap (fold_left (repair_step has_bad_timestamps make_periodic) l s) !! p = Some d) /\
  (forall k p d, (k, p) ∈ l -> heap s !! p = Some d ->
                 is_timed d && has_bad_timestamps d = true ->
                 exists q par,
                   _data_from_path (fold_left (repair_step has_bad_timestamps make_periodic) l s) !! backup_path d = Some q /\
                   heap (fold_left (repair_step has_bad_timestamps make_periodic) l s) !! q
                   = Some (set_parent par (backup_of d))).
Proof.
  induction l as [| [k0 p0] l IH]; intros s Hnd Hlive Hfree Hdist.
  { cbn. repeat split; try (intros; assumption).
    - intros p d _ Hin. apply elem_of_nil in Hin. destruct Hin.
    - intros k p d Hin. apply elem_of_nil in Hin. destruct Hin. }
  cbn [fmap list_fmap] in Hnd. apply NoDup_cons in Hnd as [Hp0 Hnd].
  destruct (Hlive k0 p0 ltac:(left)) as [d0 Hd0].
  cbn [fold_left].
  destruct (is_timed d0 && has_bad_timestamps d0) eqn:Hbad.
  - (* the unit is repaired *)
    destruct (repair_step_bad s k0 p0 d0 Hd0 Hbad) as (par & Hflat & Hheap).
    set (s1 := repair_step has_bad_timestamps make_periodic s (k0, p0)) in *.
    set (q := fresh (dom (heap s))) in *.
    assert (Hq : heap s !! q = None) by apply not_elem_of_dom, is_fresh.
    assert (Hqp : q <> p0) by congruence.
    assert (Hrest : forall k p, (k, p) ∈ l -> p <> p0 /\ p <> q).
    { intros k p Hin. split.
      - intros ->. apply Hp0. apply list_elem_of_fmap. exists (k, p0). auto.
      - intros ->. destruct (Hlive k q ltac:(right; exact Hin)). congruence. }
    assert (Hkeep : forall k p, (k, p) ∈ l -> heap s1 !! p = heap s !! p).
    { intros k p Hin. destruct (Hrest k p Hin) as [H1 H2]. rewrite Hheap.
      rewrite lookup_alter_ne, lookup_insert_ne by congruence. reflexivity. }
    destruct (IH s1 Hnd) as (Iflat & Ibad & Igood & Ibak).
    { intros k p Hin. rewrite (Hkeep k p Hin). apply (Hlive k p). right. exact Hin. }
    { intros k p d Hin Hd Hb. rewrite (Hkeep k p Hin) in Hd.
      rewrite Hflat, lookup_insert_ne.
      - apply (Hfree k p d); [right; exact Hin | exact Hd | exact Hb].
      - intros E. destruct (Hrest k p Hin) as [H1 _]. apply H1. symmetry.
        apply (Hdist k0 p0 d0 k p d); auto; [left | right; exact Hin]. }
    { intros k1 p1 d1 k2 p2 d2 H1 H2 Hd1 Hd2.
      rewrite (Hkeep k1 p1 H1) in Hd1. rewrite (Hkeep k2 p2 H2) in Hd2.
      apply (Hdist k1 p1 d1 k2 p2 d2); [right; exact H1 | right; exact H2 | |];
        assumption. }
    assert (Hp0l : p0 ∉ l.*2) by exact Hp0.
    assert (Hql : q ∉ l.*2).
    { intros Hin. apply list_elem_of_fmap in Hin as ([k p] & E & Hin). cbn in E.
      destruct (Hrest k p Hin) as [_ H2]. apply H2. symmetry. exact E. }
    assert (Hp0' : heap s1 !! p0 = Some (make_periodic d0)).
    { rewrite Hheap, lookup_alter_eq, lookup_insert_ne, Hd0 by congruence.
      reflexivity. }
    assert (Hq' : heap s1 !! q = Some (set_parent par (backup_of d0))).
    { rewrite Hheap, lookup_alter_ne, lookup_insert_eq by congruence. reflexivity. }
    repeat split.
    + intros k p Hk. apply Iflat. rewrite Hflat, lookup_insert_ne; [exact Hk |].
      intros <-. rewrite (Hfree k0 p0 d0) in Hk; [discriminate | left | |];
        assumption.
    + intros p d Hd Hin Hb. cbn in Hin.
      apply elem_of_cons in Hin as [-> | Hin].
      * replace d with d0 by congruence. apply Igood; [exact Hp0' | left; exact Hp0l].
      * apply list_elem_of_fmap in Hin as ([k p'] & E & Hin). cbn in E. subst p.
        apply Ibad; [| apply list_elem_of_fmap; exists (k, p'); auto | exact Hb].
        rewrite (Hkeep k p' Hin). exact Hd.
    + intros p d Hd Hcase.
      assert (Hp : p <> p0).
      { intros ->. replace d with d0 in Hcase by congruence.
        destruct Hcase as [Hn | Hn]; [| congruence].
        apply Hn. cbn. left. }
      assert (Hpq : p <> q) by congruence.
      apply Igood.
      * rewrite Hheap, lookup_alter_ne, lookup_insert_ne by congruence. exact Hd.
      * destruct Hcase as [Hn | Hn]; [left | right; exact Hn].
        intros Hin. apply Hn. cbn. right. exact Hin.
    + intros k p d Hin Hd Hb. apply elem_of_cons in Hin as [[= -> ->] | Hin].
      * replace d with d0 by congruence. exists q, par. split.
        -- apply Iflat. rewrite Hflat. apply lookup_insert_eq.
        -- apply Igood; [exact Hq' | left; exact Hql].
      * apply (Ibak k p d Hin); [| exact Hb]. rewrite (Hkeep k p Hin). exact Hd.
  - (* the unit is left alone *)
    rewrite (repair_step_good s k0 p0 d0 Hd0 Hbad).
    destruct (IH s Hnd) as (Iflat & Ibad & Igood & Ibak).
    { intros k p Hin. apply (Hlive k p). right. exact Hin. }
    { intros k p d Hin. apply (Hfree k p d). right. exact Hin. }
    { intros k1 p1 d1 k2 p2 d2 H1 H2.
      apply (Hdist k1 p1 d1 k2 p2 d2); right; assumption. }
    repeat split.
    + exact Iflat.
    + intros p d Hd Hin Hb. cbn in Hin.
      apply elem_of_cons in Hin as [-> | Hin]; [congruence |].
      apply Ibad; assumption.
    + intros p d Hd Hcase. apply Igood; [exact Hd |].
      destruct Hcase as [Hn | Hn]; [| right; exact Hn].
      destruct (decide (p = p0)) as [-> | Hne].
      * right. congruence.
      * left. intros Hin. apply Hn. cbn. right. exact Hin.
    + intros k p d Hin Hd Hb. apply elem_of_cons in Hin as [[= -> ->] | Hin];
        [congruence |].
      apply (Ibak k p d Hin Hd Hb).
Qed.

End BadTimingSteps.

(** X26.  The timing repair makes every timed unit with bad time stamps
    periodic and leaves every other unit as it is; of each unit it
    repairs, a copy as it was, renamed to [<name>_orig], is registered
    under the backup path.  The backup paths have to be free. *)
Theorem bad_timing_repairs
    (has_bad_timestamps : Data -> bool) (make_periodic : Data -> Data)
    (s : MavSystem) (k : string) (d : Data) :
  store_ok s -> backups_free has_bad_timestamps s ->
  view s !! k = Some d ->
  view (_postprocess_bad_timing has_bad_timestamps make_periodic s) !! k
  = Some (if is_timed d && has_bad_timestamps d then make_periodic d else d) /\
  (is_timed d && has_bad_timestamps d = true ->
   exists par,
     view (_postprocess_bad_timing has_bad_timestamps make_periodic s)
       !! backup_path d
     = Some (set_parent par (backup_of d))).
Proof.
  intros Hok [Hfree Hdist] Hk.
  pose proof Hok as [Hlive Hinj].
  apply view_get_Some in Hk as (p & Hk). apply get_data_Some in Hk as [Hk Hd].
  assert (Hview : forall k p d, _data_from_path s !! k = Some p ->
                                heap s !! p = Some d -> view s !! k = Some d).
  { intros k' p' d' H1 H2. rewrite view_lookup, H1. exact H2. }
  rewrite bad_timing_as_steps.
  destruct (bad_timing_steps has_bad_timestamps make_periodic
              (in_key_order (_data_from_path s)) s)
    as (Iflat & Ibad & Igood & Ibak).
  { apply NoDup_fmap_2_strong.
    - intros [k1 p1] [k2 p2] H1 H2 E. cbn in E. subst p2.
      apply in_key_order_spec in H1, H2. f_equal. eapply Hinj; eauto.
    - eapply NoDup_fmap_1. apply in_key_order_NoDup. }
  { intros k' p' Hin. apply in_key_order_spec in Hin. eapply Hlive, Hin. }
  { intros k' p' d' Hin Hd' Hb. apply in_key_order_spec in Hin.
    apply (Hfree k' d'); [eapply Hview; eauto | exact Hb]. }
  { intros k1 p1 d1 k2 p2 d2 H1 H2 Hd1 Hd2 Hb1 Hb2 E.
    apply in_key_order_spec in H1, H2.
    assert (k1 = k2) by (apply (Hdist k1 d1 k2 d2); eauto).
    subst k2. congruence. }
  assert (Hin : (k, p) ∈ in_key_order (_data_from_path s))
    by (apply in_key_order_spec, Hk).
  split.
  - rewrite view_lookup, (Iflat k p Hk). cbn.
    destruct (is_timed d && has_bad_timestamps d) eqn:Hb.
    + apply Ibad; [exact Hd | | exact Hb].
      apply list_elem_of_fmap. exists (k, p). auto.
    + apply Igood; [exact Hd | right; exact Hb].
  - intros Hb. destruct (Ibak k p d Hin Hd Hb) as (q & par & Hq & Hb').
    exists par. rewrite view_lookup, Hq. exact Hb'.
Qed.

Lemma backups_free_by_evaluation (bad : Data -> bool) (s : MavSystem) :
  map_Forall (fun (_ : string) d =>
                is_timed d && bad d = true ->
                _data_from_path s !! backup_path d = None) (view s) ->
  map_Forall (fun k1 d1 =>
                map_Forall (fun k2 d2 =>
                              is_timed d1 && bad d1 = true ->
                              is_timed d2 && bad d2 = true ->
                              backup_path d1 = backup_path d2 -> k1 = k2)
                           (view s)) (view s) ->
  backups_free bad s.
Proof.
  intros H1 H2. split.
  - intros k d Hk. exact (H1 k d Hk).
  - intros k1 d1 k2 d2 Hk1 Hk2. exact (H2 k1 d1 Hk1 k2 d2 Hk2).
Qed.

Ltac over_units :=
  apply map_Forall_to_list;
  match goal with
  | |- Forall ?P ?l => let l' := eval vm_compute in l in change (Forall P l')
  end;
  repeat first [apply Forall_nil_2 | apply Forall_cons_2]; cbn [uncurry].

Lemma bad_timing_repairs_witness :
  exists d,
    view sys_with_power !! "power/battery_voltage" = Some d /\
    view (_postprocess_bad_timing (fun d => Nat.ltb 0 (data_size d)) clear
            sys_with_power) !! "power/battery_voltage" = Some (clear d) /\
    exists par,
      view (_postprocess_bad_timing (fun d => Nat.ltb 0 (data_size d)) clear
              sys_with_power) !! "power/battery_voltage_orig"
      = Some (set_parent par (backup_of d)).
Proof.
  assert (Hok : store_ok sys_with_power) by store_ok_evaluate.
  assert (Hfree : backups_free (fun d => Nat.ltb 0 (data_size d)) sys_with_power).
  { apply backups_free_by_evaluation.
    - over_units. all: intros _; vm_compute; reflexivity.
    - over_units. all: over_units.
      all: intros _ _ E; first [reflexivity | vm_compute in E; discriminate E]. }
  destruct (view sys_with_power !! "power/battery_voltage") as [d |] eqn:Hv;
    [| vm_compute in Hv; discriminate Hv].
  exists d. split; [reflexivity |].
  destruct (bad_timing_repairs (fun d => Nat.ltb 0 (data_size d)) clear
              sys_with_power "power/battery_voltage" d Hok Hfree Hv)
    as [H1 H2].
  vm_compute in Hv. injection Hv as Hd. subst d.
  split; [exact H1 | exact (H2 eq_refl)].
Defined.
